(** * Multi-meter PAC3200 dashboard: acquisition and storage core

    A shallow embedding of [src/app.py]: the [PAC3200Meter] class (register
    map, float decoding, simulated fallback, batch read) and the storage
    half of [MultiMeterDashboard] (schema initialisation, meter registry,
    tolerant write, latest-per-meter and aggregate queries).

    Python values are modelled by [value]; Python floats by the
    specification floats of the Standard Library ([spec_float], binary64
    operations); dictionaries whose iteration order is irrelevant by
    [gmap string]; the register map, which is iterated with side effects,
    by an insertion-ordered association list.  Everything the program asks
    of its environment (the Modbus peer, the clock, the random generator,
    the string hash) is a field of [world]. *)

From Stdlib Require Import ZArith Floats.SpecFloat Strings.String.
From stdpp Require Import gmap strings list fin_maps sorting.

Open Scope Z_scope.

(** ** Python values *)

Inductive value :=
  | VNone
  | VInt (z : Z)
  | VFloat (f : spec_float)
  | VText (s : string).

(** [np.isnan], [np.isinf] on a float *)
Definition np_isnan (f : spec_float) : bool :=
  match f with S754_nan => true | _ => false end.

Definition np_isinf (f : spec_float) : bool :=
  match f with S754_infinity _ => true | _ => false end.

Definition is_finite (f : spec_float) : bool :=
  match f with S754_zero _ | S754_finite _ _ _ => true | _ => false end.

(** A Python value that is a finite float. *)
Definition finite_number (v : value) : bool :=
  match v with VFloat f => is_finite f | _ => false end.

(** An optional float as the Python object it is ([None] or a float). *)
Definition of_optional (o : option spec_float) : value :=
  match o with Some f => VFloat f | None => VNone end.

(** ** Binary64 arithmetic of Python floats *)

Definition prec : Z := 53.
Definition emax : Z := 1024.

Definition fadd : spec_float -> spec_float -> spec_float := SFadd prec emax.
Definition fmul : spec_float -> spec_float -> spec_float := SFmul prec emax.
Definition fdiv : spec_float -> spec_float -> spec_float := SFdiv prec emax.
Definition fabs : spec_float -> spec_float := SFabs.

(** Conversion of a Python int operand to float. *)
Definition of_int (z : Z) : spec_float := binary_normalize prec emax z 0 false.

(** A decimal literal [num/den], correctly rounded. *)
Definition literal (num den : Z) : spec_float := fdiv (of_int num) (of_int den).

(** ** Insertion-ordered dictionaries *)

(** [d[k] = v]: an existing key keeps its position and gets the new value, a
    new key is appended. *)
Fixpoint dict_setitem {V : Type} (d : list (string * V)) (k : string) (v : V)
  : list (string * V) :=
  match d with
  | [] => [(k, v)]
  | (k', v') :: d' =>
      if String.eqb k' k then (k', v) :: d' else (k', v') :: dict_setitem d' k v
  end.

(** A dict display [{k1: v1, k2: v2, ...}], evaluated left to right. *)
Definition dict_literal {V : Type} (items : list (string * V)) : list (string * V) :=
  foldl (fun d kv => dict_setitem d kv.1 kv.2) [] items.

Fixpoint dict_get {V : Type} (d : list (string * V)) (k : string) : option V :=
  match d with
  | [] => None
  | (k', v) :: d' => if String.eqb k' k then Some v else dict_get d' k
  end.

Definition dict_keys {V : Type} (d : list (string * V)) : list string := d.*1.

(** ** The environment *)

(** Outcome of [client.read_holding_registers(address, 2, unit=...)]. *)
Inductive response :=
  | Raises                       (* the call raised *)
  | IsError                      (* a response whose [isError()] holds *)
  | Registers (regs : list Z).   (* [rr.registers] *)

(** The n-th question the program asks of its environment has the answer the
    field gives at [n]; successive register reads use successive [n]. *)
Record world := {
  MODBUS_AVAILABLE : bool;
  hash : string -> Z;
  is_socket_open : nat -> bool;   (* the peer has not dropped the socket *)
  read_holding_registers : nat -> Z -> Z -> Z -> response;
  time_time : nat -> spec_float;
  np_sin : spec_float -> spec_float;
  np_random_normal : nat -> spec_float;
  datetime_now : nat -> Z;
  (* the SQL engine's reading of a text as a number: whether the whole text
     is a well-formed numeric literal, and the value of its longest numeric
     prefix (0.0 when there is none) *)
  sqlite3AtoF : string -> bool * spec_float;
}.

(** ** Decoding two registers as a big-endian binary32 *)

Definition is_uint16 (r : Z) : bool := (0 <=? r) && (r <? 65536).

(** The float a binary32 bit pattern denotes: sign bit 31, biased exponent in
    bits 30..23, fraction in bits 22..0. *)
Definition float_of_bits32 (bits : Z) : spec_float :=
  let s := Z.testbit bits 31 in
  let e := Z.land (Z.shiftr bits 23) 255 in
  let m := Z.land bits 8388607 in
  if e =? 255 then (if m =? 0 then S754_infinity s else S754_nan)
  else if e =? 0 then
    match m with
    | Z.pos p => S754_finite s p (-149)
    | _ => S754_zero s
    end
  else
    match m + 8388608 with
    | Z.pos p => S754_finite s p (e - 150)
    | _ => S754_zero s
    end.

(** [BinaryPayloadDecoder.fromRegisters(regs, Endian.Big, Endian.Big)
    .decode_32bit_float()]: every register is packed as an unsigned 16-bit
    word, most significant word first; the first four bytes are unpacked.
    [None] stands for the exception raised on a word out of range or on a
    payload shorter than four bytes. *)
Definition decode_32bit_float (regs : list Z) : option spec_float :=
  if forallb is_uint16 regs then
    match regs with
    | hi :: lo :: _ => Some (float_of_bits32 (Z.lor (Z.shiftl hi 16) lo))
    | _ => None
    end
  else None.

(** ** PAC3200Meter *)

(** A [ModbusClient] object; [socket] tells whether the object still holds
    the socket its [connect] opened ([close] drops it). *)
Record ModbusClient := {
  client_host : string;
  client_port : Z;
  client_timeout : Z;
  socket : bool;
}.

Record PAC3200Meter := {
  meter_id : string;
  name : string;
  host : string;
  port : Z;
  unit_id : Z;
  timeout : Z;
  location : string;
  description : string;
  client : option ModbusClient;
  connected : bool;
  last_reading : option (gmap string value);
  last_reading_time : option Z;
}.

(** [PAC3200Meter(meter_id, name, host, port, unit_id, location=...,
    description=...)] *)
Definition new_meter (meter_id name host : string) (port unit_id : Z)
    (location description : string) : PAC3200Meter :=
  {| meter_id := meter_id; name := name; host := host; port := port;
     unit_id := unit_id; timeout := 3; location := location;
     description := description; client := None; connected := false;
     last_reading := None; last_reading_time := None |}.

(** The register map as the source writes it: the items of the dict display,
    in order. *)
Definition registers_display : list (string * Z) :=
  [ ("V1_N_Voltage", 1); ("V2_N_Voltage", 3); ("V3_N_Voltage", 5);
    ("V1_V2_Voltage", 7); ("V2_V3_Voltage", 9); ("V3_V1_Voltage", 11);
    ("Maximum_Voltage_V1_n", 75); ("Maximum_Voltage_V2_n", 77); ("Maximum_Voltage_V3_n", 79);
    ("Maximum_Voltage_V1_2", 81); ("Maximum_Voltage_V2_3", 83); ("Maximum_Voltage_V3_1", 85);
    ("Minimum_Voltage_V1_n", 145); ("Minimum_Voltage_V2_n", 147); ("Minimum_Voltage_V3_n", 149);
    ("Minimum_Voltage_V1_2", 151); ("Minimum_Voltage_V2_3", 153); ("Minimum_Voltage_V3_1", 155);
    ("THD_R_Voltage_1", 43); ("THD_R_Voltage_2", 45); ("THD_R_Voltage_3", 47);
    ("Average_Voltage_Vph_n", 57); ("Average_Voltage_Vph_ph", 59);
    ("Amplitude_Unbalance_Voltage", 71);
    ("L1_Current", 13); ("L2_Current", 15); ("L3_Current", 17);
    ("Maximum_Current_1", 87); ("Maximum_Current_2", 89); ("Maximum_Current_3", 91);
    ("Minimum_Current_1", 157); ("Maximum_Current_2", 159); ("Minimum_Current_3", 161);
    ("Average_Current", 61);
    ("THD_R_Current_1", 49); ("THD_R_Current_2", 51); ("THD_R_Current_3", 53);
    ("Amplitude_Unbalance_Current", 73);
    ("L1_Active_Power", 25); ("L2_Active_Power", 27); ("L3_Active_Power", 29);
    ("Maximum_Active_Power_1", 99); ("Maximum_Active_Power_2", 101); ("Maximum_Active_Power_3", 103);
    ("Minimum_Active_Power_1", 169); ("Minimum_Active_Power_2", 171); ("Minimum_Active_Power_3", 173);
    ("Total_Active_Power", 65);
    ("L1_Reactive_Power", 31); ("L2_Reactive_Power", 33); ("L3_Reactive_Power", 35);
    ("Maximum_Reactive_Power_1", 105); ("Maximum_Reactive_Power_2", 107); ("Maximum_Reactive_Power_3", 109);
    ("Minimum_Reactive_Power_1", 175); ("Minimum_Reactive_Power_2", 177); ("Minimum_Reactive_Power_3", 179);
    ("Total_Reactive_Power", 67);
    ("L1_Apparent_Power", 19); ("L2_Apparent_Power", 21); ("L3_Apparent_Power", 23);
    ("Maximum_Apparent_Power_1", 93); ("Maximum_Apparent_Power_2", 95); ("Maximum_Apparent_Power_3", 97);
    ("Minimum_Apparent_Power_1", 163); ("Minimum_Apparent_Power_2", 165); ("Minimum_Apparent_Power_3", 167);
    ("Total_Apparent_Power", 63);
    ("L1_Power_Factor", 37); ("L2_Power_Factor", 39); ("L3_Power_Factor", 41);
    ("Maximum_Power_Factor_1", 111); ("Maximum_Power_Factor_2", 113); ("Maximum_Power_Factor_3", 115);
    ("Minimum_Power_Factor_1", 181); ("Minimum_Power_Factor_2", 183); ("Minimum_Power_Factor_3", 185);
    ("Total_Power_Factor", 69);
    ("Frequency", 55);
    ("Total_Active_Energy", 801);
    ("Total_Reactive_Energy", 805) ]%string.

(** [self.registers]: the dictionary the display evaluates to. *)
Definition registers : list (string * Z) := dict_literal registers_display.

(** [client.close()] *)
Definition close (c : ModbusClient) : ModbusClient :=
  {| client_host := client_host c; client_port := client_port c;
     client_timeout := client_timeout c; socket := false |}.

(** [disconnect] *)
Definition disconnect (w : world) (m : PAC3200Meter) : PAC3200Meter :=
  {| meter_id := meter_id m; name := name m; host := host m; port := port m;
     unit_id := unit_id m; timeout := timeout m; location := location m;
     description := description m;
     client := if MODBUS_AVAILABLE w then close <$> client m else client m;
     connected := false;
     last_reading := last_reading m; last_reading_time := last_reading_time m |}.

(** [x in lst] for a list of register numbers *)
Definition py_in (x : Z) (lst : list Z) : bool := existsb (Z.eqb x) lst.

(** [_generate_simulated_value]; [n] numbers the call. *)
Definition _generate_simulated_value (w : world) (m : PAC3200Meter) (n : nat)
    (register_address : Z) : spec_float :=
  let meter_offset := fdiv (of_int (hash w (meter_id m) mod 10)) (literal 10 1) in
  let voltage_registers := [1; 3; 5; 7; 9; 11; 57; 59] in
  let current_registers := [13; 15; 17; 61] in
  let power_registers := [25; 27; 29; 31; 33; 35; 19; 21; 23; 65; 67; 63] in
  let power_factor_registers := [37; 39; 41; 69] in
  let frequency_registers := [55] in
  let thd_registers := [43; 45; 47; 49; 51; 53] in
  let energy_registers := [801; 805] in
  let base_time := time_time w n in
  let variation :=
    fadd (fmul (np_sin w (fadd (fdiv base_time (of_int 10)) meter_offset)) (literal 1 10))
         (np_random_normal w n) in
  if py_in register_address voltage_registers then
    if py_in register_address [57; 59] then
      fadd (fadd (of_int 230) (fmul variation (of_int 10))) (fmul meter_offset (of_int 5))
    else
      fadd (fadd (of_int 230) (fmul variation (of_int 15))) (fmul meter_offset (of_int 5))
  else if py_in register_address current_registers then
    fadd (fadd (of_int 10) (fmul variation (of_int 5))) (fmul meter_offset (of_int 3))
  else if py_in register_address power_registers then
    if register_address =? 65 then
      fadd (fadd (of_int 2300) (fmul variation (of_int 300))) (fmul meter_offset (of_int 500))
    else if py_in register_address [67; 63] then
      fadd (fadd (of_int 2400) (fmul variation (of_int 320))) (fmul meter_offset (of_int 500))
    else
      fadd (fadd (of_int 760) (fmul variation (of_int 100))) (fmul meter_offset (of_int 150))
  else if py_in register_address power_factor_registers then
    fadd (literal 85 100) (fmul variation (literal 1 10))
  else if py_in register_address frequency_registers then
    fadd (literal 50 1) (fmul variation (literal 2 10))
  else if py_in register_address thd_registers then
    fadd (literal 25 10) (fmul (fabs variation) (of_int 2))
  else if py_in register_address energy_registers then
    fadd (fadd (of_int 1000000) (fmul base_time (of_int 100)))
         (fmul meter_offset (of_int 100000))
  else
    fmul (fabs variation) (of_int 100).

(** [read_float32_register]; [n] numbers the call.  [None] is Python's
    [None]; every exception of the live path is caught and gives [None]. *)
Definition read_float32_register (w : world) (m : PAC3200Meter) (n : nat)
    (register_address : Z) : option spec_float :=
  if negb (MODBUS_AVAILABLE w) then
    Some (_generate_simulated_value w m n register_address)
  else
    match client m with
    | None => None
    | Some c =>
        if negb (socket c && is_socket_open w n) then None
        else
          match read_holding_registers w n register_address 2 (unit_id m) with
          | Raises => None
          | IsError => None
          | Registers regs =>
              match decode_32bit_float regs with
              | None => None
              | Some v => if np_isnan v || np_isinf v then None else Some v
              end
          end
    end.

(** The loop of [read_all_parameters]: one register read per item of the
    register map, in the dictionary's order, each stored under its name. *)
Definition read_loop (w : world) (m : PAC3200Meter)
    (items : list (string * Z)) (n : nat) (data : gmap string value)
  : gmap string value * nat :=
  foldl (fun '(data, n) '(param_name, register_addr) =>
           (<[param_name := of_optional (read_float32_register w m n register_addr)]> data,
            S n))
        (data, n) items.

(** [read_all_parameters]: the data, the meter with its last reading
    recorded, and the number of the next call. *)
Definition read_all_parameters (w : world) (m : PAC3200Meter) (n : nat)
  : gmap string value * PAC3200Meter * nat :=
  let '(data, n') := read_loop w m registers n ∅ in
  (data,
   {| meter_id := meter_id m; name := name m; host := host m; port := port m;
      unit_id := unit_id m; timeout := timeout m; location := location m;
      description := description m; client := client m; connected := connected m;
      last_reading := Some data; last_reading_time := Some (datetime_now w n') |},
   n').

(** ** The SQLite database

    The database file holds the three tables and the index the program
    names.  A table that does not exist is [None].  The configuration table
    has the layout [init_database] gives it and is keyed by its primary key
    [meter_id]; the reading table and its backup carry their column list,
    which [PRAGMA table_info] reports, since the program inspects it.  A row
    maps a column to the value stored in it; a column that is NULL in the
    row is absent from the map.  Timestamps are points of one time line
    (microseconds), ordered as the texts SQLite stores and compares. *)

Record config_row := {
  cfg_name : string;
  cfg_host : string;
  cfg_port : Z;
  cfg_unit_id : Z;
  cfg_location : option string;
  cfg_description : option string;
  cfg_created_at : Z;
  cfg_updated_at : Z;
}.

Record table := {
  columns : list string;
  rows : list (gmap string value);
}.

Inductive table_name := Readings | Backup.

(** An index: the table it belongs to and its key, each column with its
    direction ([true] for DESC). *)
Record index := {
  index_table : table_name;
  index_key : list (string * bool);
}.

Record database := {
  meters_config : option (gmap string config_row);
  pac3200_readings : option table;
  pac3200_readings_backup : option table;
  idx_readings_meter_timestamp : option index;
}.

#[global] Instance table_name_eq_dec : EqDecision table_name.
Proof. solve_decision. Defined.

(** [PRAGMA table_info(pac3200_readings)], column names only: empty when
    the table does not exist. *)
Definition table_info (db : database) : list string :=
  match pac3200_readings db with
  | Some t => columns t
  | None => []
  end.

(** [SELECT COUNT( * ) FROM pac3200_readings] *)
Definition count_rows (db : database) : Z :=
  match pac3200_readings db with
  | Some t => Z.of_nat (length (rows t))
  | None => 0
  end.

(** [ALTER TABLE pac3200_readings RENAME TO pac3200_readings_backup]: an
    error ([None]) when the source is missing or the new name is taken; the
    indexes of the table follow it. *)
Definition rename_readings_to_backup (db : database) : option database :=
  match pac3200_readings db, pac3200_readings_backup db with
  | Some t, None =>
      Some {| meters_config := meters_config db;
              pac3200_readings := None;
              pac3200_readings_backup := Some t;
              idx_readings_meter_timestamp :=
                match idx_readings_meter_timestamp db with
                | Some i => Some {| index_table := Backup; index_key := index_key i |}
                | None => None
                end |}
  | _, _ => None
  end.

(** [DROP TABLE IF EXISTS pac3200_readings]: the indexes of the table go
    with it. *)
Definition drop_readings (db : database) : database :=
  {| meters_config := meters_config db;
     pac3200_readings := None;
     pac3200_readings_backup := pac3200_readings_backup db;
     idx_readings_meter_timestamp :=
       match idx_readings_meter_timestamp db with
       | Some i =>
           match index_table i with
           | Readings => None
           | Backup => Some i
           end
       | None => None
       end |}.

(** [CREATE TABLE IF NOT EXISTS meters_config (...)] *)
Definition create_meters_config (db : database) : database :=
  {| meters_config :=
       match meters_config db with
       | Some cfg => Some cfg
       | None => Some ∅
       end;
     pac3200_readings := pac3200_readings db;
     pac3200_readings_backup := pac3200_readings_backup db;
     idx_readings_meter_timestamp := idx_readings_meter_timestamp db |}.

(** The measurement columns of the [CREATE TABLE pac3200_readings]
    statement, in order. *)
Definition measurement_columns : list string :=
  [ "V1_N_Voltage"; "V2_N_Voltage"; "V3_N_Voltage";
    "V1_V2_Voltage"; "V2_V3_Voltage"; "V3_V1_Voltage";
    "Maximum_Voltage_V1_n"; "Maximum_Voltage_V2_n"; "Maximum_Voltage_V3_n";
    "Maximum_Voltage_V1_2"; "Maximum_Voltage_V2_3"; "Maximum_Voltage_V3_1";
    "Minimum_Voltage_V1_n"; "Minimum_Voltage_V2_n"; "Minimum_Voltage_V3_n";
    "Minimum_Voltage_V1_2"; "Minimum_Voltage_V2_3"; "Minimum_Voltage_V3_1";
    "L1_Current"; "L2_Current"; "L3_Current";
    "Maximum_Current_1"; "Maximum_Current_2"; "Maximum_Current_3";
    "Minimum_Current_1"; "Minimum_Current_2"; "Minimum_Current_3";
    "L1_Active_Power"; "L2_Active_Power"; "L3_Active_Power";
    "Maximum_Active_Power_1"; "Maximum_Active_Power_2"; "Maximum_Active_Power_3";
    "Minimum_Active_Power_1"; "Minimum_Active_Power_2"; "Minimum_Active_Power_3";
    "L1_Reactive_Power"; "L2_Reactive_Power"; "L3_Reactive_Power";
    "Maximum_Reactive_Power_1"; "Maximum_Reactive_Power_2"; "Maximum_Reactive_Power_3";
    "Minimum_Reactive_Power_1"; "Minimum_Reactive_Power_2"; "Minimum_Reactive_Power_3";
    "L1_Apparent_Power"; "L2_Apparent_Power"; "L3_Apparent_Power";
    "Maximum_Apparent_Power_1"; "Maximum_Apparent_Power_2"; "Maximum_Apparent_Power_3";
    "Minimum_Apparent_Power_1"; "Minimum_Apparent_Power_2"; "Minimum_Apparent_Power_3";
    "L1_Power_Factor"; "L2_Power_Factor"; "L3_Power_Factor";
    "Maximum_Power_Factor_1"; "Maximum_Power_Factor_2"; "Maximum_Power_Factor_3";
    "Minimum_Power_Factor_1"; "Minimum_Power_Factor_2"; "Minimum_Power_Factor_3";
    "Total_Active_Power"; "Total_Reactive_Power"; "Total_Apparent_Power";
    "Total_Power_Factor"; "Frequency"; "Average_Current";
    "Average_Voltage_Vph_n"; "Average_Voltage_Vph_ph";
    "THD_R_Voltage_1"; "THD_R_Voltage_2"; "THD_R_Voltage_3";
    "THD_R_Current_1"; "THD_R_Current_2"; "THD_R_Current_3";
    "Amplitude_Unbalance_Voltage"; "Amplitude_Unbalance_Current";
    "Total_Active_Energy"; "Total_Reactive_Energy" ]%string.

Definition readings_columns : list string :=
  ["id"; "meter_id"; "timestamp"]%string ++ measurement_columns.

(** The table [CREATE TABLE pac3200_readings (...)] makes. *)
Definition new_readings_table : table :=
  {| columns := readings_columns; rows := [] |}.

(** [CREATE TABLE pac3200_readings (...)]: an error ([None]) when the table
    exists. *)
Definition create_readings (db : database) : option database :=
  match pac3200_readings db with
  | Some _ => None
  | None =>
      Some {| meters_config := meters_config db;
              pac3200_readings := Some new_readings_table;
              pac3200_readings_backup := pac3200_readings_backup db;
              idx_readings_meter_timestamp := idx_readings_meter_timestamp db |}
  end.

(** The key [(meter_id, timestamp DESC)]. *)
Definition meter_timestamp_key : list (string * bool) :=
  [("meter_id", false); ("timestamp", true)]%string.

(** [CREATE INDEX IF NOT EXISTS idx_readings_meter_timestamp ON
    pac3200_readings(meter_id, timestamp DESC)]: nothing happens when an
    index of that name exists, whatever table it is on; an error ([None])
    when the reading table is missing. *)
Definition create_index (db : database) : option database :=
  match idx_readings_meter_timestamp db with
  | Some _ => Some db
  | None =>
      match pac3200_readings db with
      | None => None
      | Some _ =>
          Some {| meters_config := meters_config db;
                  pac3200_readings := pac3200_readings db;
                  pac3200_readings_backup := pac3200_readings_backup db;
                  idx_readings_meter_timestamp :=
                    Some {| index_table := Readings;
                            index_key := meter_timestamp_key |} |}
      end
  end.

(** ** MultiMeterDashboard *)

(** The legacy branch of [init_database]: taken when the reading table has a
    [device_id] column. *)
Definition migrate_legacy (db : database) : option database :=
  if bool_decide ("device_id"%string ∈ table_info db) then
    if 0 <? count_rows db then rename_readings_to_backup db
    else Some (drop_readings db)
  else Some db.

(** [init_database]: the database it leaves and the boolean it returns.
    Every statement takes effect as it runs (the statements are schema
    statements, which the connection does not wrap in a transaction), so an
    exception leaves the statements before it applied and returns
    [False]. *)
Definition init_database (db : database) : database * bool :=
  match migrate_legacy db with
  | None => (db, false)
  | Some db1 =>
      let db2 := create_meters_config db1 in
      let db3 := drop_readings db2 in
      match create_readings db3 with
      | None => (db3, false)
      | Some db4 =>
          match create_index db4 with
          | None => (db4, false)
          | Some db5 => (db5, true)
          end
      end
  end.

(** SQLite stores a Python int only if it fits 64 bits; binding a larger
    one raises. *)
Definition is_int64 (z : Z) : bool :=
  (-9223372036854775808 <=? z) && (z <=? 9223372036854775807).

Definition set_meters_config (db : database) (cfg : gmap string config_row)
  : database :=
  {| meters_config := Some cfg;
     pac3200_readings := pac3200_readings db;
     pac3200_readings_backup := pac3200_readings_backup db;
     idx_readings_meter_timestamp := idx_readings_meter_timestamp db |}.

(** [add_meter]; [now] is the engine's CURRENT_TIMESTAMP.  The result is the
    database, [self.meters] and the boolean returned. *)
Definition add_meter (db : database) (meters : gmap string PAC3200Meter)
    (meter_id name host : string) (port unit_id : Z)
    (location description : string) (now : Z)
  : database * gmap string PAC3200Meter * bool :=
  let meter := new_meter meter_id name host port unit_id location description in
  match meters_config db with
  | None => (db, meters, false)
  | Some cfg =>
      if is_int64 port && is_int64 unit_id then
        (set_meters_config db
           (<[meter_id :=
                {| cfg_name := name; cfg_host := host; cfg_port := port;
                   cfg_unit_id := unit_id; cfg_location := Some location;
                   cfg_description := Some description;
                   cfg_created_at := now; cfg_updated_at := now |}]> cfg),
         <[meter_id := meter]> meters,
         true)
      else (db, meters, false)
  end.

(** [remove_meter].  The result is the database, [self.meters], the removed
    meter object as [disconnect] left it (if the id was registered), and the
    boolean returned. *)
Definition remove_meter (w : world) (db : database)
    (meters : gmap string PAC3200Meter) (meter_id : string)
  : database * gmap string PAC3200Meter * option PAC3200Meter * bool :=
  let released := disconnect w <$> meters !! meter_id in
  let meters' := delete meter_id meters in
  match meters_config db with
  | None => (db, meters', released, false)
  | Some cfg => (set_meters_config db (delete meter_id cfg), meters', released, true)
  end.

(** [x or ""] for a text column that may be NULL *)
Definition or_empty (x : option string) : string :=
  match x with
  | Some s => s
  | None => ""
  end.

(** The meter object [load_meters_config] builds from a row:
    [PAC3200Meter(meter_id, name, host, port, unit_id,
    location=location or "", description=description or "")]. *)
Definition meter_of_config (meter_id : string) (row : config_row) : PAC3200Meter :=
  new_meter meter_id (cfg_name row) (cfg_host row) (cfg_port row)
    (cfg_unit_id row) (or_empty (cfg_location row))
    (or_empty (cfg_description row)).

(** [load_meters_config]: every row of the configuration table becomes a
    meter object stored under its id; a missing table is tolerated. *)
Definition load_meters_config (db : database) (meters : gmap string PAC3200Meter)
  : gmap string PAC3200Meter :=
  match meters_config db with
  | None => meters
  | Some cfg =>
      map_fold
        (fun meter_id row meters => <[meter_id := meter_of_config meter_id row]> meters)
        meters cfg
  end.

(** Reading a column of a row: a meter id is a text, a timestamp and a row
    id are integers; NULL (and a value of another kind) gives [None]. *)
Definition row_text (r : gmap string value) (col : string) : option string :=
  match r !! col with
  | Some (VText s) => Some s
  | _ => None
  end.

Definition row_int (r : gmap string value) (col : string) : option Z :=
  match r !! col with
  | Some (VInt z) => Some z
  | _ => None
  end.

Definition meter_of (r : gmap string value) : option string := row_text r "meter_id".
Definition timestamp_of (r : gmap string value) : option Z := row_int r "timestamp".

(** The largest row id of a table (0 for an empty one).  Rows are never
    deleted one by one, so this is also the table's AUTOINCREMENT counter. *)
Definition last_rowid (t : table) : Z :=
  foldr Z.max 0 (omap (fun r => row_int r "id") (rows t)).

(** The condition of the first comprehension of [save_reading]:
    [v is not None and not (isinstance(v, float) and np.isnan(v))]. *)
Definition is_valid (v : value) : bool :=
  match v with
  | VNone => false
  | VFloat f => negb (np_isnan f)
  | _ => true
  end.

(** What the engine keeps of a float put into a REAL column: a NaN becomes
    NULL ([None]), and a zero loses its sign (a float with an integral
    value is held as an integer). *)
Definition sqlite_real (f : spec_float) : option value :=
  match f with
  | S754_nan => None
  | S754_zero _ => Some (VFloat (S754_zero false))
  | _ => Some (VFloat f)
  end.

(** REAL affinity: an integer becomes the nearest float, and so does a text
    that is a well-formed numeric literal; any other text stays a text. *)
Definition real_affinity (w : world) (v : value) : option value :=
  match v with
  | VNone => None
  | VInt z => sqlite_real (of_int z)
  | VFloat f => sqlite_real f
  | VText s =>
      if (sqlite3AtoF w s).1 then sqlite_real (sqlite3AtoF w s).2
      else Some (VText s)
  end.

(** The value a column of the reading table holds once an INSERT has bound
    [v] to it ([None] is NULL).  The measurement columns are declared REAL.
    [meter_id] is declared TEXT, which leaves the text bound to it as it
    is.  A column of any other name is in the table only if the program did
    not create it; it is taken to have no declared type, which leaves every
    value as it is. *)
Definition stored_value (w : world) (col : string) (v : value) : option value :=
  if bool_decide (col ∈ measurement_columns) then real_affinity w v
  else Some v.

(** The row an INSERT of [filtered_data] stores: the listed columns as the
    engine holds the values bound to them, and the columns [id] and
    [timestamp], where the table has them, from their declarations (the row
    id, DEFAULT CURRENT_TIMESTAMP). *)
Definition stored_row (w : world) (t : table) (filtered_data : gmap string value)
    (record_id now : Z) : gmap string value :=
  let bound := map_imap (stored_value w) filtered_data in
  let with_id :=
    if bool_decide ("id"%string ∈ columns t)
    then <["id"%string := VInt record_id]> bound else bound in
  if bool_decide ("timestamp"%string ∈ columns t)
  then <["timestamp"%string := VInt now]> with_id else with_id.

Definition set_readings (db : database) (t : table) : database :=
  {| meters_config := meters_config db;
     pac3200_readings := Some t;
     pac3200_readings_backup := pac3200_readings_backup db;
     idx_readings_meter_timestamp := idx_readings_meter_timestamp db |}.

(** [filtered_data] of [save_reading]. *)
Definition filtered_data (db : database) (meter_id : string)
    (data : gmap string value) : gmap string value :=
  let valid_data :=
    <["meter_id"%string := VText meter_id]>
      (filter (fun kv => is_valid kv.2 = true) data) in
  let existing_columns := table_info db in
  let db_columns :=
    filter (fun col => col ∉ ["id"; "timestamp"]%string) existing_columns in
  filter (fun kv => kv.1 ∈ db_columns) valid_data.

(** A value the SQLite binding accepts as a statement parameter: an int
    must fit 64 bits, otherwise the binding raises. *)
Definition bindable (v : value) : bool :=
  match v with
  | VInt z => is_int64 z
  | _ => true
  end.

(** [save_reading]: the value returned ([None] or the new row id) and the
    database; [now] is the engine's CURRENT_TIMESTAMP.  An exception (a
    value that cannot be bound, a missing table) is caught and gives
    [None]. *)
Definition save_reading (w : world) (db : database) (meter_id : string)
    (data : gmap string value) (now : Z) : option Z * database :=
  let filtered_data := filtered_data db meter_id data in
  if bool_decide (filtered_data = ∅) then (None, db)
  else
    match pac3200_readings db with
    | None => (None, db)
    | Some t =>
        if bool_decide (map_Forall (fun _ v => bindable v = true) filtered_data)
        then
          let record_id := last_rowid t + 1 in
          (Some record_id,
           set_readings db
             {| columns := columns t;
                rows := rows t ++ [stored_row w t filtered_data record_id now] |})
        else (None, db)
    end.

(** In the words of the specification: what is left of the parameter map
    after dropping null and NaN entries and intersecting the keys with the
    column set of the reading table. *)
Definition survivors (db : database) (data : gmap string value)
  : gmap string value :=
  filter (fun kv => kv.1 ∈ table_info db)
         (filter (fun kv => is_valid kv.2 = true) data).

(** The rows of the reading table; none when the table is missing. *)
Definition reading_rows (db : database) : list (gmap string value) :=
  match pac3200_readings db with
  | Some t => rows t
  | None => []
  end.

(** SQL equality: NULL equals nothing. *)
Definition sql_eq {A : Type} `{EqDecision A} (x y : option A) : bool :=
  match x, y with
  | Some a, Some b => bool_decide (a = b)
  | _, _ => false
  end.

(** [MAX] over the non-NULL values of a group. *)
Definition sql_max (l : list Z) : option Z :=
  foldr (fun t acc => Some (match acc with Some a => Z.max t a | None => t end))
        None l.

(** The subquery
    [SELECT meter_id, MAX(timestamp) FROM pac3200_readings GROUP BY meter_id];
    the rows without a meter id form one group. *)
Definition latest_subquery (rs : list (gmap string value))
  : list (option string * option Z) :=
  (fun g => (g, sql_max (omap timestamp_of
                           (filter (fun r => meter_of r = g) rs))))
    <$> remove_dups (meter_of <$> rs).

(** A row of [get_all_meters_latest]: [r.*, m.name, m.location]. *)
Record latest_row := {
  reading : gmap string value;
  meter_name : string;
  meter_location : option string;
}.

Definition name_le (x y : latest_row) : Prop :=
  String.leb (meter_name x) (meter_name y) = true.

#[global] Instance name_le_dec x y : Decision (name_le x y).
Proof. unfold name_le. apply _. Defined.

(** [get_all_meters_latest]: the two inner joins, then ORDER BY m.name.  A
    missing table raises, which the method turns into an empty frame. *)
Definition get_all_meters_latest (db : database) : list latest_row :=
  match pac3200_readings db, meters_config db with
  | Some t, Some cfg =>
      merge_sort name_le
        (r ← rows t;
         m ← map_to_list cfg;
         latest ← latest_subquery (rows t);
         if sql_eq (meter_of r) (Some m.1)
            && sql_eq (meter_of r) latest.1
            && sql_eq (timestamp_of r) latest.2
         then [ {| reading := r; meter_name := cfg_name m.2;
                   meter_location := cfg_location m.2 |} ]
         else [])
  | _, _ => []
  end.

(** A row of [get_aggregated_data]. *)
Record aggregate_row := {
  agg_timestamp : Z;
  Total_System_Power : value;
  Avg_Frequency : value;
  Avg_Power_Factor : value;
  Active_Meters : nat;
}.

(** The largest [datetime], 9999-12-31 23:59:59.999999, on a time line that
    starts at the smallest, 0001-01-01 00:00:00. *)
Definition datetime_max : Z := 315537897599999999.

(** [timedelta(hours=hours)]: an OverflowError ([None]) beyond 999999999
    days. *)
Definition timedelta_hours (hours : Z) : option Z :=
  if (-999999999 <=? hours / 24) && (hours / 24 <=? 999999999)
  then Some (hours * 3600000000)
  else None.

(** [t - delta] for a datetime and a timedelta: an OverflowError ([None])
    when the result is not a datetime. *)
Definition datetime_sub (t delta : Z) : option Z :=
  if (0 <=? t - delta) && (t - delta <=? datetime_max)
  then Some (t - delta)
  else None.

(** [timestamp BETWEEN start AND end]; never true of NULL. *)
Definition between (start_time end_time : Z) (r : gmap string value) : bool :=
  match timestamp_of r with
  | Some t => (start_time <=? t) && (t <=? end_time)
  | None => false
  end.

(** GROUP BY timestamp: the rows are scanned once and each is appended to the
    group of its exact timestamp. *)
Definition group_by_timestamp (rs : list (gmap string value))
  : gmap Z (list (gmap string value)) :=
  foldl (fun groups r =>
           match timestamp_of r with
           | Some t => <[t := default [] (groups !! t) ++ [r]]> groups
           | None => groups
           end)
        ∅ rs.

(** The non-NULL values of a column in a group, the operands of an
    aggregate. *)
Definition column_values (col : string) (rs : list (gmap string value))
  : list value :=
  omap (fun r => r !! col) rs.

(** COUNT(DISTINCT meter_id) *)
Definition count_distinct_meters (rs : list (gmap string value)) : nat :=
  length (remove_dups (omap meter_of rs)).

Definition newer (x y : Z * list (gmap string value)) : Prop := y.1 <= x.1.

#[global] Instance newer_dec x y : Decision (newer x y).
Proof. unfold newer. apply _. Defined.

(** [sqlite3_value_double]: the float an aggregate takes a value for; a
    text counts as its numeric prefix. *)
Definition sqlite3_value_double (w : world) (v : value) : spec_float :=
  match v with
  | VNone => S754_zero false
  | VInt z => of_int z
  | VFloat f => f
  | VText s => (sqlite3AtoF w s).2
  end.

(** The accumulator of SUM and AVG: the running float sum, the running
    integer sum, the number of operands, whether a non-integer was seen or
    the integer sum was given up, and whether the integer sum overflowed. *)
Record SumCtx := {
  rSum : spec_float;
  iSum : Z;
  cnt : Z;
  approx : bool;
  overflow : bool;
}.

Definition sum_init : SumCtx :=
  {| rSum := S754_zero false; iSum := 0; cnt := 0;
     approx := false; overflow := false |}.

(** One step of SUM and AVG, as SQLite's [sumStep] takes it: a plain
    running sum, one binary64 addition per operand (an engine that
    compensates the rounding error can differ in the last bits).  NULL is
    passed over.  An integer is added to the float sum and, as long as the
    sum is exact, to the integer sum, unless that leaves 64 bits.  Anything
    else is added to the float sum as a float. *)
Definition sumStep (w : world) (p : SumCtx) (v : value) : SumCtx :=
  match v with
  | VNone => p
  | VInt z =>
      let exact := negb (approx p || overflow p) in
      let fits := is_int64 (iSum p + z) in
      {| rSum := fadd (rSum p) (of_int z);
         iSum := if exact && fits then iSum p + z else iSum p;
         cnt := cnt p + 1;
         approx := approx p || (exact && negb fits);
         overflow := overflow p || (exact && negb fits) |}
  | _ =>
      {| rSum := fadd (rSum p) (sqlite3_value_double w v);
         iSum := iSum p;
         cnt := cnt p + 1;
         approx := true;
         overflow := overflow p |}
  end.

(** [sqlite3_result_double]: a NaN is returned as NULL. *)
Definition result_double (f : spec_float) : value :=
  if np_isnan f then VNone else VFloat f.

(** SUM over the values of a group, in the order of the scan: NULL for no
    operand, an integer for integers only, a float otherwise; "integer
    overflow" is an error ([None]). *)
Definition sql_sum (w : world) (l : list value) : option value :=
  let p := foldl (sumStep w) sum_init l in
  if cnt p =? 0 then Some VNone
  else if overflow p then None
  else if approx p then Some (result_double (rSum p))
  else Some (VInt (iSum p)).

(** AVG: the float sum divided by the number of operands. *)
Definition sql_avg (w : world) (l : list value) : value :=
  let p := foldl (sumStep w) sum_init l in
  if cnt p =? 0 then VNone
  else result_double (fdiv (rSum p) (of_int (cnt p))).

(** The row of a group; [None] when SUM raises. *)
Definition aggregate (w : world) (g : Z * list (gmap string value))
  : option aggregate_row :=
  match sql_sum w (column_values "Total_Active_Power" g.2) with
  | None => None
  | Some total =>
      Some {| agg_timestamp := g.1;
              Total_System_Power := total;
              Avg_Frequency := sql_avg w (column_values "Frequency" g.2);
              Avg_Power_Factor :=
                sql_avg w (column_values "Total_Power_Factor" g.2);
              Active_Meters := count_distinct_meters g.2 |}
  end.

(** The columns the query of [get_aggregated_data] names. *)
Definition aggregated_columns : list string :=
  ["timestamp"; "Total_Active_Power"; "Frequency"; "Total_Power_Factor";
   "meter_id"]%string.

(** [get_aggregated_data]; [now] is [datetime.now()].  An exception (the
    start of the window is not a datetime, the table or one of the columns
    is missing, a SUM overflows) is caught and gives an empty frame. *)
Definition get_aggregated_data (w : world) (db : database) (now hours : Z)
  : list aggregate_row :=
  let end_time := now in
  match timedelta_hours hours with
  | None => []
  | Some delta =>
      match datetime_sub end_time delta with
      | None => []
      | Some start_time =>
          match pac3200_readings db with
          | None => []
          | Some t =>
              if forallb (fun col => bool_decide (col ∈ columns t))
                         aggregated_columns
              then
                default []
                  (mapM (aggregate w)
                     (merge_sort newer
                        (map_to_list
                           (group_by_timestamp
                              (filter (fun r => between start_time end_time r = true)
                                      (rows t))))))
              else []
          end
      end
  end.

(** ** The aggregation window, in the words of the specification *)

(** The readings with timestamp in [now - hours, now]. *)
Definition in_window (db : database) (now hours : Z) : list (gmap string value) :=
  filter (fun r => between (now - hours * 3600000000) now r = true)
         (reading_rows db).

(** The start of the window is a datetime the program can compute. *)
Definition window_representable (now hours : Z) : Prop :=
  -999999999 <= hours / 24 <= 999999999
  ∧ 0 <= now - hours * 3600000000 <= datetime_max.

(** ** The latest-per-meter result, in the words of the specification *)

(** The maximum timestamp among the readings of a meter. *)
Definition max_timestamp (rs : list (gmap string value)) (id : string) : option Z :=
  sql_max (omap timestamp_of (filter (fun r => meter_of r = Some id) rs)).

(** A reading is a latest one when its timestamp is the maximum of its
    meter. *)
Definition is_latest (rs : list (gmap string value)) (r : gmap string value) : bool :=
  match meter_of r with
  | Some id => sql_eq (timestamp_of r) (max_timestamp rs id)
  | None => false
  end.

(** Every latest reading of a meter that has a configuration row, joined
    with the name and location of that row. *)
Definition latest_rows (db : database) : list latest_row :=
  match pac3200_readings db, meters_config db with
  | Some t, Some cfg =>
      r ← rows t;
      match meter_of r with
      | Some id =>
          match cfg !! id with
          | Some c =>
              if is_latest (rows t) r
              then [ {| reading := r; meter_name := cfg_name c;
                        meter_location := cfg_location c |} ]
              else []
          | None => []
          end
      | None => []
      end
  | _, _ => []
  end.

(** The rows of a result that belong to a meter. *)
Definition rows_of_meter (id : string) (result : list latest_row) : list latest_row :=
  filter (fun x => meter_of (reading x) = Some id) result.

(** ** Schema initialisation, in the words of the specification *)

(** The legacy schema: the reading table has the deprecated column. *)
Definition legacy (db : database) : bool :=
  bool_decide ("device_id"%string ∈ table_info db).

(** The legacy table holds rows, so it is to be kept as the backup. *)
Definition legacy_with_rows (db : database) : bool :=
  legacy db && (0 <? count_rows db).

(** The only case in which initialisation cannot proceed: the legacy table
    is to be kept but a table already has the backup name. *)
Definition backup_name_taken (db : database) : bool :=
  legacy_with_rows db && bool_decide (is_Some (pac3200_readings_backup db)).

(** The index on the new reading table. *)
Definition new_index : index :=
  {| index_table := Readings; index_key := meter_timestamp_key |}.

(** The index of that name after initialisation: one that sits on the backup
    table, or goes there with the renamed legacy table, stays as it is;
    otherwise the index is the new one. *)
Definition index_after_init (db : database) : index :=
  match idx_readings_meter_timestamp db with
  | Some i =>
      match index_table i with
      | Backup => i
      | Readings =>
          if legacy_with_rows db
          then {| index_table := Backup; index_key := index_key i |}
          else new_index
      end
  | None => new_index
  end.

(** The database a completed initialisation leaves. *)
Definition initialised (db : database) : database :=
  {| meters_config := Some (default ∅ (meters_config db));
     pac3200_readings := Some new_readings_table;
     pac3200_readings_backup :=
       if legacy_with_rows db then pac3200_readings db
       else pac3200_readings_backup db;
     idx_readings_meter_timestamp := Some (index_after_init db) |}.

(** ** Example states *)

Definition empty_database : database :=
  {| meters_config := None; pac3200_readings := None;
     pac3200_readings_backup := None; idx_readings_meter_timestamp := None |}.

(** The database a first start leaves: both tables, no row. *)
Definition fresh_database : database := (init_database empty_database).1.

(** A reading row as [save_reading] stores it. *)
Definition reading_row (id : Z) (meter : string) (ts : Z) (power : spec_float)
  : gmap string value :=
  {[ "id"%string := VInt id; "meter_id"%string := VText meter;
     "timestamp"%string := VInt ts;
     "Total_Active_Power"%string := VFloat power ]}.

Definition config_of (nm loc : string) : config_row :=
  {| cfg_name := nm; cfg_host := "192.168.0.101"; cfg_port := 502;
     cfg_unit_id := 1; cfg_location := Some loc; cfg_description := Some ""%string;
     cfg_created_at := 0; cfg_updated_at := 0 |}.

(** Meter [m1] is configured and has two readings stored within the same
    second; meter [m2] has a reading but its configuration row was
    removed. *)
Definition tied_and_orphaned : database :=
  {| meters_config := Some {[ "m1"%string := config_of "Main feeder" "Hall 2" ]};
     pac3200_readings :=
       Some {| columns := readings_columns;
               rows := [ reading_row 1 "m1" 1000000 (of_int 100);
                         reading_row 2 "m2" 1000000 (of_int 150);
                         reading_row 3 "m1" 7000000 (of_int 110);
                         reading_row 4 "m1" 7000000 (of_int 120) ] |};
     pac3200_readings_backup := None;
     idx_readings_meter_timestamp :=
       Some {| index_table := Readings; index_key := meter_timestamp_key |} |}.

(** A database of the legacy schema that holds a reading, beside a table
    that already has the backup name. *)
Definition legacy_beside_backup : database :=
  {| meters_config := None;
     pac3200_readings :=
       Some {| columns := ["id"; "device_id"; "timestamp"; "Frequency"]%string;
               rows := [ {[ "id"%string := VInt 1;
                            "device_id"%string := VText "PAC3200";
                            "timestamp"%string := VInt 1000000 ]} ] |};
     pac3200_readings_backup :=
       Some {| columns := ["id"; "device_id"; "timestamp"]%string; rows := [] |};
     idx_readings_meter_timestamp := None |}.

(** ** Magnitude of a float *)

(** [magnitude_le k x]: [x] is zero, or finite with mantissa digits plus
    exponent at most [k], so that its absolute value is below [2^k]. *)
Definition magnitude_le (k : Z) (x : spec_float) : bool :=
  match x with
  | S754_zero _ => true
  | S754_finite _ m e => Zdigits2 (Z.pos m) + e <=? k
  | _ => false
  end.

(** What the simulation needs of its environment: the clock and the normal
    sample are finite floats below [2^900], and the sine of a finite float
    is a finite float below 2. *)
Record plausible (w : world) : Prop := {
  clock_bounded : ∀ n, magnitude_le 900 (time_time w n) = true;
  sample_bounded : ∀ n, magnitude_le 900 (np_random_normal w n) = true;
  sine_bounded : ∀ x, is_finite x = true → magnitude_le 1 (np_sin w x) = true;
}.

(** ** Example environments *)

(** A reading of texts as numbers for the examples: a text of decimal
    digits is the integer it writes, any other text is no number. *)
Fixpoint decimal_digits (s : string) (acc : Z) : option Z :=
  match s with
  | EmptyString => Some acc
  | String c s' =>
      let d := Z.of_N (Ascii.N_of_ascii c) - 48 in
      if (0 <=? d) && (d <=? 9) then decimal_digits s' (10 * acc + d) else None
  end.

Definition decimal_text (s : string) : bool * spec_float :=
  match s with
  | EmptyString => (false, S754_zero false)
  | _ =>
      match decimal_digits s 0 with
      | Some z => (true, of_int z)
      | None => (false, S754_zero false)
      end
  end.

(** An environment without the Modbus library: the program runs on
    simulated data.  The clock stands still and the sine and the normal
    sample are fixed values in their ranges. *)
Definition demo_world : world :=
  {| MODBUS_AVAILABLE := false;
     hash := fun _ => 7;
     is_socket_open := fun _ => false;
     read_holding_registers := fun _ _ _ _ => Raises;
     time_time := fun _ => of_int 1700000000;
     np_sin := fun _ => literal 1 2;
     np_random_normal := fun _ => literal 1 100;
     datetime_now := fun _ => 1700000000000000;
     sqlite3AtoF := decimal_text |}.

(** A meter just constructed: no client, not connected. *)
Definition m1 : PAC3200Meter :=
  new_meter "m1" "Main feeder" "192.168.0.101" 502 1 "Hall 2" "".

(** ** Further operations of the meter *)

(** What [self.client.connect()] does: raise, return [False], or return
    [True] with the socket open. *)
Inductive connect_answer :=
  | ConnectRaises
  | ConnectRefused
  | ConnectAccepted.

(** [ModbusClient(host=self.host, port=self.port, timeout=self.timeout)],
    with no socket yet. *)
Definition new_client (m : PAC3200Meter) : ModbusClient :=
  {| client_host := host m; client_port := port m;
     client_timeout := timeout m; socket := false |}.

Definition set_connection (m : PAC3200Meter) (c : option ModbusClient)
    (flag : bool) : PAC3200Meter :=
  {| meter_id := meter_id m; name := name m; host := host m; port := port m;
     unit_id := unit_id m; timeout := timeout m; location := location m;
     description := description m; client := c; connected := flag;
     last_reading := last_reading m; last_reading_time := last_reading_time m |}.

(** [connect]: the boolean returned and the meter.  [answer] is what the
    new client's [connect()] does, [n] numbers the probe read of registers
    1 and 2.  A prior client is closed and replaced; every exception is
    caught. *)
Definition connect (w : world) (answer : connect_answer) (m : PAC3200Meter)
    (n : nat) : bool * PAC3200Meter :=
  if negb (MODBUS_AVAILABLE w) then (true, set_connection m (client m) true)
  else
    match answer with
    | ConnectRaises => (false, set_connection m (Some (new_client m)) false)
    | ConnectRefused => (false, set_connection m (Some (new_client m)) false)
    | ConnectAccepted =>
        let c := {| client_host := host m; client_port := port m;
                    client_timeout := timeout m; socket := true |} in
        match read_holding_registers w n 1 2 (unit_id m) with
        | Raises => (false, set_connection m (Some c) false)
        | IsError => (false, set_connection m (Some c) false)
        | Registers _ => (true, set_connection m (Some c) true)
        end
    end.

(** ** Further operations of the dashboard *)

(** SQL ordering of a column that may be NULL: NULL comes first. *)
Definition timestamp_le (a b : option Z) : Prop :=
  match a, b with
  | None, _ => True
  | Some _, None => False
  | Some x, Some y => x <= y
  end.

#[global] Instance timestamp_le_dec a b : Decision (timestamp_le a b).
Proof. destruct a, b; simpl; apply _. Defined.

(** ORDER BY timestamp DESC *)
Definition newer_reading (x y : gmap string value) : Prop :=
  timestamp_le (timestamp_of y) (timestamp_of x).

#[global] Instance newer_reading_dec x y : Decision (newer_reading x y).
Proof. unfold newer_reading. apply _. Defined.

(** [get_meter_readings]; [now] is [datetime.now()].  An exception (the
    start of the window is not a datetime, the table is missing) is caught
    and gives an empty frame. *)
Definition get_meter_readings (db : database) (meter_id : string)
    (now hours : Z) : list (gmap string value) :=
  let end_time := now in
  match timedelta_hours hours with
  | None => []
  | Some delta =>
      match datetime_sub end_time delta with
      | None => []
      | Some start_time =>
          match pac3200_readings db with
          | None => []
          | Some t =>
              merge_sort newer_reading
                (filter (fun r => sql_eq (meter_of r) (Some meter_id)
                                  && between start_time end_time r = true)
                        (rows t))
          end
      end
  end.

(** [MultiMeterDashboard.__init__]: an empty registry, [init_database]
    (its result is not looked at), [load_meters_config]. *)
Definition new_dashboard (db : database) : database * gmap string PAC3200Meter :=
  let db' := (init_database db).1 in
  (db', load_meters_config db' ∅).

(** [DROP TABLE IF EXISTS pac3200_readings_backup] *)
Definition drop_readings_backup (db : database) : database :=
  {| meters_config := meters_config db;
     pac3200_readings := pac3200_readings db;
     pac3200_readings_backup := None;
     idx_readings_meter_timestamp :=
       match idx_readings_meter_timestamp db with
       | Some i =>
           match index_table i with
           | Readings => Some i
           | Backup => None
           end
       | None => None
       end |}.

(** [DROP TABLE IF EXISTS meters_config] *)
Definition drop_meters_config (db : database) : database :=
  {| meters_config := None;
     pac3200_readings := pac3200_readings db;
     pac3200_readings_backup := pac3200_readings_backup db;
     idx_readings_meter_timestamp := idx_readings_meter_timestamp db |}.

(** The "Reset Database" handler of [main].  [button] is what
    [st.button] returns in this run and [checkbox] what the [st.checkbox]
    under it returns; only when both hold does the body run: every meter
    is disconnected, the three tables are dropped, the database is
    initialised again and the registry and the selection are emptied.  The
    result is the database, the registry, the selection and the meter
    objects as the handler leaves them. *)
Definition reset_database (w : world) (button checkbox : bool) (db : database)
    (meters : gmap string PAC3200Meter) (selected_meters : list string)
  : database * gmap string PAC3200Meter * list string * gmap string PAC3200Meter :=
  if button then
    if checkbox then
      let released := disconnect w <$> meters in
      let db1 := drop_readings db in
      let db2 := drop_readings_backup db1 in
      let db3 := drop_meters_config db2 in
      ((init_database db3).1, ∅, [], released)
    else (db, meters, selected_meters, meters)
  else (db, meters, selected_meters, meters).

(** Python truth of what [save_reading] returns: [None] and 0 are false. *)
Definition truthy (record_id : option Z) : bool :=
  match record_id with
  | Some z => negb (z =? 0)
  | None => false
  end.

(** The state of a collection run: the database, the registry (whose meter
    objects the batch reads update), the number of the next register read,
    and the two counters. *)
Record collection := {
  col_db : database;
  col_meters : gmap string PAC3200Meter;
  col_calls : nat;
  collected : nat;
  failed : nat;
}.

(** The body the two collection loops of [main] share, for one meter;
    [clock] gives the engine's CURRENT_TIMESTAMP at a call number. *)
Definition collect_meter (w : world) (clock : nat -> Z) (s : collection)
    (meter_id : string) (meter : PAC3200Meter) : collection :=
  if connected meter || negb (MODBUS_AVAILABLE w) then
    let '(data, meter', n') := read_all_parameters w meter (col_calls s) in
    let meters' := <[meter_id := meter']> (col_meters s) in
    if bool_decide (data = ∅) then
      {| col_db := col_db s; col_meters := meters'; col_calls := n';
         collected := collected s; failed := S (failed s) |}
    else
      let '(record_id, db') := save_reading w (col_db s) meter_id data (clock n') in
      if truthy record_id then
        {| col_db := db'; col_meters := meters'; col_calls := n';
           collected := S (collected s); failed := failed s |}
      else
        {| col_db := db'; col_meters := meters'; col_calls := n';
           collected := collected s; failed := S (failed s) |}
  else
    {| col_db := col_db s; col_meters := col_meters s; col_calls := col_calls s;
       collected := collected s; failed := S (failed s) |}.

(** The state a collection handler starts from: both counters at 0. *)
Definition start_collection (db : database) (meters : gmap string PAC3200Meter)
    (n : nat) : collection :=
  {| col_db := db; col_meters := meters; col_calls := n;
     collected := 0%nat; failed := 0%nat |}.

(** The "Collect All" handler: [for meter_id, meter in
    dashboard.meters.items()].  [items] are the items of the registry in
    the order the dictionary yields them. *)
Definition collect_all (w : world) (clock : nat -> Z) (db : database)
    (meters : gmap string PAC3200Meter) (items : list (string * PAC3200Meter))
    (n : nat) : collection :=
  foldl (fun s '(meter_id, meter) => collect_meter w clock s meter_id meter)
        (start_collection db meters n) items.

(** The "Collect Selected" handler: [for meter_id in selected_meters], ids
    that are not in the registry are passed over. *)
Definition collect_selected (w : world) (clock : nat -> Z) (db : database)
    (meters : gmap string PAC3200Meter) (selected_meters : list string)
    (n : nat) : collection :=
  foldl (fun s meter_id =>
           match col_meters s !! meter_id with
           | Some meter => collect_meter w clock s meter_id meter
           | None => s
           end)
        (start_collection db meters n) selected_meters.

(** A selected id whose meter a collection loop reads: it is in the
    registry and [meter.connected or not MODBUS_AVAILABLE] holds. *)
Definition readable (w : world) (meters : gmap string PAC3200Meter)
    (meter_id : string) : bool :=
  match meters !! meter_id with
  | Some meter => connected meter || negb (MODBUS_AVAILABLE w)
  | None => false
  end.

(** A selected id that is in the registry but whose meter is not read. *)
Definition unreadable (w : world) (meters : gmap string PAC3200Meter)
    (meter_id : string) : bool :=
  match meters !! meter_id with
  | Some meter => negb (connected meter || negb (MODBUS_AVAILABLE w))
  | None => false
  end.

(** One round of the "Generate Sample Data" handler: a batch read and its
    save, whose result is not looked at. *)
Definition sample_once (w : world) (clock : nat -> Z) (meter_id : string)
    (s : database * PAC3200Meter * nat) : database * PAC3200Meter * nat :=
  let '(db, meter, n) := s in
  let '(data, meter', n') := read_all_parameters w meter n in
  ((save_reading w db meter_id data (clock n')).2, meter', n').

(** The "Generate Sample Data" handler: ten rounds for every meter, whose
    object the batch reads update.  The result is the database, the
    registry and the number of the next register read. *)
Definition generate_sample_data (w : world) (clock : nat -> Z) (db : database)
    (meters : gmap string PAC3200Meter) (items : list (string * PAC3200Meter))
    (n : nat) : database * gmap string PAC3200Meter * nat :=
  foldl (fun '(db, meters, n) '(meter_id, meter) =>
           let '(db', meter', n') :=
             Nat.iter 10 (sample_once w clock meter_id) (db, meter, n) in
           (db', <[meter_id := meter']> meters, n'))
        (db, meters, n) items.

(** [lst.remove(x)]: the first occurrence goes (the caller has checked that
    there is one). *)
Fixpoint list_remove_first (x : string) (lst : list string) : list string :=
  match lst with
  | [] => []
  | y :: lst' => if String.eqb y x then lst' else y :: list_remove_first x lst'
  end.

(** The selection checkbox of a meter in [main]: a ticked meter is appended
    to the selection unless it is there, an unticked one is removed if it is
    there. *)
Definition update_selection (selected : bool) (meter_id : string)
    (selected_meters : list string) : list string :=
  if selected && negb (bool_decide (meter_id ∈ selected_meters))
  then selected_meters ++ [meter_id]
  else if negb selected && bool_decide (meter_id ∈ selected_meters)
  then list_remove_first meter_id selected_meters
  else selected_meters.

(** The "Remove" button of a meter in [main]: only when [remove_meter]
    returns [True] is the id taken out of the selection, if it is there.
    The result is the database, the registry and the selection. *)
Definition remove_button (w : world) (db : database)
    (meters : gmap string PAC3200Meter) (selected_meters : list string)
    (meter_id : string)
  : database * gmap string PAC3200Meter * list string :=
  let '(db', meters', _, removed) := remove_meter w db meters meter_id in
  if removed then
    (db', meters',
     if bool_decide (meter_id ∈ selected_meters)
     then list_remove_first meter_id selected_meters
     else selected_meters)
  else (db', meters', selected_meters).

(** ** Simulated values built from an absolute value *)

(** A finite float that is not negative. *)
Definition nonnegative (x : spec_float) : bool :=
  match x with
  | S754_zero _ => true
  | S754_finite s _ _ => negb s
  | _ => false
  end.

(** A register that [_generate_simulated_value] serves from
    [abs(variation)]: a THD register, or one that is in none of its
    lists. *)
Definition from_abs_variation (register_address : Z) : bool :=
  negb (py_in register_address
          ([1; 3; 5; 7; 9; 11; 57; 59] ++ [13; 15; 17; 61]
           ++ [25; 27; 29; 31; 33; 35; 19; 21; 23; 65; 67; 63]
           ++ [37; 39; 41; 69] ++ [55] ++ [801; 805])).

(** ** A live environment for the examples *)

(** The Modbus library is present and the socket stays open; the first
    register read (the probe of a connect) is answered with an error, every
    later one with the two words of 50.0. *)
Definition live_world : world :=
  {| MODBUS_AVAILABLE := true;
     hash := fun _ => 7;
     is_socket_open := fun _ => true;
     read_holding_registers :=
       fun n _ _ _ => match n with O => IsError | _ => Registers [16968; 0] end;
     time_time := fun _ => of_int 1700000000;
     np_sin := fun _ => literal 1 2;
     np_random_normal := fun _ => literal 1 100;
     datetime_now := fun _ => 1700000000000000;
     sqlite3AtoF := decimal_text |}.

(** * Properties *)

(** A decidable statement about concrete data, settled by evaluation. *)
Ltac by_computation := apply (bool_decide_unpack _); vm_compute; exact I.


(** ** The register map *)

Lemma registers_length : length registers = 80%nat.
Proof. reflexivity. Qed.

Lemma registers_NoDup : NoDup (dict_keys registers).
Proof. by_computation. Qed.

Lemma registers_no_Minimum_Current_2 :
  "Minimum_Current_2"%string ∉ dict_keys registers.
Proof. by_computation. Qed.

(** ** The batch read *)

Lemma read_loop_app w m items1 items2 n data :
  read_loop w m (items1 ++ items2) n data =
  read_loop w m items2 (read_loop w m items1 n data).2 (read_loop w m items1 n data).1.
Proof.
  unfold read_loop. rewrite foldl_app.
  by destruct (foldl _ (data, n) items1).
Qed.

Lemma read_loop_counter w m items n data :
  (read_loop w m items n data).2 = (n + length items)%nat.
Proof.
  revert n data. induction items as [|[k a] items IH]; intros n data; simpl.
  - by rewrite Nat.add_0_r.
  - unfold read_loop in *. simpl. rewrite IH. lia.
Qed.

Lemma read_loop_other w m items n data k :
  k ∉ items.*1 →
  (read_loop w m items n data).1 !! k = data !! k.
Proof.
  revert n data. induction items as [|[k' a] items IH]; intros n data Hk; simpl.
  - done.
  - apply not_elem_of_cons in Hk as [Hne Hk]. simpl in Hne.
    unfold read_loop in *. simpl. rewrite IH by done.
    by rewrite lookup_insert_ne.
Qed.

Lemma read_loop_entry w m items n data i k a :
  NoDup items.*1 →
  items !! i = Some (k, a) →
  (read_loop w m items n data).1 !! k =
  Some (of_optional (read_float32_register w m (n + i) a)).
Proof.
  revert n data i. induction items as [|[k' a'] items IH]; intros n data i Hnd Hi.
  - done.
  - simpl in Hnd. apply NoDup_cons in Hnd as [Hk' Hnd].
    destruct i as [|i]; simpl in Hi.
    + injection Hi as -> ->.
      change (read_loop w m ((k, a) :: items) n data)
        with (read_loop w m items (S n)
                (<[k := of_optional (read_float32_register w m n a)]> data)).
      rewrite read_loop_other by done.
      by rewrite lookup_insert_eq, Nat.add_0_r.
    + change (read_loop w m ((k', a') :: items) n data)
        with (read_loop w m items (S n)
                (<[k' := of_optional (read_float32_register w m n a')]> data)).
      rewrite (IH _ _ i) by done. do 3 f_equal. lia.
Qed.

Lemma read_loop_keys w m items n data k :
  is_Some ((read_loop w m items n data).1 !! k) ↔
  k ∈ items.*1 ∨ is_Some (data !! k).
Proof.
  revert n data. induction items as [|[k' a'] items IH]; intros n data.
  - simpl. split; [by right | intros [H|H]; [by apply elem_of_nil in H | done]].
  - change (read_loop w m ((k', a') :: items) n data)
      with (read_loop w m items (S n)
              (<[k' := of_optional (read_float32_register w m n a')]> data)).
    rewrite IH. simpl. rewrite elem_of_cons, lookup_insert_is_Some.
    destruct (decide (k' = k)) as [->|Hne]; [tauto|].
    split.
    + intros [?|[?|[_ ?]]]; [tauto|congruence|tauto].
    + intros [[?|?]|?]; [congruence|tauto|tauto].
Qed.

Lemma read_all_parameters_data w m n :
  (read_all_parameters w m n).1.1 = (read_loop w m registers n ∅).1.
Proof.
  unfold read_all_parameters. by destruct (read_loop w m registers n ∅).
Qed.

(** C5: whatever the environment answers, the batch read returns a mapping
    whose keys are exactly the parameter names of the register map, one
    entry each (80 of them); the entry of a parameter is the outcome of its
    own register read, so a failed read makes that one value [None],
    touches no other entry and does not end the batch. *)
Theorem C5_read_all_one_entry_per_parameter (w : world) (m : PAC3200Meter) (n : nat) :
  let data := (read_all_parameters w m n).1.1 in
  (∀ k, is_Some (data !! k) ↔ k ∈ dict_keys registers)
  ∧ size data = length registers
  ∧ (∀ i k a, registers !! i = Some (k, a) →
       data !! k = Some (of_optional (read_float32_register w m (n + i) a))).
Proof.
  cbv zeta. rewrite read_all_parameters_data.
  assert (Hkeys : ∀ k, is_Some ((read_loop w m registers n ∅).1 !! k)
                       ↔ k ∈ dict_keys registers).
  { intros k. rewrite read_loop_keys, lookup_empty.
    unfold dict_keys. split; [intros [H|[? H]]; [done|discriminate]|by left]. }
  split; [exact Hkeys|]. split.
  - rewrite <- (length_fmap fst registers).
    change (registers.*1) with (dict_keys registers).
    rewrite <- (size_list_to_set (C := gset string) (dict_keys registers))
      by apply registers_NoDup.
    rewrite <- size_dom. apply (f_equal size). apply set_eq. intros k.
    rewrite elem_of_dom, elem_of_list_to_set. apply Hkeys.
  - intros i k a Hi. apply read_loop_entry; [apply registers_NoDup | done].
Qed.
(** ** The tolerant write *)

Lemma filtered_data_lookup db id data k v :
  filtered_data db id data !! k = Some v ↔
  k ∈ table_info db ∧ k ≠ "id"%string ∧ k ≠ "timestamp"%string ∧
  ((k = "meter_id"%string ∧ v = VText id) ∨
   (k ≠ "meter_id"%string ∧ data !! k = Some v ∧ is_valid v = true)).
Proof.
  unfold filtered_data. rewrite map_lookup_filter_Some. simpl.
  rewrite list_elem_of_filter, !not_elem_of_cons.
  rewrite lookup_insert.
  destruct (decide ("meter_id"%string = k)) as [<-|Hne].
  - split.
    + intros [[= <-] [[? [? _]] ?]]. repeat split; try done. by left.
    + intros (? & ? & ? & [[_ ->]|[? _]]); [|done].
      repeat split; try done. apply not_elem_of_nil.
  - rewrite map_lookup_filter_Some. simpl. split.
    + intros [[? ?] [[? [? _]] ?]]. repeat split; try done. right. by split.
    + intros (? & ? & ? & [[-> _]|(_ & ? & ?)]); [done|].
      repeat split; try done. apply not_elem_of_nil.
Qed.

Lemma meter_id_not_measurement :
  bool_decide ("meter_id"%string ∈ measurement_columns) = false.
Proof. vm_compute. reflexivity. Qed.

Lemma stored_value_other w k v :
  k ∉ measurement_columns → stored_value w k v = Some v.
Proof. intros Hk. unfold stored_value. by rewrite bool_decide_eq_false_2. Qed.

Lemma sqlite_real_Some f v :
  sqlite_real f = Some v →
  ∃ f', v = VFloat f' ∧ np_isnan f' = false
        ∧ is_finite f' = is_finite f ∧ np_isinf f' = np_isinf f.
Proof.
  destruct f as [s| | |s m e]; simpl; intros [= <-]; eauto.
Qed.

Lemma real_affinity_Some w v0 v :
  real_affinity w v0 = Some v → v ≠ VNone ∧ v ≠ VFloat S754_nan.
Proof.
  destruct v0 as [|z|f|s]; simpl; [done| | |].
  - intros (f' & -> & Hn & _)%sqlite_real_Some. split; [done|].
    intros [= ->]. discriminate Hn.
  - intros (f' & -> & Hn & _)%sqlite_real_Some. split; [done|].
    intros [= ->]. discriminate Hn.
  - destruct (sqlite3AtoF w s).1.
    + intros (f' & -> & Hn & _)%sqlite_real_Some. split; [done|].
      intros [= ->]. discriminate Hn.
    + by intros [= <-].
Qed.

Lemma stored_value_Some w k v0 v :
  is_valid v0 = true → stored_value w k v0 = Some v →
  v ≠ VNone ∧ v ≠ VFloat S754_nan.
Proof.
  intros Hvalid. unfold stored_value. case_bool_decide.
  - apply real_affinity_Some.
  - intros [= <-]. destruct v0 as [| |[]|]; simpl in Hvalid; split; congruence.
Qed.

Lemma stored_value_finite w k v0 v :
  finite_number v0 = true → stored_value w k v0 = Some v →
  finite_number v = true.
Proof.
  destruct v0 as [| |f|]; try done. simpl. intros Hf.
  unfold stored_value. case_bool_decide; [|by intros [= <-]].
  simpl. intros (f' & -> & _ & Hfin & _)%sqlite_real_Some. simpl. congruence.
Qed.

Lemma stored_row_lookup w t f rid now k v :
  stored_row w t f rid now !! k = Some v →
  (k = "timestamp"%string ∧ v = VInt now ∧ k ∈ columns t)
  ∨ (k = "id"%string ∧ v = VInt rid ∧ k ∈ columns t)
  ∨ ∃ v0, f !! k = Some v0 ∧ stored_value w k v0 = Some v.
Proof.
  unfold stored_row.
  assert (Hbound : map_imap (stored_value w) f !! k = Some v →
                   ∃ v0, f !! k = Some v0 ∧ stored_value w k v0 = Some v).
  { rewrite map_lookup_imap. destruct (f !! k) as [v0|]; [|done]. eauto. }
  destruct (bool_decide_reflect ("timestamp"%string ∈ columns t)) as [Hts|Hts];
    destruct (bool_decide_reflect ("id"%string ∈ columns t)) as [Hid|Hid];
    rewrite ?lookup_insert; repeat case_decide; subst; intros Hl;
    try (injection Hl as <-); auto 6.
Qed.

Lemma stored_row_keeps w t f rid now k :
  k ≠ "id"%string → k ≠ "timestamp"%string →
  stored_row w t f rid now !! k = f !! k ≫= stored_value w k.
Proof.
  intros Hid Hts. unfold stored_row.
  repeat case_bool_decide; rewrite ?lookup_insert_ne by done;
    apply map_lookup_imap.
Qed.

Lemma stored_row_meter_id w t f rid now :
  stored_row w t f rid now !! "meter_id"%string = f !! "meter_id"%string.
Proof.
  rewrite stored_row_keeps by done.
  destruct (f !! "meter_id"%string) as [v|]; [|done]. simpl.
  unfold stored_value. by rewrite meter_id_not_measurement.
Qed.

Lemma save_reading_unfold w db id data now :
  save_reading w db id data now =
  match pac3200_readings db with
  | Some t =>
      if bool_decide (filtered_data db id data = ∅) then (None, db)
      else if bool_decide (map_Forall (fun _ v => bindable v = true)
                             (filtered_data db id data))
      then (Some (last_rowid t + 1),
            set_readings db
              {| columns := columns t;
                 rows := rows t ++
                   [stored_row w t (filtered_data db id data) (last_rowid t + 1) now] |})
      else (None, db)
  | None => (None, db)
  end.
Proof.
  unfold save_reading. destruct (pac3200_readings db); [done|].
  by case_bool_decide.
Qed.

Lemma filtered_data_bindable db id data :
  map_Forall (fun _ v => bindable v = true) data →
  map_Forall (fun _ v => bindable v = true) (filtered_data db id data).
Proof.
  intros Hdata k v Hk.
  apply filtered_data_lookup in Hk as (_ & _ & _ & [[_ ->]|(_ & Hd & _)]);
    [done|]. by apply (Hdata k).
Qed.

(** C1 (the code departs from the claim): whenever the reading table has
    its [meter_id] column, [save_reading] inserts a row and returns its id
    for every parameter map (of values SQLite can bind), also when nothing
    of the map survives the filters: the meter id is put into the map
    before the emptiness test, so the test never fires.  The row then holds
    the meter id and nothing of the map. *)
Theorem C1_save_inserts_for_every_map (w : world) (db : database) (id : string)
    (data : gmap string value) (now : Z) (t : table) :
  pac3200_readings db = Some t →
  "meter_id"%string ∈ columns t →
  map_Forall (fun _ v => bindable v = true) data →
  ∃ r,
    save_reading w db id data now =
      (Some (last_rowid t + 1),
       set_readings db {| columns := columns t; rows := rows t ++ [r] |})
    ∧ r !! "meter_id"%string = Some (VText id)
    ∧ (survivors db data = ∅ →
       ∀ col, col ∉ ["id"; "meter_id"; "timestamp"]%string → r !! col = None).
Proof.
  intros Ht Hcol Hbind.
  assert (Hm : filtered_data db id data !! "meter_id"%string = Some (VText id)).
  { apply filtered_data_lookup. unfold table_info. rewrite Ht.
    repeat split; try done. by left. }
  eexists. rewrite save_reading_unfold, Ht. split; [|split].
  - rewrite bool_decide_eq_false_2.
    + rewrite bool_decide_eq_true_2; [reflexivity|].
      by apply filtered_data_bindable.
    + intros He. rewrite He in Hm. by rewrite lookup_empty in Hm.
  - by rewrite stored_row_meter_id.
  - intros Hnone col Hn. rewrite !not_elem_of_cons in Hn.
    destruct Hn as (? & ? & ? & _). rewrite stored_row_keeps by done.
    destruct (filtered_data db id data !! col) as [v|] eqn:Hv; [|done].
    apply filtered_data_lookup in Hv as (Hc & _ & _ & [[? _]|(_ & Hd & Hvalid)]);
      [done|].
    assert (Hs : survivors db data !! col = Some v).
    { unfold survivors. apply map_lookup_filter_Some. split; [|done].
      by apply map_lookup_filter_Some. }
    rewrite Hnone, lookup_empty in Hs. discriminate Hs.
Qed.

(** The failing input of C1: an empty parameter map on the database a first
    start leaves; row 1 is inserted, holding the meter id. *)
Lemma C1_save_inserts_witness :
  pac3200_readings fresh_database = Some new_readings_table
  ∧ "meter_id"%string ∈ columns new_readings_table
  ∧ map_Forall (fun _ v => bindable v = true) (∅ : gmap string value)
  ∧ ∃ r,
      save_reading demo_world fresh_database "m1" ∅ 0 =
        (Some 1, set_readings fresh_database
                   {| columns := readings_columns; rows := [r] |})
      ∧ r !! "meter_id"%string = Some (VText "m1")
      ∧ (survivors fresh_database ∅ = ∅ →
         ∀ col, col ∉ ["id"; "meter_id"; "timestamp"]%string → r !! col = None).
Proof.
  split; [reflexivity|].
  split; [by_computation|].
  split; [apply map_Forall_empty|].
  apply (C1_save_inserts_for_every_map demo_world fresh_database "m1" ∅ 0
           new_readings_table).
  - reflexivity.
  - by_computation.
  - apply map_Forall_empty.
Defined.

Lemma is_valid_spec v :
  is_valid v = true → v ≠ VNone ∧ v ≠ VFloat S754_nan.
Proof. destruct v as [| |[]|]; simpl; intros; split; congruence. Qed.

(** C3, as the claim states it, fails: an infinite value passes the filter
    of [save_reading] and is stored. *)
Lemma C3_infinite_value_is_stored :
  ∃ r,
    (save_reading demo_world fresh_database "m1"
       {[ "Frequency"%string := VFloat (S754_infinity false) ]} 0).2
    = set_readings fresh_database {| columns := readings_columns; rows := [r] |}
    ∧ r !! "Frequency"%string = Some (VFloat (S754_infinity false))
    ∧ finite_number (VFloat (S754_infinity false)) = false.
Proof.
  eexists. split; [|split].
  - assert (Hm : filtered_data fresh_database "m1"
              {[ "Frequency"%string := VFloat (S754_infinity false) ]}
              !! "meter_id"%string = Some (VText "m1")).
    { apply filtered_data_lookup.
      split; [by_computation|].
      split; [discriminate|]. split; [discriminate|]. left. split; reflexivity. }
    rewrite save_reading_unfold. simpl.
    rewrite bool_decide_eq_false_2.
    + rewrite bool_decide_eq_true_2; [reflexivity|].
      apply filtered_data_bindable. by apply map_Forall_singleton.
    + intros He. rewrite He, lookup_empty in Hm. discriminate Hm.
  - rewrite stored_row_keeps by discriminate.
    assert (Hf : filtered_data fresh_database "m1"
              {[ "Frequency"%string := VFloat (S754_infinity false) ]}
              !! "Frequency"%string = Some (VFloat (S754_infinity false))).
    { apply filtered_data_lookup.
      split; [by_computation|].
      split; [discriminate|]. split; [discriminate|]. right.
      split; [discriminate|]. split; [apply lookup_singleton_eq|reflexivity]. }
    rewrite Hf. simpl. unfold stored_value.
    rewrite bool_decide_eq_true_2 by by_computation. reflexivity.
  - reflexivity.
Qed.

(** C3, amended: [save_reading] either stores nothing and leaves the
    database as it is, or appends exactly one row to the reading table.
    Every field of that row sits in a column of the table and is neither
    null nor NaN; apart from the row id, the meter id and the timestamp it
    comes from an entry of the parameter map that is neither null nor NaN,
    and is that entry's value as its column holds it: unchanged, except
    that a measurement column, being REAL, holds 0.0 for a zero of either
    sign, the nearest float for an integer, and the number a numeric text
    writes.  Infinite values are not filtered here (the register read has
    dropped them already): when every entry of the parameter map is absent
    or a finite float, as the batch read delivers them, every measurement
    stored is a finite number. *)
Theorem C3_save_stores_valid_known_columns (w : world) (db : database)
    (id : string) (data : gmap string value) (now : Z) :
  match save_reading w db id data now with
  | (None, db') => db' = db
  | (Some rid, db') =>
      ∃ t r,
        pac3200_readings db = Some t
        ∧ db' = set_readings db {| columns := columns t; rows := rows t ++ [r] |}
        ∧ (∀ col v, r !! col = Some v →
             col ∈ columns t ∧ v ≠ VNone ∧ v ≠ VFloat S754_nan)
        ∧ (∀ col v, r !! col = Some v →
             col ∉ ["id"; "meter_id"; "timestamp"]%string →
             ∃ v0, data !! col = Some v0 ∧ is_valid v0 = true
                   ∧ Some v = (if bool_decide (col ∈ measurement_columns)
                               then real_affinity w v0 else Some v0))
        ∧ ((∀ col v, data !! col = Some v → v = VNone ∨ finite_number v = true) →
           ∀ col v, r !! col = Some v →
             col ∉ ["id"; "meter_id"; "timestamp"]%string →
             finite_number v = true)
  end.
Proof.
  rewrite save_reading_unfold.
  destruct (pac3200_readings db) as [t|] eqn:Ht; [|done].
  case_bool_decide; [done|]. case_bool_decide; [|done].
  exists t, (stored_row w t (filtered_data db id data) (last_rowid t + 1) now).
  assert (Hmeas : ∀ col v,
    stored_row w t (filtered_data db id data) (last_rowid t + 1) now !! col = Some v →
    col ∉ ["id"; "meter_id"; "timestamp"]%string →
    ∃ v0, data !! col = Some v0 ∧ is_valid v0 = true
          ∧ stored_value w col v0 = Some v).
  { intros col v Hl Hcol. rewrite !not_elem_of_cons in Hcol.
    destruct Hcol as (? & ? & ? & _).
    rewrite stored_row_keeps in Hl by done.
    destruct (filtered_data db id data !! col) as [v0|] eqn:Hf; [|done].
    simpl in Hl. exists v0.
    apply filtered_data_lookup in Hf as (_ & _ & _ & [[? _]|(_ & ? & ?)]); done. }
  split; [done|]. split; [done|]. split; [|split].
  - intros col v Hl.
    apply stored_row_lookup in Hl as [(-> & -> & ?)|[(-> & -> & ?)|(v0 & Hl & Hv)]];
      [done..|].
    apply filtered_data_lookup in Hl as (Hc & _ & _ & Hl).
    unfold table_info in Hc. rewrite Ht in Hc. split; [done|].
    apply (stored_value_Some w col v0); [|done].
    by destruct Hl as [[_ ->]|(_ & _ & ?)].
  - intros col v Hl Hcol. destruct (Hmeas col v Hl Hcol) as (v0 & ? & ? & Hv).
    exists v0. split; [done|]. split; [done|]. by rewrite <- Hv.
  - intros Hfin col v Hl Hcol.
    destruct (Hmeas col v Hl Hcol) as (v0 & Hd & Hvalid & Hv).
    destruct (Hfin col v0 Hd) as [->|Hf]; [discriminate Hvalid|].
    by apply (stored_value_finite w col v0).
Qed.

(** ** The duplicated key of the register map *)

Lemma read_all_no_Minimum_Current_2 w m n :
  let data := (read_all_parameters w m n).1.1 in
  data !! "Minimum_Current_2"%string = None.
Proof.
  cbv zeta. rewrite read_all_parameters_data, read_loop_other; [done|].
  apply registers_no_Minimum_Current_2.
Qed.

(** C10, as the claim states it, fails on the count: the display has 81
    items and the dictionary it evaluates to has 80 parameters, not 79. *)
Lemma C10_register_map_has_80_parameters :
  length registers_display = 81%nat
  ∧ length registers = 80%nat
  ∧ length registers ≠ 79%nat.
Proof. repeat split; [reflexivity..|discriminate]. Qed.

(** C10, amended: the display binds [Maximum_Current_2] twice, to register
    89 and then to register 159, and never binds [Minimum_Current_2]; the
    dictionary it evaluates to has 80 parameters, with [Maximum_Current_2]
    on register 159 and no [Minimum_Current_2].  So no batch read produces
    a [Minimum_Current_2] entry, and although the reading table has that
    column, no row stored from a batch read has a value in it. *)
Theorem C10_Minimum_Current_2_never_read_nor_stored :
  registers_display !! 28%nat = Some ("Maximum_Current_2"%string, 89)
  ∧ registers_display !! 31%nat = Some ("Maximum_Current_2"%string, 159)
  ∧ ("Minimum_Current_2"%string ∉ dict_keys registers_display)
  ∧ length registers = 80%nat
  ∧ dict_get registers "Maximum_Current_2" = Some 159
  ∧ dict_get registers "Minimum_Current_2" = None
  ∧ (∀ w m n,
       let data := (read_all_parameters w m n).1.1 in
       data !! "Minimum_Current_2"%string = None)
  ∧ "Minimum_Current_2"%string ∈ readings_columns
  ∧ (∀ w m n db id now,
       match save_reading w db id (read_all_parameters w m n).1.1 now with
       | (None, db') => db' = db
       | (Some _, db') =>
           ∃ t r,
             pac3200_readings db = Some t
             ∧ db' = set_readings db
                       {| columns := columns t; rows := rows t ++ [r] |}
             ∧ r !! "Minimum_Current_2"%string = None
       end).
Proof.
  split; [reflexivity|]. split; [reflexivity|].
  split; [by_computation|].
  split; [reflexivity|]. split; [reflexivity|]. split; [reflexivity|].
  split; [apply read_all_no_Minimum_Current_2|].
  split; [by_computation|].
  intros w m n db id now. rewrite save_reading_unfold.
  destruct (pac3200_readings db) as [t|] eqn:Ht; [|done].
  case_bool_decide; [done|]. case_bool_decide; [|done].
  eexists t, _. split; [done|]. split; [done|].
  rewrite stored_row_keeps by discriminate.
  destruct (filtered_data _ _ _ !! _) as [v|] eqn:Hr; [|done].
  apply filtered_data_lookup in Hr as (_ & _ & _ & [[Hk _]|(_ & Hd & _)]).
  - discriminate Hk.
  - pose proof (read_all_no_Minimum_Current_2 w m n) as Hn. cbv zeta in Hn.
    rewrite Hn in Hd. discriminate Hd.
Qed.

(** ** The meter registry *)

Lemma load_meters_config_lookup db meters id :
  load_meters_config db meters !! id =
  match meters_config db with
  | Some cfg =>
      match cfg !! id with
      | Some row => Some (meter_of_config id row)
      | None => meters !! id
      end
  | None => meters !! id
  end.
Proof.
  unfold load_meters_config. destruct (meters_config db) as [cfg|]; [|done].
  revert id. apply (map_fold_weak_ind (fun r (c : gmap string config_row) =>
    ∀ id, r !! id = match c !! id with
                    | Some row => Some (meter_of_config id row)
                    | None => meters !! id
                    end)).
  - intros id. by rewrite lookup_empty.
  - intros i x c r Hi IH id. rewrite !lookup_insert.
    case_decide; [by subst|apply IH].
Qed.

(** C7: on a database whose configuration table exists, adding a meter
    (with port and unit id that fit SQLite's integers) and then loading
    the configuration, into whatever registry, yields for that id a meter
    object with the host, port, unit id and location given to [add_meter]
    (and the same id, name and description). *)
Theorem C7_add_then_load_round_trip (db : database)
    (meters meters0 : gmap string PAC3200Meter)
    (id nm h : string) (p u : Z) (loc descr : string) (now : Z) :
  is_Some (meters_config db) →
  is_int64 p = true →
  is_int64 u = true →
  let result := add_meter db meters id nm h p u loc descr now in
  result.2 = true
  ∧ ∃ m, load_meters_config result.1.1 meters0 !! id = Some m
         ∧ host m = h ∧ port m = p ∧ unit_id m = u ∧ location m = loc
         ∧ meter_id m = id ∧ name m = nm ∧ description m = descr.
Proof.
  intros [cfg Hcfg] Hp Hu. cbv zeta. unfold add_meter.
  rewrite Hcfg, Hp, Hu. simpl. split; [done|].
  eexists. rewrite load_meters_config_lookup. simpl.
  rewrite lookup_insert_eq. by repeat split.
Qed.

(** C7 at a concrete meter on the database a first start leaves. *)
Lemma C7_round_trip_witness :
  let result :=
    add_meter fresh_database ∅ "m1" "Main feeder" "192.168.0.101" 502 1
      "Hall 2" "" 0 in
  result.2 = true
  ∧ ∃ m, load_meters_config result.1.1 ∅ !! "m1"%string = Some m
         ∧ host m = "192.168.0.101"%string ∧ port m = 502 ∧ unit_id m = 1
         ∧ location m = "Hall 2"%string
         ∧ meter_id m = "m1"%string ∧ name m = "Main feeder"%string
         ∧ description m = ""%string.
Proof.
  apply (C7_add_then_load_round_trip fresh_database ∅ ∅ "m1" "Main feeder"
           "192.168.0.101" 502 1 "Hall 2" "" 0).
  - eexists. reflexivity.
  - reflexivity.
  - reflexivity.
Defined.

Lemma read_after_disconnect w m n a :
  MODBUS_AVAILABLE w = true →
  read_float32_register w (disconnect w m) n a = None.
Proof.
  intros Hw. unfold read_float32_register, disconnect. rewrite Hw. simpl.
  by destruct (client m).
Qed.

(** C8: [remove_meter] takes the meter out of the registry, leaving the
    object disconnected (its flag cleared and, under the live protocol,
    its socket closed, so that a read on it gives nothing); it deletes
    the configuration row of that id and no other; and the reading table,
    its backup and the index are exactly what they were, so every reading
    of that id and of every other id remains. *)
Theorem C8_remove_keeps_readings (w : world) (db : database)
    (meters : gmap string PAC3200Meter) (id : string) :
  let db' := (remove_meter w db meters id).1.1.1 in
  let meters' := (remove_meter w db meters id).1.1.2 in
  let released := (remove_meter w db meters id).1.2 in
  pac3200_readings db' = pac3200_readings db
  ∧ pac3200_readings_backup db' = pac3200_readings_backup db
  ∧ idx_readings_meter_timestamp db' = idx_readings_meter_timestamp db
  ∧ meters_config db' = delete id <$> meters_config db
  ∧ (∀ cfg', meters_config db' = Some cfg' → cfg' !! id = None)
  ∧ meters' = delete id meters
  ∧ released = disconnect w <$> meters !! id
  ∧ (∀ m, released = Some m →
       connected m = false
       ∧ (MODBUS_AVAILABLE w = true →
          ∀ n a, read_float32_register w m n a = None)).
Proof.
  cbv zeta.
  assert (Hrel : ∀ m, disconnect w <$> meters !! id = Some m →
            connected m = false
            ∧ (MODBUS_AVAILABLE w = true →
               ∀ n a, read_float32_register w m n a = None)).
  { intros m Hm. destruct (meters !! id) as [m0|]; [|discriminate Hm].
    injection Hm as <-. split; [done|].
    intros Hw n a. by apply read_after_disconnect. }
  unfold remove_meter.
  destruct (meters_config db) as [cfg|] eqn:Hcfg; simpl.
  - do 4 (split; [done|]). split; [|done].
    intros cfg' [= <-]. apply lookup_delete_eq.
  - rewrite Hcfg. do 4 (split; [done|]). split; [|done].
    intros cfg' [=].
Qed.

(** ** Latest reading per meter *)

Lemma bind_all_nil {A B : Type} (l : list A) (g : A → list B) :
  (∀ a, a ∈ l → g a = []) → l ≫= g = [].
Proof.
  induction l as [|a l IH]; intros Hg; [done|].
  rewrite bind_cons, Hg, IH; [done| |apply list_elem_of_here].
  intros b Hb. apply Hg. by apply list_elem_of_further.
Qed.

Lemma bind_unique {A B : Type} (l : list A) (g : A → list B) (a0 : A) :
  NoDup l → a0 ∈ l → (∀ a, a ∈ l → a ≠ a0 → g a = []) → l ≫= g = g a0.
Proof.
  induction l as [|a l IH]; intros Hnd Hin Hg.
  - by apply elem_of_nil in Hin.
  - apply NoDup_cons in Hnd as [Ha Hnd]. rewrite bind_cons.
    apply elem_of_cons in Hin as [->|Hin].
    + rewrite bind_all_nil; [by rewrite app_nil_r|].
      intros b Hb. apply Hg; [by apply list_elem_of_further|].
      intros ->. done.
    + rewrite Hg, IH; [done..| |apply list_elem_of_here|].
      * intros b Hb. apply Hg. by apply list_elem_of_further.
      * intros ->. done.
Qed.

Lemma bind_ext_in {A B : Type} (l : list A) (f g : A → list B) :
  (∀ a, a ∈ l → f a = g a) → l ≫= f = l ≫= g.
Proof.
  induction l as [|a l IH]; intros H; [done|].
  rewrite !bind_cons, H, IH; [done| |apply list_elem_of_here].
  intros b Hb. apply H. by apply list_elem_of_further.
Qed.

Lemma sql_eq_true {A : Type} `{EqDecision A} (x y : option A) :
  sql_eq x y = true ↔ ∃ a, x = Some a ∧ y = Some a.
Proof.
  destruct x as [a|], y as [b|]; simpl; try (split; [done|by intros (? & ? & ?)]).
  rewrite bool_decide_eq_true. split; [intros ->; eauto|].
  by intros (c & [= ->] & [= ->]).
Qed.

Lemma latest_subquery_NoDup rs : NoDup (latest_subquery rs).
Proof.
  unfold latest_subquery. apply NoDup_fmap_2_strong; [|apply NoDup_remove_dups].
  by intros g1 g2 _ _ [= ->].
Qed.

Lemma latest_subquery_elem rs g mx :
  (g, mx) ∈ latest_subquery rs ↔
  g ∈ meter_of <$> rs
  ∧ mx = sql_max (omap timestamp_of (filter (fun r => meter_of r = g) rs)).
Proof.
  unfold latest_subquery. rewrite list_elem_of_fmap. split.
  - intros (g' & Heq & Hg). injection Heq as Hg1 Hmx. subst g' mx.
    rewrite elem_of_remove_dups in Hg. split; [exact Hg|reflexivity].
  - intros [Hg ->]. exists g. by rewrite elem_of_remove_dups.
Qed.

(** The join of one reading row with the configuration table and the
    subquery. *)
Lemma join_one_row rs (cfg : gmap string config_row) r :
  r ∈ rs →
  (m ← map_to_list cfg;
   latest ← latest_subquery rs;
   if sql_eq (meter_of r) (Some m.1)
      && sql_eq (meter_of r) latest.1
      && sql_eq (timestamp_of r) latest.2
   then [ {| reading := r; meter_name := cfg_name m.2;
             meter_location := cfg_location m.2 |} ]
   else [])
  = match meter_of r with
    | Some id =>
        match cfg !! id with
        | Some c =>
            if is_latest rs r
            then [ {| reading := r; meter_name := cfg_name c;
                      meter_location := cfg_location c |} ]
            else []
        | None => []
        end
    | None => []
    end.
Proof.
  intros Hr. unfold is_latest. destruct (meter_of r) as [id|] eqn:Hid.
  - destruct (cfg !! id) as [c|] eqn:Hc.
    + rewrite (bind_unique _ _ (id, c)).
      * simpl. rewrite bool_decide_eq_true_2 by done. simpl.
        rewrite (bind_unique _ _ (Some id, max_timestamp rs id)).
        -- simpl. by rewrite bool_decide_eq_true_2.
        -- apply latest_subquery_NoDup.
        -- apply latest_subquery_elem. split; [|done].
           apply list_elem_of_fmap. eauto.
        -- intros [g mx] Hg Hne. simpl.
           destruct g as [g|]; simpl; [|done].
           case_bool_decide as Hg'; [|done]. subst g.
           apply latest_subquery_elem in Hg as [_ ->]. done.
      * apply NoDup_map_to_list.
      * by apply elem_of_map_to_list.
      * intros [k c'] Hk Hne. apply elem_of_map_to_list in Hk. simpl.
        case_bool_decide as Hk'; simpl; [|by apply bind_all_nil].
        subst k. congruence.
    + apply bind_all_nil. intros [k c'] Hk. apply elem_of_map_to_list in Hk.
      simpl. case_bool_decide as Hk'; simpl; [|by apply bind_all_nil].
      subst k. congruence.
  - apply bind_all_nil. intros m _. simpl. by apply bind_all_nil.
Qed.

(** The query returns, in some order, the rows the specification
    describes. *)
Lemma get_all_meters_latest_latest_rows db :
  get_all_meters_latest db ≡ₚ latest_rows db.
Proof.
  unfold get_all_meters_latest, latest_rows.
  destruct (pac3200_readings db) as [t|]; [|done].
  destruct (meters_config db) as [cfg|]; [|done].
  rewrite merge_sort_Permutation.
  erewrite bind_ext_in; [reflexivity|].
  intros r Hr. by apply join_one_row.
Qed.

Lemma sql_max_Some l mx :
  sql_max l = Some mx ↔ mx ∈ l ∧ ∀ t, t ∈ l → t <= mx.
Proof.
  revert mx. induction l as [|a l IH]; intros mx; simpl.
  - split; [done|]. intros [H _]. by apply elem_of_nil in H.
  - destruct (sql_max l) as [b|] eqn:Hl.
    + destruct (IH b) as [[Hb Hle] _]; [done|]. split.
      * intros [= <-]. split.
        -- destruct (Z.max_spec a b) as [[_ ->]|[_ ->]];
             [by apply list_elem_of_further|apply list_elem_of_here].
        -- intros t [->|Ht]%elem_of_cons; [lia|]. specialize (Hle t Ht). lia.
      * intros [Hmx Hall]. f_equal.
        assert (a <= mx) by (apply Hall, list_elem_of_here).
        assert (b <= mx) by (by apply Hall, list_elem_of_further).
        apply elem_of_cons in Hmx as [->|Hmx]; [lia|].
        specialize (Hle mx Hmx). lia.
    + assert (l = []) as ->.
      { destruct l as [|c l]; [done|]. simpl in Hl. discriminate Hl. }
      split.
      * intros [= <-]. split; [apply list_elem_of_here|].
        intros t [->|Ht]%elem_of_cons; [lia|by apply elem_of_nil in Ht].
      * intros [[->|Ht]%elem_of_cons _]; [done|by apply elem_of_nil in Ht].
Qed.

Lemma max_timestamp_Some rs id ts :
  max_timestamp rs id = Some ts ↔
  (∃ r, r ∈ rs ∧ meter_of r = Some id ∧ timestamp_of r = Some ts)
  ∧ (∀ r ts', r ∈ rs → meter_of r = Some id → timestamp_of r = Some ts' →
       ts' <= ts).
Proof.
  unfold max_timestamp. rewrite sql_max_Some. split.
  - intros [Hin Hall]. split.
    + apply list_elem_of_omap in Hin as (r & Hr & Hts).
      apply list_elem_of_filter in Hr as [Hid Hr]. eauto.
    + intros r ts' Hr Hid Hts. apply Hall. apply list_elem_of_omap.
      exists r. split; [|done]. by apply list_elem_of_filter.
  - intros [(r & Hr & Hid & Hts) Hall]. split.
    + apply list_elem_of_omap. exists r. split; [|done].
      by apply list_elem_of_filter.
    + intros t Ht. apply list_elem_of_omap in Ht as (r' & Hr' & Hts').
      apply list_elem_of_filter in Hr' as [Hid' Hr']. by eapply Hall.
Qed.

Lemma is_latest_true rs r :
  is_latest rs r = true ↔
  ∃ id ts, meter_of r = Some id ∧ timestamp_of r = Some ts
           ∧ max_timestamp rs id = Some ts.
Proof.
  unfold is_latest. destruct (meter_of r) as [id|].
  - rewrite sql_eq_true. split.
    + intros (ts & ? & ?). by exists id, ts.
    + intros (id' & ts & [= <-] & ? & ?). by exists ts.
  - split; [done|]. by intros (? & ? & ? & _).
Qed.

Lemma elem_of_latest_rows db x :
  x ∈ latest_rows db ↔
  ∃ t cfg id c,
    pac3200_readings db = Some t ∧ meters_config db = Some cfg
    ∧ reading x ∈ rows t ∧ meter_of (reading x) = Some id
    ∧ cfg !! id = Some c
    ∧ meter_name x = cfg_name c ∧ meter_location x = cfg_location c
    ∧ is_latest (rows t) (reading x) = true.
Proof.
  unfold latest_rows.
  destruct (pac3200_readings db) as [t|];
    [|split; [by intros ?%elem_of_nil|by intros (? & ? & ? & ? & ? & _)]].
  destruct (meters_config db) as [cfg|];
    [|split; [by intros ?%elem_of_nil|by intros (? & ? & ? & ? & _ & ? & _)]].
  rewrite list_elem_of_bind. split.
  - intros (r & Hx & Hr).
    destruct (meter_of r) as [id|] eqn:Hid; [|by apply elem_of_nil in Hx].
    destruct (cfg !! id) as [c|] eqn:Hc; [|by apply elem_of_nil in Hx].
    destruct (is_latest (rows t) r) eqn:Hl; [|by apply elem_of_nil in Hx].
    apply list_elem_of_singleton in Hx as ->. simpl.
    by exists t, cfg, id, c.
  - intros (t' & cfg' & id & c & [= <-] & [= <-] & Hr & Hid & Hc & Hn & Hloc & Hl).
    exists (reading x). split; [|done]. rewrite Hid, Hc, Hl.
    apply list_elem_of_singleton. destruct x; simpl in *. by subst.
Qed.

Lemma length_rows_of_meter_bind rs0 (cfg : gmap string config_row) id rs :
  length (rows_of_meter id
            (r ← rs;
             match meter_of r with
             | Some id =>
                 match cfg !! id with
                 | Some c =>
                     if is_latest rs0 r
                     then [ {| reading := r; meter_name := cfg_name c;
                               meter_location := cfg_location c |} ]
                     else []
                 | None => []
                 end
             | None => []
             end))
  = match cfg !! id with
    | Some _ =>
        length (filter (fun r => meter_of r = Some id ∧ is_latest rs0 r = true) rs)
    | None => 0%nat
    end.
Proof.
  unfold rows_of_meter. induction rs as [|r rs IH].
  - simpl. by destruct (cfg !! id).
  - rewrite bind_cons, filter_app, length_app, IH. clear IH.
    rewrite (filter_cons _ r rs).
    destruct (meter_of r) as [id'|] eqn:Hid'.
    + destruct (decide (id' = id)) as [->|Hne].
      * destruct (cfg !! id) as [c|] eqn:Hc; [|done].
        destruct (is_latest rs0 r) eqn:Hl.
        -- rewrite filter_cons. simpl. rewrite Hid'.
           repeat case_decide; try done. tauto.
        -- case_decide as Hd; [by destruct Hd|done].
      * assert (Hnil : ∀ l : list latest_row,
                  (∀ x, x ∈ l → reading x = r) →
                  filter (fun x => meter_of (reading x) = Some id) l = []).
        { intros l Hall. induction l as [|y l IHl]; [done|].
          rewrite filter_cons. case_decide as Hd.
          - rewrite (Hall y) in Hd by apply list_elem_of_here. congruence.
          - apply IHl. intros z Hz. apply Hall. by apply list_elem_of_further. }
        rewrite Hnil.
        -- simpl. destruct (cfg !! id); [|done].
           case_decide as Hd; [destruct Hd; congruence|done].
        -- intros x Hx. destruct (cfg !! id'); [|by apply elem_of_nil in Hx].
           destruct (is_latest rs0 r); [|by apply elem_of_nil in Hx].
           by apply list_elem_of_singleton in Hx as ->.
    + change (length (filter (fun x : latest_row => meter_of (reading x) = Some id) []))
        with 0%nat.
      simpl. destruct (cfg !! id); [|done].
      destruct (decide (None = Some id ∧ is_latest rs0 r = true)) as [[Hd _]|];
        [discriminate Hd|done].
Qed.

(** C2, as the claim states it, fails: of the two meters present in the
    reading table, [m1] (two readings stored within the same second) gets
    two rows and [m2] (configuration row removed) gets none. *)
Lemma C2_not_exactly_one_row_per_meter :
  length (rows_of_meter "m1" (get_all_meters_latest tied_and_orphaned)) = 2%nat
  ∧ length (rows_of_meter "m2" (get_all_meters_latest tied_and_orphaned)) = 0%nat
  ∧ (∃ t, pac3200_readings tied_and_orphaned = Some t
          ∧ Some "m1"%string ∈ meter_of <$> rows t
          ∧ Some "m2"%string ∈ meter_of <$> rows t).
Proof.
  split; [vm_compute; reflexivity|]. split; [vm_compute; reflexivity|].
  eexists. split; [reflexivity|].
  split; by_computation.
Qed.

(** C2, amended: the query returns, in some order, exactly the latest
    readings of the meters that have a configuration row: each row of the
    result is a reading whose timestamp is the maximum among the readings
    of its meter, joined with that meter's name and location; a meter
    without a configuration row gets no row; a configured meter gets as
    many rows as it has readings with the maximum timestamp, hence at
    least one when it has a timestamped reading and exactly one when the
    maximum is not tied. *)
Theorem C2_latest_readings_of_configured_meters (db : database) :
  get_all_meters_latest db ≡ₚ latest_rows db
  ∧ (∀ x, x ∈ get_all_meters_latest db →
       ∃ t cfg id c ts,
         pac3200_readings db = Some t ∧ meters_config db = Some cfg
         ∧ reading x ∈ rows t ∧ meter_of (reading x) = Some id
         ∧ cfg !! id = Some c
         ∧ meter_name x = cfg_name c ∧ meter_location x = cfg_location c
         ∧ timestamp_of (reading x) = Some ts
         ∧ (∀ r ts', r ∈ rows t → meter_of r = Some id →
              timestamp_of r = Some ts' → ts' <= ts))
  ∧ (∀ t cfg id,
       pac3200_readings db = Some t → meters_config db = Some cfg →
       length (rows_of_meter id (get_all_meters_latest db))
       = match cfg !! id with
         | Some _ =>
             length (filter (fun r => meter_of r = Some id
                                      ∧ is_latest (rows t) r = true) (rows t))
         | None => 0%nat
         end)
  ∧ (∀ t cfg id c r ts,
       pac3200_readings db = Some t → meters_config db = Some cfg →
       cfg !! id = Some c → r ∈ rows t → meter_of r = Some id →
       timestamp_of r = Some ts →
       (1 <= length (rows_of_meter id (get_all_meters_latest db)))%nat).
Proof.
  pose proof (get_all_meters_latest_latest_rows db) as Hperm.
  assert (Hcount : ∀ t cfg id,
       pac3200_readings db = Some t → meters_config db = Some cfg →
       length (rows_of_meter id (get_all_meters_latest db))
       = match cfg !! id with
         | Some _ =>
             length (filter (fun r => meter_of r = Some id
                                      ∧ is_latest (rows t) r = true) (rows t))
         | None => 0%nat
         end).
  { intros t cfg id Ht Hcfg. unfold rows_of_meter. rewrite Hperm.
    unfold latest_rows. rewrite Ht, Hcfg.
    apply (length_rows_of_meter_bind (rows t) cfg id (rows t)). }
  split; [exact Hperm|]. split; [|split; [exact Hcount|]].
  - intros x Hx. rewrite Hperm in Hx.
    apply elem_of_latest_rows in Hx
      as (t & cfg & id & c & Ht & Hcfg & Hr & Hid & Hc & Hn & Hloc & Hl).
    apply is_latest_true in Hl as (id' & ts & Hid' & Hts & Hmax).
    assert (id' = id) as -> by congruence.
    apply max_timestamp_Some in Hmax as [_ Hall].
    exists t, cfg, id, c, ts. do 8 (split; [done|]).
    intros r ts' ? ? ?. by eapply Hall.
  - intros t cfg id c r ts Ht Hcfg Hc Hr Hid Hts.
    rewrite (Hcount t cfg id Ht Hcfg), Hc.
    destruct (max_timestamp (rows t) id) as [mx|] eqn:Hmax.
    + pose proof Hmax as Hmax'.
      apply max_timestamp_Some in Hmax as [(r' & Hr' & Hid' & Hts') _].
      assert (Hin : r' ∈ filter (fun r => meter_of r = Some id
                               ∧ is_latest (rows t) r = true) (rows t)).
      { apply list_elem_of_filter. split; [|done]. split; [done|].
        apply is_latest_true. by exists id, mx. }
      destruct (filter _ (rows t)); [by apply elem_of_nil in Hin|simpl; lia].
    + exfalso. unfold max_timestamp in Hmax.
      assert (Hin : ts ∈ omap timestamp_of
                (filter (fun r => meter_of r = Some id) (rows t))).
      { apply list_elem_of_omap. exists r. split; [|done].
        by apply list_elem_of_filter. }
      destruct (omap _ _); [by apply elem_of_nil in Hin|].
      simpl in Hmax. discriminate Hmax.
Qed.

(** ** Aggregation over all meters *)




Lemma elem_of_in_window db now hours r :
  r ∈ in_window db now hours ↔
  r ∈ reading_rows db
  ∧ ∃ t, timestamp_of r = Some t ∧ now - hours * 3600000000 <= t <= now.
Proof.
  unfold in_window, between. rewrite list_elem_of_filter.
  destruct (timestamp_of r) as [t|].
  - rewrite andb_true_iff, !Z.leb_le. split.
    + intros [[? ?] ?]. split; [done|]. exists t. split; [done|lia].
    + intros [? (t' & [= <-] & ?)]. split; [lia|done].
  - split; [by intros [? _]|]. by intros [_ (? & ? & _)].
Qed.

(** The window the program computes is the window of the specification,
    when its start is a datetime. *)
Lemma window_start now hours :
  match timedelta_hours hours with
  | Some delta =>
      match datetime_sub now delta with
      | Some start_time =>
          window_representable now hours
          ∧ start_time = now - hours * 3600000000
      | None => ¬ window_representable now hours
      end
  | None => ¬ window_representable now hours
  end.
Proof.
  unfold timedelta_hours, datetime_sub, window_representable.
  destruct (_ && _) eqn:Hd.
  - apply andb_true_iff in Hd as [H1 H2]. apply Z.leb_le in H1, H2.
    destruct (_ && _) eqn:Hs.
    + apply andb_true_iff in Hs as [H3 H4]. apply Z.leb_le in H3, H4.
      split; [lia|done].
    + apply andb_false_iff in Hs as [H3|H3]; apply Z.leb_gt in H3; lia.
  - apply andb_false_iff in Hd as [H1|H1]; apply Z.leb_gt in H1; lia.
Qed.

(** *** The engine's SUM and AVG *)






Lemma aggregate_Some w g x :
  aggregate w g = Some x →
  agg_timestamp x = g.1
  ∧ Some (Total_System_Power x) = sql_sum w (column_values "Total_Active_Power" g.2)
  ∧ Avg_Frequency x = sql_avg w (column_values "Frequency" g.2)
  ∧ Avg_Power_Factor x = sql_avg w (column_values "Total_Power_Factor" g.2)
  ∧ Active_Meters x = count_distinct_meters g.2.
Proof.
  unfold aggregate.
  destruct (sql_sum w (column_values "Total_Active_Power" g.2)) as [total|];
    [|done].
  by intros [= <-].
Qed.



Lemma mapM_aggregate_timestamps w l k :
  mapM (aggregate w) l = Some k → agg_timestamp <$> k = l.*1.
Proof.
  intros H%mapM_Some_1. induction H as [|g x l k Hgx H IH]; [done|].
  cbn [fmap list_fmap]. f_equal; [|exact IH].
  by apply aggregate_Some in Hgx as [? _].
Qed.



Lemma get_aggregated_data_NoDup w db now hours :
  NoDup (agg_timestamp <$> get_aggregated_data w db now hours).
Proof.
  unfold get_aggregated_data.
  destruct (timedelta_hours hours) as [delta|]; [|apply NoDup_nil_2].
  destruct (datetime_sub now delta) as [start_time|]; [|apply NoDup_nil_2].
  destruct (pac3200_readings db) as [t|]; [|apply NoDup_nil_2].
  destruct (forallb _ aggregated_columns); [|apply NoDup_nil_2].
  destruct (mapM _ _) as [k|] eqn:Hk; [|apply NoDup_nil_2].
  change (default [] (Some k)) with k.
  rewrite (mapM_aggregate_timestamps _ _ _ Hk).
  rewrite merge_sort_Permutation. apply NoDup_fst_map_to_list.
Qed.


(** ** Schema initialisation *)

Lemma readings_columns_not_legacy :
  bool_decide ("device_id"%string ∈ readings_columns) = false.
Proof. vm_compute. reflexivity. Qed.

Lemma init_database_cases db :
  init_database db =
  if backup_name_taken db then (db, false) else (initialised db, true).
Proof.
  unfold init_database, migrate_legacy, backup_name_taken, legacy_with_rows,
    legacy, initialised, index_after_init, legacy_with_rows, legacy,
    rename_readings_to_backup, count_rows, table_info.
  destruct db as [cfg [[cols rs]|] bak idx]; simpl.
  - destruct (bool_decide ("device_id"%string ∈ cols)); simpl;
      destruct rs as [|r rs], bak as [b|], cfg as [c|], idx as [[[] k]|];
      reflexivity.
  - destruct bak as [b|], cfg as [c|], idx as [[[] k]|]; reflexivity.
Qed.

Lemma legacy_with_rows_initialised db : legacy_with_rows (initialised db) = false.
Proof. reflexivity. Qed.

Lemma initialised_idemp db : initialised (initialised db) = initialised db.
Proof.
  unfold initialised at 1. rewrite legacy_with_rows_initialised.
  unfold index_after_init at 1. rewrite legacy_with_rows_initialised.
  unfold initialised, index_after_init.
  cbn [meters_config pac3200_readings pac3200_readings_backup
       idx_readings_meter_timestamp default].
  destruct (idx_readings_meter_timestamp db) as [[[] k]|];
    destruct (legacy_with_rows db); reflexivity.
Qed.

Lemma initialised_not_taken db : backup_name_taken (initialised db) = false.
Proof.
  reflexivity.
Qed.

(** C4, as the claim states it, fails: on a legacy reading table that
    holds rows while a table already has the backup name, the renaming
    fails; [init_database] returns [False] and leaves the database as it
    was, with no configuration table and the legacy reading table in
    place. *)
Lemma C4_init_fails_when_backup_name_taken :
  init_database legacy_beside_backup = (legacy_beside_backup, false)
  ∧ meters_config (init_database legacy_beside_backup).1 = None
  ∧ pac3200_readings (init_database legacy_beside_backup).1
    ≠ Some new_readings_table.
Proof.
  split; [vm_compute; reflexivity|]. split; [vm_compute; reflexivity|].
  vm_compute. discriminate.
Qed.

(** C4, amended: [init_database] is idempotent.  It completes (returns
    [True]) unless the reading table is a legacy one (it has a [device_id]
    column) that holds rows while a table already has the backup name; in
    that one case the renaming fails and the database is left as it was.
    When it completes: the configuration table exists, with the rows it
    had; the reading table is the newly created one, with the fixed column
    set and no row, whatever rows it held; a legacy table that held rows is
    now the backup table, a legacy table without rows is gone; and an index
    of the fixed name exists, which is the composite index on (meter_id,
    timestamp DESC) of the new reading table unless an index of that name
    went to, or was already on, the backup table. *)
Theorem C4_init_database (db : database) :
  let db' := (init_database db).1 in
  let ok := (init_database db).2 in
  init_database db' = (db', ok)
  ∧ ok = negb (backup_name_taken db)
  ∧ if ok then
      meters_config db' = Some (default ∅ (meters_config db))
      ∧ pac3200_readings db' = Some new_readings_table
      ∧ columns new_readings_table = readings_columns
      ∧ rows new_readings_table = []
      ∧ pac3200_readings_backup db'
        = (if legacy_with_rows db then pac3200_readings db
           else pac3200_readings_backup db)
      ∧ idx_readings_meter_timestamp db' = Some (index_after_init db)
      ∧ (match idx_readings_meter_timestamp db with
         | Some i => index_table i = Readings ∧ legacy_with_rows db = false
         | None => True
         end →
         idx_readings_meter_timestamp db'
         = Some {| index_table := Readings; index_key := meter_timestamp_key |})
    else db' = db.
Proof.
  cbv zeta. rewrite (init_database_cases db).
  destruct (backup_name_taken db) eqn:Htaken; cbn [fst snd negb].
  - rewrite init_database_cases, Htaken. repeat split; reflexivity.
  - rewrite init_database_cases, initialised_not_taken, initialised_idemp.
    do 8 (split; [reflexivity|]).
    destruct (idx_readings_meter_timestamp db) as [i|] eqn:Hidx; intros H;
      unfold initialised, index_after_init;
      cbn [idx_readings_meter_timestamp]; rewrite Hidx;
      [destruct H as [Hi Hl]; rewrite Hi, Hl|]; reflexivity.
Qed.

(** ** Finiteness of binary64 results

    A float [m * 2^e] has magnitude at most [k] when [m] has [d] binary
    digits and [d + e <= k], that is when its absolute value is below
    [2^k].  The operations below are followed through the rounding of
    [SpecFloat]: on operands of bounded magnitude they cannot overflow. *)

Lemma digits2_pos_size p : digits2_pos p = Pos.size p.
Proof. induction p; simpl; congruence. Qed.

Lemma Zdigits2_nonneg x : 0 <= Zdigits2 x.
Proof. destruct x; simpl; lia. Qed.

Lemma Zdigits2_pos_lt p : Z.pos p < 2 ^ Zdigits2 (Z.pos p).
Proof.
  simpl. rewrite digits2_pos_size.
  pose proof (Pos.size_gt p) as H.
  apply Pos2Z.pos_lt_pos in H. by rewrite Pos2Z.inj_pow in H.
Qed.

Lemma Zdigits2_pos_le p : 2 ^ (Zdigits2 (Z.pos p) - 1) <= Z.pos p.
Proof.
  simpl. rewrite digits2_pos_size.
  pose proof (Pos.size_le p) as H.
  apply Pos2Z.pos_le_pos in H. rewrite Pos2Z.inj_pow in H.
  replace (Z.pos (Pos.size p)) with (Z.succ (Z.pos (Pos.size p) - 1)) in H by lia.
  rewrite Z.pow_succ_r in H by lia. lia.
Qed.

Lemma Zdigits2_lt x : 0 <= x → x < 2 ^ Zdigits2 x.
Proof.
  destruct x as [|p|p]; intros Hx; [simpl; lia|apply Zdigits2_pos_lt|lia].
Qed.

(** A nonnegative number below [2^n] has at most [n] digits. *)
Lemma Zdigits2_le_of_lt x n : 0 <= x → 0 <= n → x < 2 ^ n → Zdigits2 x <= n.
Proof.
  intros Hx Hn Hlt. destruct x as [|p|p]; [simpl; lia| |lia].
  pose proof (Zdigits2_pos_le p) as Hle.
  destruct (Z_lt_le_dec n (Zdigits2 (Z.pos p))) as [Hgt|]; [|done].
  exfalso.
  assert (2 ^ n <= 2 ^ (Zdigits2 (Z.pos p) - 1))
    by (apply Z.pow_le_mono_r; lia).
  lia.
Qed.

Lemma Zdigits2_succ x : 0 <= x → Zdigits2 (x + 1) <= Zdigits2 x + 1.
Proof.
  intros Hx. pose proof (Zdigits2_lt x Hx). pose proof (Zdigits2_nonneg x).
  apply Zdigits2_le_of_lt; [lia..|].
  rewrite Z.pow_add_r by lia. lia.
Qed.

Lemma Zdigits2_mul p q :
  Zdigits2 (Z.pos (p * q)) <= Zdigits2 (Z.pos p) + Zdigits2 (Z.pos q).
Proof.
  pose proof (Zdigits2_pos_lt p). pose proof (Zdigits2_pos_lt q).
  pose proof (Zdigits2_nonneg (Z.pos p)). pose proof (Zdigits2_nonneg (Z.pos q)).
  apply Zdigits2_le_of_lt; [lia..|].
  rewrite Z.pow_add_r, Pos2Z.inj_mul by lia. nia.
Qed.

Lemma Zdigits2_mono x y : 0 <= x <= y → Zdigits2 x <= Zdigits2 y.
Proof.
  intros [Hx Hy]. apply Zdigits2_le_of_lt; [done|apply Zdigits2_nonneg|].
  pose proof (Zdigits2_lt y). lia.
Qed.

Lemma Zdigits2_opp x : Zdigits2 (- x) = Zdigits2 x.
Proof. by destruct x. Qed.

(** *** Shifting right *)

Lemma shr_1_digits mrs :
  0 <= shr_m mrs →
  0 <= shr_m (shr_1 mrs)
  ∧ Zdigits2 (shr_m (shr_1 mrs)) = Z.max 0 (Zdigits2 (shr_m mrs) - 1).
Proof.
  destruct mrs as [[|[p|p|]|p] r s]; simpl; intros Hm; try lia.
Qed.

Lemma iter_pos_shr_1_digits p mrs :
  0 <= shr_m mrs →
  0 <= shr_m (SpecFloat.iter_pos shr_1 p mrs)
  ∧ Zdigits2 (shr_m (SpecFloat.iter_pos shr_1 p mrs))
    = Z.max 0 (Zdigits2 (shr_m mrs) - Z.pos p).
Proof.
  revert mrs. induction p as [p IH|p IH|]; intros mrs Hm; simpl.
  - destruct (shr_1_digits mrs Hm) as [H1 E1].
    destruct (IH _ H1) as [H2 E2]. destruct (IH _ H2) as [H3 E3].
    split; [done|]. rewrite E3, E2, E1. lia.
  - destruct (IH _ Hm) as [H2 E2]. destruct (IH _ H2) as [H3 E3].
    split; [done|]. rewrite E3, E2. lia.
  - destruct (shr_1_digits mrs Hm) as [H1 E1]. split; [done|]. rewrite E1. lia.
Qed.

Lemma shr_record_of_loc_m m l : shr_m (shr_record_of_loc m l) = m.
Proof. by destruct l as [|[]]. Qed.

(** After [shr_fexp] the mantissa is nonnegative, and digits plus exponent
    did not grow beyond the smallest exponent of the format. *)
Lemma shr_fexp_digits m e l k :
  0 <= m → Zdigits2 m + e <= k → -1074 <= k →
  let '(mrs, e') := shr_fexp prec emax m e l in
  0 <= shr_m mrs ∧ Zdigits2 (shr_m mrs) + e' <= k
  ∧ (0 < shr_m mrs → e' <= k - 1).
Proof.
  intros Hm Hk Hlow. unfold shr_fexp, shr.
  pose proof (Zdigits2_nonneg m) as Hd.
  assert (Hf : fexp prec emax (Zdigits2 m + e) <= k).
  { unfold fexp, SpecFloat.emin, prec, emax. lia. }
  destruct (fexp prec emax (Zdigits2 m + e) - e) as [|n|n] eqn:Hn.
  - rewrite shr_record_of_loc_m. repeat split; try done.
    intros Hpos. destruct m; simpl in *; lia.
  - destruct (iter_pos_shr_1_digits n (shr_record_of_loc m l)) as [H1 E1].
    { by rewrite shr_record_of_loc_m. }
    rewrite shr_record_of_loc_m in E1.
    split; [done|]. rewrite E1. split; [lia|].
    intros Hpos.
    destruct (shr_m (SpecFloat.iter_pos shr_1 n (shr_record_of_loc m l))) eqn:Hs;
      simpl in *; lia.
  - rewrite shr_record_of_loc_m. repeat split; try done.
    intros Hpos. destruct m; simpl in *; lia.
Qed.

Lemma round_nearest_even_digits m l :
  0 <= m →
  0 <= round_nearest_even m l
  ∧ Zdigits2 (round_nearest_even m l) <= Zdigits2 m + 1.
Proof.
  intros Hm. pose proof (Zdigits2_succ m Hm).
  unfold round_nearest_even. destruct l as [|[]]; try destruct (Z.even m); lia.
Qed.

(** Rounding a nonnegative mantissa of magnitude at most [k] gives zero or a
    finite float of magnitude at most [k + 1]. *)
Lemma binary_round_aux_magnitude sx mx ex lx k :
  0 <= mx → Zdigits2 mx + ex <= k → -1074 <= k → k <= 970 →
  magnitude_le (k + 1) (binary_round_aux prec emax sx mx ex lx) = true.
Proof.
  intros Hm Hk Hlow Hhigh. unfold binary_round_aux.
  pose proof (shr_fexp_digits mx ex lx k Hm Hk Hlow) as H1.
  destruct (shr_fexp prec emax mx ex lx) as [mrs' e'].
  destruct H1 as (Hm1 & Hd1 & _).
  destruct (round_nearest_even_digits (shr_m mrs') (loc_of_shr_record mrs') Hm1)
    as [Hr Hrd].
  pose proof (shr_fexp_digits (round_nearest_even (shr_m mrs') (loc_of_shr_record mrs'))
                e' loc_Exact (k + 1) Hr) as H2.
  destruct (shr_fexp prec emax _ e' loc_Exact) as [mrs'' e''].
  destruct H2 as (Hm2 & Hd2 & He2); [lia..|].
  destruct (shr_m mrs'') as [|m|m] eqn:Hs; [done| |lia].
  assert (e'' <= k) by lia.
  replace (e'' <=? emax - prec) with true
    by (symmetry; apply Z.leb_le; unfold emax, prec; lia).
  simpl. apply Z.leb_le. simpl in Hd2. lia.
Qed.

(** *** The operations *)

Lemma magnitude_le_mono k k' x :
  magnitude_le k x = true → k <= k' → magnitude_le k' x = true.
Proof.
  destruct x as [| | |s m e]; simpl; try done.
  rewrite !Z.leb_le. lia.
Qed.

Lemma magnitude_le_finite k x : magnitude_le k x = true → is_finite x = true.
Proof. by destruct x. Qed.

Lemma magnitude_le_fabs k x :
  magnitude_le k x = true → magnitude_le k (fabs x) = true.
Proof. by destruct x. Qed.

Lemma fmul_magnitude a b x y :
  magnitude_le a x = true → magnitude_le b y = true →
  -1074 <= a + b → a + b <= 970 →
  magnitude_le (a + b + 1) (fmul x y) = true.
Proof.
  destruct x as [sx| | |sx mx ex], y as [sy| | |sy my ey]; simpl; try done.
  rewrite !Z.leb_le. intros Hx Hy Hlow Hhigh.
  apply binary_round_aux_magnitude; [lia| |done..].
  pose proof (Zdigits2_mul mx my). simpl in *. lia.
Qed.

Lemma digits2_pos_iter_xO m d :
  Z.pos (digits2_pos (Pos.iter xO m d)) = Z.pos (digits2_pos m) + Z.pos d.
Proof.
  induction d as [|d IH] using Pos.peano_ind.
  - simpl. lia.
  - rewrite Pos.iter_succ. simpl. lia.
Qed.

Lemma shl_align_digits m e e' :
  Zdigits2 (Z.pos (shl_align m e e').1) + (shl_align m e e').2
  = Zdigits2 (Z.pos m) + e.
Proof.
  unfold shl_align. destruct (e' - e) as [|d|d] eqn:Hd; simpl; [done..|].
  rewrite digits2_pos_iter_xO. lia.
Qed.

Lemma shl_align_snd m e e' : e' <= e → (shl_align m e e').2 = e'.
Proof.
  unfold shl_align. intros He. destruct (e' - e) as [|d|d] eqn:Hd; simpl; lia.
Qed.

Lemma binary_round_magnitude sx m e k :
  Zdigits2 (Z.pos m) + e <= k → -1074 <= k → k <= 970 →
  magnitude_le (k + 1) (binary_round prec emax sx m e) = true.
Proof.
  intros Hk Hlow Hhigh. unfold binary_round.
  pose proof (shl_align_digits m e
                (fexp prec emax (Z.pos (digits2_pos m) + e))) as Hd.
  destruct (shl_align m e _) as [mz ez]. simpl in Hd.
  apply binary_round_aux_magnitude; [lia| |done..]. simpl in *. lia.
Qed.

Lemma binary_normalize_magnitude z e k :
  Zdigits2 z + e <= k → -1074 <= k → k <= 970 →
  magnitude_le (k + 1) (binary_normalize prec emax z e false) = true.
Proof.
  intros Hk Hlow Hhigh. destruct z as [|m|m]; simpl; [done| |];
    by apply binary_round_magnitude.
Qed.

Lemma fadd_magnitude a x y :
  magnitude_le a x = true → magnitude_le a y = true →
  -1074 <= a → a <= 969 →
  magnitude_le (a + 2) (fadd x y) = true.
Proof.
  intros Hx Hy Hlow Hhigh.
  destruct x as [sx| | |sx mx ex], y as [sy| | |sy my ey]; try done.
  - by destruct sx, sy.
  - simpl in *. apply Z.leb_le. apply Z.leb_le in Hy. lia.
  - simpl in *. apply Z.leb_le. apply Z.leb_le in Hx. lia.
  - unfold fadd, SFadd. simpl in Hx, Hy. apply Z.leb_le in Hx, Hy.
    set (ez := Z.min ex ey).
    pose proof (shl_align_digits mx ex ez) as Hdx.
    pose proof (shl_align_digits my ey ez) as Hdy.
    rewrite shl_align_snd in Hdx, Hdy by lia.
    set (m1 := (shl_align mx ex ez).1) in *.
    set (m2 := (shl_align my ey ez).1) in *.
    replace (a + 2) with (a + 1 + 1) by lia.
    apply binary_normalize_magnitude; [|lia..].
    pose proof (Zdigits2_pos_lt m1) as H1. pose proof (Zdigits2_pos_lt m2) as H2.
    pose proof (Zdigits2_nonneg (Z.pos m1)) as N1.
    pose proof (Zdigits2_nonneg (Z.pos m2)) as N2.
    cbn [Zdigits2] in Hdx, Hdy, H1, H2, N1, N2.
    assert (Hp1 : 2 ^ Z.pos (digits2_pos m1) <= 2 ^ (a - ez))
      by (apply Z.pow_le_mono_r; lia).
    assert (Hp2 : 2 ^ Z.pos (digits2_pos m2) <= 2 ^ (a - ez))
      by (apply Z.pow_le_mono_r; lia).
    set (z := cond_Zopp sx (Z.pos m1) + cond_Zopp sy (Z.pos m2)).
    assert (Hz : Z.abs z < 2 ^ (a - ez + 1)).
    { rewrite Z.pow_add_r by lia. change (2 ^ 1) with 2. unfold z.
      destruct sx, sy; unfold cond_Zopp; lia. }
    assert (Zdigits2 z <= a - ez + 1); [|lia].
    rewrite <- (Zdigits2_opp z) at 1.
    destruct (Z_le_dec 0 z) as [Hpos|Hneg].
    + rewrite Zdigits2_opp. apply Zdigits2_le_of_lt; lia.
    + apply Zdigits2_le_of_lt; lia.
Qed.

Lemma SFdiv_core_binary_digits mx ex my ey :
  let '(q, e', _) := SFdiv_core_binary prec emax (Z.pos mx) ex (Z.pos my) ey in
  0 <= q
  ∧ Zdigits2 q + e'
    <= Z.max (Zdigits2 (Z.pos mx) + ex - (Zdigits2 (Z.pos my) + ey) + 1)
             (fexp prec emax (Zdigits2 (Z.pos mx) + ex - (Zdigits2 (Z.pos my) + ey))).
Proof.
  unfold SFdiv_core_binary.
  set (d1 := Zdigits2 (Z.pos mx)). set (d2 := Zdigits2 (Z.pos my)).
  set (f := fexp prec emax (d1 + ex - (d2 + ey))).
  set (e' := Z.min f (ex - ey)).
  set (s := ex - ey - e').
  assert (Hs : 0 <= s) by (unfold s, e'; lia).
  set (m' := match s with
             | 0 => Z.pos mx
             | Z.pos _ => Z.shiftl (Z.pos mx) s
             | Z.neg _ => 0
             end).
  assert (Hm' : m' = Z.pos mx * 2 ^ s).
  { unfold m'. destruct s as [|p|p] eqn:Es; [simpl; lia| |lia].
    by rewrite Z.shiftl_mul_pow2. }
  pose proof (Z_div_mod m' (Z.pos my) eq_refl) as Hdiv.
  destruct (Z.div_eucl m' (Z.pos my)) as [q r]. destruct Hdiv as [Hq Hr].
  assert (Hq0 : 0 <= q) by nia.
  split; [done|].
  destruct (Z.eq_dec q 0) as [->|Hne]; [simpl; lia|].
  assert (Hd1 : Z.pos mx < 2 ^ d1) by apply Zdigits2_pos_lt.
  assert (Hd2 : 2 ^ (d2 - 1) <= Z.pos my) by apply Zdigits2_pos_le.
  assert (N1 : 0 <= d1) by apply Zdigits2_nonneg.
  assert (N2 : 1 <= d2) by (unfold d2; simpl; lia).
  assert (Hlt : q * 2 ^ (d2 - 1) < 2 ^ (d1 + s)).
  { rewrite Z.pow_add_r by lia.
    assert (0 < 2 ^ s) by (apply Z.pow_pos_nonneg; lia). nia. }
  assert (Hexp : d2 - 1 < d1 + s).
  { apply (Z.pow_lt_mono_r_iff 2); [lia..|].
    assert (0 < 2 ^ (d2 - 1)) by (apply Z.pow_pos_nonneg; lia). nia. }
  assert (Hqd : Zdigits2 q <= d1 + s - d2 + 1); [|unfold s in *; lia].
  apply Zdigits2_le_of_lt; [lia..|].
  replace (d1 + s) with ((d1 + s - d2 + 1) + (d2 - 1)) in Hlt by lia.
  rewrite Z.pow_add_r in Hlt by lia.
  assert (0 < 2 ^ (d2 - 1)) by (apply Z.pow_pos_nonneg; lia). nia.
Qed.

Lemma fdiv_magnitude a x sy my ey k :
  magnitude_le a x = true →
  a - (Zdigits2 (Z.pos my) + ey) + 1 <= k →
  -1074 <= k → k <= 970 →
  magnitude_le (k + 1) (fdiv x (S754_finite sy my ey)) = true.
Proof.
  intros Hx Hk Hlow Hhigh. destruct x as [sx| | |sx mx ex]; try done.
  unfold fdiv, SFdiv. simpl in Hx. apply Z.leb_le in Hx.
  pose proof (SFdiv_core_binary_digits mx ex my ey) as H.
  destruct (SFdiv_core_binary prec emax (Z.pos mx) ex (Z.pos my) ey)
    as [[q e'] l].
  destruct H as [Hq Hd].
  apply binary_round_aux_magnitude; [done| |done..].
  unfold fexp, SpecFloat.emin, prec, emax in Hd. simpl in *. lia.
Qed.

(** *** The simulated values *)

Lemma meter_offset_magnitude h :
  magnitude_le 0 (fdiv (of_int (h mod 10)) (literal 10 1)) = true.
Proof.
  assert (H : 0 <= h mod 10 < 10) by (apply Z.mod_pos_bound; lia).
  assert (Hc : h mod 10 = 0 ∨ h mod 10 = 1 ∨ h mod 10 = 2 ∨ h mod 10 = 3
               ∨ h mod 10 = 4 ∨ h mod 10 = 5 ∨ h mod 10 = 6 ∨ h mod 10 = 7
               ∨ h mod 10 = 8 ∨ h mod 10 = 9) by lia.
  destruct Hc as [->|[->|[->|[->|[->|[->|[->|[->|[->| ->]]]]]]]]];
    vm_compute; reflexivity.
Qed.

Lemma fadd_bound a k x y :
  magnitude_le a x = true → magnitude_le a y = true →
  -1074 <= a → a <= 969 → a + 2 <= k →
  magnitude_le k (fadd x y) = true.
Proof.
  intros Hx Hy Hlow Hhigh Hk.
  apply (magnitude_le_mono (a + 2)); [by apply fadd_magnitude|done].
Qed.

Lemma fmul_bound a b k x y :
  magnitude_le a x = true → magnitude_le b y = true →
  -1074 <= a + b → a + b <= 970 → a + b + 1 <= k →
  magnitude_le k (fmul x y) = true.
Proof.
  intros Hx Hy Hlow Hhigh Hk.
  apply (magnitude_le_mono (a + b + 1)); [by apply fmul_magnitude|done].
Qed.

Lemma affine_magnitude c v c2 o c3 :
  magnitude_le 20 c = true → magnitude_le 910 v = true →
  magnitude_le 20 c2 = true → magnitude_le 0 o = true →
  magnitude_le 20 c3 = true →
  magnitude_le 940 (fadd (fadd c (fmul v c2)) (fmul o c3)) = true.
Proof.
  intros Hc Hv Hc2 Ho Hc3.
  apply (fadd_bound 933); [| |lia..].
  - apply (fadd_bound 931); [| |lia..].
    + by apply (magnitude_le_mono 20).
    + by apply (fmul_bound 910 20).
  - by apply (fmul_bound 0 20).
Qed.

Lemma scaled_magnitude c v c2 :
  magnitude_le 20 c = true → magnitude_le 910 v = true →
  magnitude_le 20 c2 = true →
  magnitude_le 940 (fadd c (fmul v c2)) = true.
Proof.
  intros Hc Hv Hc2.
  apply (fadd_bound 931); [| |lia..].
  - by apply (magnitude_le_mono 20).
  - by apply (fmul_bound 910 20).
Qed.

Lemma variation_magnitude w n off :
  plausible w → magnitude_le 0 off = true →
  magnitude_le 910
    (fadd (fmul (np_sin w (fadd (fdiv (time_time w n) (of_int 10)) off))
                (literal 1 10))
          (np_random_normal w n)) = true.
Proof.
  intros [Hclock Hsample Hsine] Hoff.
  apply (fadd_bound 900); [|apply Hsample|lia..].
  apply (fmul_bound 1 0); [|vm_compute; reflexivity|lia..].
  apply Hsine. apply (magnitude_le_finite 900).
  apply (fadd_bound 898); [|by apply (magnitude_le_mono 0)|lia..].
  change (of_int 10) with (S754_finite false 5629499534213120 (-49)).
  apply (fdiv_magnitude 900 _ _ _ _ 897); [apply Hclock|simpl; lia|lia|lia].
Qed.

(** In a plausible environment every simulated value is a finite float. *)
Lemma simulated_value_finite w m n a :
  plausible w → is_finite (_generate_simulated_value w m n a) = true.
Proof.
  intros Hw. apply (magnitude_le_finite 940).
  pose proof (meter_offset_magnitude (hash w (meter_id m))) as Hoff.
  pose proof (variation_magnitude w n _ Hw Hoff) as Hvar.
  pose proof (magnitude_le_fabs _ _ Hvar) as Habs.
  pose proof (magnitude_le_mono 900 910 _ (clock_bounded w Hw n)) as Hclock.
  unfold _generate_simulated_value.
  repeat match goal with
         | |- context [if ?b then _ else _] => destruct b
         end;
    first [ apply affine_magnitude; first [done | by apply Hclock; lia
                                           | vm_compute; reflexivity]
          | apply scaled_magnitude; first [done | vm_compute; reflexivity]
          | apply (fmul_bound 910 20); first [done | lia | vm_compute; reflexivity] ].
Qed.

(** ** Reading one register *)

(** 0x42480000 is 50.0, 0x7F800000 is +infinity, 0x7FC00000 is a NaN. *)
Lemma decode_32bit_float_examples :
  decode_32bit_float [16968; 0] = Some (S754_finite false 13107200 (-18))
  ∧ decode_32bit_float [32640; 0] = Some (S754_infinity false)
  ∧ decode_32bit_float [32704; 0] = Some S754_nan
  ∧ decode_32bit_float [16968] = None
  ∧ decode_32bit_float [16968; 65536] = None.
Proof. repeat split; reflexivity. Qed.

Lemma is_finite_not_nan_inf v :
  is_finite v = negb (np_isnan v || np_isinf v).
Proof. by destruct v. Qed.

Lemma plausible_demo_world : plausible demo_world.
Proof. split; intros; vm_compute; reflexivity. Qed.

(** In both modes a register read gives a finite float or nothing. *)
Lemma read_float32_register_finite w m n a :
  plausible w →
  match read_float32_register w m n a with
  | Some v => is_finite v = true
  | None => True
  end.
Proof.
  intros Hw. unfold read_float32_register.
  destruct (MODBUS_AVAILABLE w); simpl; [|by apply simulated_value_finite].
  destruct (client m) as [c|]; [|done].
  destruct (socket c && is_socket_open w n); simpl; [|done].
  destruct (read_holding_registers w n a 2 (unit_id m)); try done.
  destruct (decode_32bit_float regs) as [v|]; [|done].
  rewrite <- (negb_involutive (np_isnan v || np_isinf v)).
  rewrite <- is_finite_not_nan_inf. by destruct (is_finite v) eqn:Hv.
Qed.

(** So every entry of a batch read is absent or a finite float, which is
    what [save_reading] needs to store finite measurements only. *)
Lemma read_all_parameters_finite w m n k v :
  plausible w →
  (read_all_parameters w m n).1.1 !! k = Some v →
  v = VNone ∨ finite_number v = true.
Proof.
  intros Hw Hk. rewrite read_all_parameters_data in Hk.
  assert (Hin : k ∈ dict_keys registers).
  { destruct (decide (k ∈ dict_keys registers)) as [|Hn]; [done|].
    rewrite read_loop_other, lookup_empty in Hk by done. discriminate Hk. }
  apply list_elem_of_fmap in Hin as ([k' a] & -> & Hin).
  apply list_elem_of_lookup in Hin as [i Hi].
  rewrite (read_loop_entry _ _ _ _ _ i k' a) in Hk
    by (apply registers_NoDup || done).
  injection Hk as <-.
  pose proof (read_float32_register_finite w m (n + i) a Hw) as Hf.
  destruct (read_float32_register w m (n + i) a); [by right|by left].
Qed.

(** C6, as the claim states it, fails in simulated mode: a meter that is
    not connected (no client, flag cleared) still gets a value from
    [read_float32_register]. *)
Lemma C6_simulated_read_ignores_connection :
  MODBUS_AVAILABLE demo_world = false
  ∧ connected m1 = false
  ∧ client m1 = None
  ∧ read_float32_register demo_world m1 0 1
    = Some (_generate_simulated_value demo_world m1 0 1)
  ∧ read_float32_register demo_world m1 0 1 ≠ None.
Proof. repeat split; try reflexivity. discriminate. Qed.

(** C6, amended: in an environment whose clock, sine and normal sample are
    finite floats in range, [read_float32_register] returns in both modes a
    finite float or nothing, never NaN or an infinity, and it always
    returns.  Under the live protocol the result is nothing when the meter
    has no client or the client's socket is not open, when the read raises
    or answers with an error, when the payload cannot be decoded, or when
    the decoded value is NaN or infinite; otherwise it is the decoded
    value.  In simulated mode the result is never absent: it is the
    simulated value, whether or not the meter is connected. *)
Theorem C6_read_register_finite_or_absent (w : world) (m : PAC3200Meter)
    (n : nat) (a : Z) :
  plausible w →
  let result := read_float32_register w m n a in
  let answer := read_holding_registers w n a 2 (unit_id m) in
  match result with
  | Some v => is_finite v = true
  | None => True
  end
  ∧ (MODBUS_AVAILABLE w = true →
       (client m = None → result = None)
       ∧ (∀ c, client m = Some c → socket c && is_socket_open w n = false →
            result = None)
       ∧ (answer = Raises ∨ answer = IsError → result = None)
       ∧ (∀ regs, answer = Registers regs → decode_32bit_float regs = None →
            result = None)
       ∧ (∀ regs v, answer = Registers regs →
            decode_32bit_float regs = Some v → is_finite v = false →
            result = None)
       ∧ (∀ c regs v, client m = Some c →
            socket c && is_socket_open w n = true →
            answer = Registers regs → decode_32bit_float regs = Some v →
            is_finite v = true → result = Some v))
  ∧ (MODBUS_AVAILABLE w = false →
       result = Some (_generate_simulated_value w m n a)).
Proof.
  intros Hw. cbv zeta. unfold read_float32_register.
  destruct (MODBUS_AVAILABLE w) eqn:Hmode; simpl.
  - split; [|split; [intros _|done]].
    + pose proof (read_float32_register_finite w m n a Hw) as Hf.
      unfold read_float32_register in Hf. by rewrite Hmode in Hf.
    + assert (Hinf : ∀ v, is_finite v = false → np_isnan v || np_isinf v = true)
        by (by intros []).
      assert (Hfin : ∀ v, is_finite v = true → np_isnan v || np_isinf v = false)
        by (by intros []).
      split; [|split; [|split; [|split; [|split]]]].
      * by intros ->.
      * by intros c -> ->.
      * intros [->| ->]; destruct (client m) as [c|]; try done;
          by destruct (socket c && is_socket_open w n).
      * intros regs -> ->; destruct (client m) as [c|]; try done;
          by destruct (socket c && is_socket_open w n).
      * intros regs v -> -> Hv; destruct (client m) as [c|]; try done.
        destruct (socket c && is_socket_open w n); simpl; [|done].
        by rewrite Hinf.
      * intros c regs v -> -> -> -> Hv. simpl. by rewrite Hfin.
  - split; [by apply simulated_value_finite|]. split; [done|]. done.
Qed.

(** C6 in the example environment. *)
Lemma C6_read_register_witness :
  let result := read_float32_register demo_world m1 0 1 in
  let answer := read_holding_registers demo_world 0%nat 1 2 (unit_id m1) in
  match result with
  | Some v => is_finite v = true
  | None => True
  end
  ∧ (MODBUS_AVAILABLE demo_world = true →
       (client m1 = None → result = None)
       ∧ (∀ c, client m1 = Some c →
            socket c && is_socket_open demo_world 0%nat = false →
            result = None)
       ∧ (answer = Raises ∨ answer = IsError → result = None)
       ∧ (∀ regs, answer = Registers regs → decode_32bit_float regs = None →
            result = None)
       ∧ (∀ regs v, answer = Registers regs →
            decode_32bit_float regs = Some v → is_finite v = false →
            result = None)
       ∧ (∀ c regs v, client m1 = Some c →
            socket c && is_socket_open demo_world 0%nat = true →
            answer = Registers regs → decode_32bit_float regs = Some v →
            is_finite v = true → result = Some v))
  ∧ (MODBUS_AVAILABLE demo_world = false →
       result = Some (_generate_simulated_value demo_world m1 0 1)).
Proof.
  apply (C6_read_register_finite_or_absent demo_world m1 0 1).
  split; intros; vm_compute; reflexivity.
Defined.


(** * Connecting a meter *)

(** X1: [connect] returns exactly the [connected] flag it leaves on the
    meter.  It succeeds if and only if the Modbus library is absent, or the
    new client's connect is accepted and the probe read of registers 1-2
    comes back without raising and without an error response.  Nothing but
    the client and the flag changes, and without the library the client is
    left as it was. *)
Theorem connect_returns_connected_flag (w : world) (answer : connect_answer)
    (m : PAC3200Meter) (n : nat) :
  let r := connect w answer m n in
  connected r.2 = r.1
  ∧ (r.1 = true ↔
     MODBUS_AVAILABLE w = false
     ∨ (answer = ConnectAccepted
        ∧ ∃ regs, read_holding_registers w n 1 2 (unit_id m) = Registers regs))
  ∧ r.2 = set_connection m (client r.2) r.1
  ∧ (MODBUS_AVAILABLE w = false → client r.2 = client m).
Proof.
  unfold connect.
  destruct (MODBUS_AVAILABLE w) eqn:Hw; simpl.
  - destruct answer; simpl.
    + repeat split; try done. intros [?|[? _]]; discriminate.
    + repeat split; try done. intros [?|[? _]]; discriminate.
    + destruct (read_holding_registers w n 1 2 (unit_id m)) eqn:Hr; simpl.
      * repeat split; try done. intros [?|[_ [? ?]]]; discriminate.
      * repeat split; try done. intros [?|[_ [? ?]]]; discriminate.
      * repeat split; try done. intros _. right. eauto.
  - repeat split; try done. intros _. by left.
Qed.

(** X2: under the live protocol, a connect whose TCP connection is accepted
    but whose probe read fails reports failure and clears the flag, yet the
    meter keeps the client with its open socket: a later register read on
    that meter whose response decodes to a finite float returns that
    float. *)
Theorem connect_failed_probe_keeps_session (w : world) (m : PAC3200Meter)
    (n n' : nat) (register_address : Z) (regs : list Z) (v : spec_float) :
  MODBUS_AVAILABLE w = true →
  (∀ regs0, read_holding_registers w n 1 2 (unit_id m) ≠ Registers regs0) →
  is_socket_open w n' = true →
  read_holding_registers w n' register_address 2 (unit_id m) = Registers regs →
  decode_32bit_float regs = Some v →
  is_finite v = true →
  let r := connect w ConnectAccepted m n in
  r.1 = false ∧ connected r.2 = false
  ∧ read_float32_register w r.2 n' register_address = Some v.
Proof.
  intros Hw Hprobe Hopen Hread Hdec Hfin. unfold connect. rewrite Hw. simpl.
  assert (Hfail : ∀ regs0, read_holding_registers w n 1 2 (unit_id m) = Registers regs0 → False)
    by (intros regs0 H; exact (Hprobe regs0 H)).
  assert (Hv : np_isnan v || np_isinf v = false).
  { rewrite is_finite_not_nan_inf in Hfin. by destruct (np_isnan v || np_isinf v). }
  destruct (read_holding_registers w n 1 2 (unit_id m)) eqn:Hr;
    [| |by destruct (Hfail regs0)];
    (split; [reflexivity|split; [reflexivity|]]);
    unfold read_float32_register; rewrite Hw; simpl; rewrite Hopen; simpl;
    rewrite Hread, Hdec, Hv; reflexivity.
Qed.

Lemma connect_failed_probe_keeps_session_witness :
  let r := connect live_world ConnectAccepted m1 0 in
  r.1 = false ∧ connected r.2 = false
  ∧ read_float32_register live_world r.2 1 55 =
    Some (S754_finite false 13107200 (-18)).
Proof.
  apply (connect_failed_probe_keeps_session live_world m1 0 1 55 [16968; 0]);
    [reflexivity | intros regs0 H; discriminate H | reflexivity | reflexivity
    | reflexivity | reflexivity].
Defined.

(** X3: [connect] does not depend on the connection the meter had: the
    client is replaced and the flag set anew, so connecting a meter that
    was disconnected, or that an earlier connect (successful or not) had
    handled, gives the same result and the same meter as connecting it
    directly. *)
Theorem connect_forgets_prior_connection (w : world) (answer answer' : connect_answer)
    (m : PAC3200Meter) (n n' : nat) :
  connect w answer (disconnect w m) n = connect w answer m n
  ∧ connect w answer (connect w answer' m n').2 n = connect w answer m n.
Proof.
  split.
  - unfold connect, disconnect. destruct (MODBUS_AVAILABLE w); simpl.
    + by destruct answer.
    + reflexivity.
  - unfold connect. destruct (MODBUS_AVAILABLE w); simpl.
    + destruct answer'; simpl; try (by destruct answer).
      destruct (read_holding_registers w n' 1 2 (unit_id m)); simpl;
        by destruct answer.
    + reflexivity.
Qed.


(** * The readings of one meter *)

Lemma newer_reading_trans : Transitive newer_reading.
Proof.
  intros x y z. unfold newer_reading, timestamp_le.
  destruct (timestamp_of x), (timestamp_of y), (timestamp_of z); try tauto; lia.
Qed.

Lemma newer_reading_total : Total newer_reading.
Proof.
  intros x y. unfold newer_reading, timestamp_le.
  destruct (timestamp_of x), (timestamp_of y); try tauto; lia.
Qed.

Lemma get_meter_readings_Permutation db id now hours :
  get_meter_readings db id now hours ≡ₚ
  if bool_decide (window_representable now hours)
  then filter (fun r => meter_of r = Some id) (in_window db now hours)
  else [].
Proof.
  unfold get_meter_readings. pose proof (window_start now hours) as Hw.
  destruct (timedelta_hours hours) as [delta|];
    [destruct (datetime_sub now delta) as [start_time|]|];
    [destruct Hw as [Hw ->]| |].
  - rewrite bool_decide_eq_true_2 by done.
    unfold in_window, reading_rows.
    destruct (pac3200_readings db) as [t|]; [|done].
    rewrite merge_sort_Permutation, list_filter_filter.
    erewrite list_filter_iff; [done|].
    intros r. simpl. rewrite andb_true_iff, sql_eq_true. split.
    + intros [(a & Ha & [= <-]) Hb]. done.
    + intros [Hm Hb]. split; [eauto|done].
  - by rewrite bool_decide_eq_false_2.
  - by rewrite bool_decide_eq_false_2.
Qed.

Lemma get_meter_readings_sorted db id now hours :
  StronglySorted newer_reading (get_meter_readings db id now hours).
Proof.
  unfold get_meter_readings.
  destruct (timedelta_hours hours) as [delta|]; [|constructor].
  destruct (datetime_sub now delta) as [start_time|]; [|constructor].
  destruct (pac3200_readings db) as [t|]; [|constructor].
  apply StronglySorted_merge_sort.
  - apply newer_reading_trans.
  - apply newer_reading_total.
Qed.

(** X4: [get_meter_readings] returns, newest first, exactly the stored
    readings of the given meter whose timestamp lies in the window from
    [hours] hours before now to now, both ends included, each as often as
    it is stored.  When the start of the window cannot be computed as a
    datetime, or the table is missing, the result is empty. *)
Theorem get_meter_readings_window (db : database) (id : string) (now hours : Z) :
  let result := get_meter_readings db id now hours in
  StronglySorted newer_reading result
  ∧ (window_representable now hours →
     result ≡ₚ filter (fun r => meter_of r = Some id) (in_window db now hours))
  ∧ (∀ r, r ∈ result ↔
          window_representable now hours
          ∧ r ∈ reading_rows db ∧ meter_of r = Some id
          ∧ ∃ t, timestamp_of r = Some t ∧ now - hours * 3600000000 <= t <= now)
  ∧ (pac3200_readings db = None → result = []).
Proof.
  simpl. split; [apply get_meter_readings_sorted|].
  pose proof (get_meter_readings_Permutation db id now hours) as Hp.
  split; [|split].
  - intros Hw. by rewrite bool_decide_eq_true_2 in Hp.
  - intros r. rewrite Hp. case_bool_decide as Hw.
    + rewrite list_elem_of_filter, elem_of_in_window. tauto.
    + rewrite elem_of_nil. tauto.
  - intros Hnone. unfold get_meter_readings. rewrite Hnone.
    by repeat case_match.
Qed.

(** X5: removing a meter hides it but keeps its history.  After
    [remove_meter], loading the configuration does not bring the meter
    back into a registry, and the latest-per-meter query has no row for it;
    the range query [get_meter_readings], which does not look at the
    configuration, returns for every meter exactly what it returned
    before. *)
Theorem remove_meter_hides_meter_keeps_history (w : world) (db : database)
    (meters : gmap string PAC3200Meter) (id : string) :
  let db' := (remove_meter w db meters id).1.1.1 in
  (∀ registry, load_meters_config db' registry !! id = registry !! id)
  ∧ rows_of_meter id (get_all_meters_latest db') = []
  ∧ (∀ any now hours,
        get_meter_readings db' any now hours
        = get_meter_readings db any now hours).
Proof.
  simpl. split; [|split].
  - intros registry. rewrite load_meters_config_lookup.
    unfold remove_meter. destruct (meters_config db) as [cfg|] eqn:Hcfg; simpl.
    + by rewrite lookup_delete_eq.
    + by rewrite Hcfg.
  - apply Permutation_nil_r. unfold rows_of_meter.
    rewrite get_all_meters_latest_latest_rows.
    apply Permutation_nil_r, elem_of_nil_inv. intros x Hx.
    apply list_elem_of_filter in Hx as [Hid Hx].
    apply elem_of_latest_rows in Hx
      as (t & cfg' & id' & c & _ & Hcfg' & _ & Hid' & Hc & _).
    rewrite Hid in Hid'. injection Hid' as <-.
    unfold remove_meter in Hcfg'.
    destruct (meters_config db) as [cfg|] eqn:Hcfg; simpl in Hcfg'.
    + injection Hcfg' as <-. by rewrite lookup_delete_eq in Hc.
    + by rewrite Hcfg in Hcfg'.
  - intros any now hours. unfold remove_meter.
    by destruct (meters_config db).
Qed.


(** * Saving, then querying *)

Lemma filtered_data_meter_id db id data :
  "meter_id"%string ∈ table_info db →
  filtered_data db id data !! "meter_id"%string = Some (VText id).
Proof.
  intros Hcol. apply filtered_data_lookup.
  split; [done|]. split; [done|]. split; [done|]. by left.
Qed.

Lemma save_reading_succeeds w db id data now t :
  pac3200_readings db = Some t →
  "meter_id"%string ∈ columns t →
  map_Forall (fun _ v => bindable v = true) data →
  save_reading w db id data now =
  (Some (last_rowid t + 1),
   set_readings db
     {| columns := columns t;
        rows := rows t ++
          [stored_row w t (filtered_data db id data) (last_rowid t + 1) now] |}).
Proof.
  intros Ht Hcol Hb. rewrite save_reading_unfold, Ht.
  assert (Hm : filtered_data db id data !! "meter_id"%string = Some (VText id)).
  { apply filtered_data_meter_id. unfold table_info. by rewrite Ht. }
  rewrite bool_decide_eq_false_2.
  2:{ intros He. rewrite He, lookup_empty in Hm. discriminate Hm. }
  rewrite bool_decide_eq_true_2 by by apply filtered_data_bindable.
  reflexivity.
Qed.

Lemma stored_row_meter_of w t db id data rid now :
  "meter_id"%string ∈ table_info db →
  meter_of (stored_row w t (filtered_data db id data) rid now) = Some id.
Proof.
  intros Hcol. unfold meter_of, row_text.
  by rewrite stored_row_meter_id, filtered_data_meter_id.
Qed.

Lemma stored_row_timestamp_of w t f rid now :
  "timestamp"%string ∈ columns t →
  timestamp_of (stored_row w t f rid now) = Some now.
Proof.
  intros Hcol. unfold timestamp_of, row_int, stored_row.
  rewrite (bool_decide_eq_true_2 _ Hcol). by rewrite lookup_insert_eq.
Qed.

Lemma stored_row_data w t f rid now k v :
  f !! k = Some v → k ≠ "id"%string → k ≠ "timestamp"%string →
  stored_row w t f rid now !! k = stored_value w k v.
Proof. intros Hf H1 H2. by rewrite stored_row_keeps, Hf. Qed.

Lemma filtered_data_not_id db id data k v :
  filtered_data db id data !! k = Some v →
  k ≠ "id"%string ∧ k ≠ "timestamp"%string.
Proof. intros H. apply filtered_data_lookup in H. tauto. Qed.

(** X6: saving a reading makes it visible to the range query.  On a
    reading table with the columns [meter_id] and [timestamp], saving
    bindable data for a meter succeeds, and a query of that meter whose
    window contains the time of the save returns one row more than before:
    a row of that meter, stamped with that time, holding every value the
    save kept as its column holds it (a measurement column, being REAL,
    holds 0.0 for a zero of either sign, the nearest float for an integer
    and the number a numeric text writes).  The result of the query for any
    other meter is what it was. *)
Theorem save_then_get_meter_readings (w : world) (db : database) (id : string)
    (data : gmap string value) (ts now hours : Z) :
  "meter_id"%string ∈ table_info db →
  "timestamp"%string ∈ table_info db →
  map_Forall (fun _ v => bindable v = true) data →
  window_representable now hours →
  now - hours * 3600000000 <= ts <= now →
  let saved := save_reading w db id data ts in
  is_Some saved.1
  ∧ (∃ r, r ∈ get_meter_readings saved.2 id now hours
          ∧ meter_of r = Some id ∧ timestamp_of r = Some ts
          ∧ ∀ k v, filtered_data db id data !! k = Some v →
                   r !! k = stored_value w k v)
  ∧ length (get_meter_readings saved.2 id now hours)
    = S (length (get_meter_readings db id now hours))
  ∧ (∀ other, other ≠ id →
        get_meter_readings saved.2 other now hours
        = get_meter_readings db other now hours).
Proof.
  intros Hmid Hts Hb Hw Hin. simpl.
  destruct (pac3200_readings db) as [t|] eqn:Ht.
  2:{ unfold table_info in Hmid. rewrite Ht in Hmid. by apply elem_of_nil in Hmid. }
  assert (Hmid' : "meter_id"%string ∈ columns t)
    by (unfold table_info in Hmid; by rewrite Ht in Hmid).
  assert (Hts' : "timestamp"%string ∈ columns t)
    by (unfold table_info in Hts; by rewrite Ht in Hts).
  rewrite (save_reading_succeeds w db id data ts t Ht Hmid' Hb). simpl.
  set (r := stored_row w t (filtered_data db id data) (last_rowid t + 1) ts).
  assert (Hrm : meter_of r = Some id) by by apply stored_row_meter_of.
  assert (Hrt : timestamp_of r = Some ts) by by apply stored_row_timestamp_of.
  assert (Hbetween : between (now - hours * 3600000000) now r = true).
  { unfold between. rewrite Hrt. apply andb_true_iff. split; apply Z.leb_le; lia. }
  set (db' := set_readings db _).
  assert (Hwin : in_window db' now hours = in_window db now hours ++ [r]).
  { unfold in_window, reading_rows, db'. simpl. rewrite Ht, filter_app.
    f_equal. by rewrite filter_cons_True, filter_nil. }
  split; [by eexists|]. split; [|split].
  - exists r. split; [|split; [done|split; [done|]]].
    + rewrite get_meter_readings_Permutation, bool_decide_eq_true_2 by done.
      rewrite Hwin, filter_app, elem_of_app. right.
      rewrite filter_cons_True by done. apply list_elem_of_here.
    + intros k v Hk. destruct (filtered_data_not_id _ _ _ _ _ Hk).
      by apply stored_row_data.
  - rewrite !get_meter_readings_Permutation, !bool_decide_eq_true_2 by done.
    rewrite Hwin, filter_app, length_app, filter_cons_True by done.
    simpl. lia.
  - intros other Hother. unfold get_meter_readings, db'. simpl. rewrite Ht.
    destruct (timedelta_hours hours) as [delta|]; [|done].
    destruct (datetime_sub now delta) as [start_time|]; [|done].
    rewrite filter_app, filter_cons_False, filter_nil, app_nil_r; [done|].
    rewrite Hrm. intros [H _]%andb_true_iff.
    apply sql_eq_true in H as (a & [= <-] & [= Ha]). by apply Hother.
Qed.

Lemma save_then_get_meter_readings_witness :
  let saved := save_reading demo_world fresh_database "m1"
                 {[ "Frequency"%string := VFloat (of_int 50) ]} 3000000000 in
  is_Some saved.1
  ∧ (∃ r, r ∈ get_meter_readings saved.2 "m1" 4000000000 1
          ∧ meter_of r = Some "m1"%string ∧ timestamp_of r = Some 3000000000
          ∧ ∀ k v, filtered_data fresh_database "m1"
                     {[ "Frequency"%string := VFloat (of_int 50) ]} !! k = Some v →
                   r !! k = stored_value demo_world k v)
  ∧ length (get_meter_readings saved.2 "m1" 4000000000 1)
    = S (length (get_meter_readings fresh_database "m1" 4000000000 1))
  ∧ (∀ other, other ≠ "m1"%string →
        get_meter_readings saved.2 other 4000000000 1
        = get_meter_readings fresh_database other 4000000000 1).
Proof.
  apply (save_then_get_meter_readings demo_world fresh_database "m1"
           {[ "Frequency"%string := VFloat (of_int 50) ]} 3000000000 4000000000 1).
  - by_computation.
  - by_computation.
  - apply map_Forall_singleton. reflexivity.
  - unfold window_representable, datetime_max. change (1 / 24) with 0. lia.
  - lia.
Defined.


(** X7: saving a reading makes it the meter's latest.  For a meter that
    has a configuration row, on a reading table with the columns
    [meter_id] and [timestamp], saving bindable data at a time later than
    every stored reading of that meter leaves [get_all_meters_latest] with
    exactly one row for the meter: the row just stored, which holds every
    value the save kept as its column holds it (a measurement column is
    REAL), joined with the name and location of the configuration row. *)
Theorem save_then_latest_is_saved_row (w : world) (db : database)
    (cfg : gmap string config_row) (c : config_row) (id : string)
    (data : gmap string value) (ts : Z) :
  meters_config db = Some cfg →
  cfg !! id = Some c →
  "meter_id"%string ∈ table_info db →
  "timestamp"%string ∈ table_info db →
  map_Forall (fun _ v => bindable v = true) data →
  (∀ r0 t0, r0 ∈ reading_rows db → meter_of r0 = Some id →
            timestamp_of r0 = Some t0 → t0 < ts) →
  let saved := save_reading w db id data ts in
  ∃ r, rows_of_meter id (get_all_meters_latest saved.2)
       = [ {| reading := r; meter_name := cfg_name c;
              meter_location := cfg_location c |} ]
       ∧ reading_rows saved.2 = reading_rows db ++ [r]
       ∧ timestamp_of r = Some ts
       ∧ ∀ k v, filtered_data db id data !! k = Some v →
                r !! k = stored_value w k v.
Proof.
  intros Hcfg Hc Hmid Hts Hb Hlater. simpl.
  destruct (pac3200_readings db) as [t|] eqn:Ht.
  2:{ unfold table_info in Hmid. rewrite Ht in Hmid. by apply elem_of_nil in Hmid. }
  assert (Hmid' : "meter_id"%string ∈ columns t)
    by (unfold table_info in Hmid; by rewrite Ht in Hmid).
  assert (Hts' : "timestamp"%string ∈ columns t)
    by (unfold table_info in Hts; by rewrite Ht in Hts).
  assert (Hrows : reading_rows db = rows t) by (unfold reading_rows; by rewrite Ht).
  rewrite Hrows in Hlater.
  rewrite (save_reading_succeeds w db id data ts t Ht Hmid' Hb). simpl.
  set (r := stored_row w t (filtered_data db id data) (last_rowid t + 1) ts).
  assert (Hrm : meter_of r = Some id) by by apply stored_row_meter_of.
  assert (Hrt : timestamp_of r = Some ts) by by apply stored_row_timestamp_of.
  exists r. split; [|split; [|split]].
  - assert (Hmax : max_timestamp (rows t ++ [r]) id = Some ts).
    { apply max_timestamp_Some. split.
      - exists r. split; [|done]. apply elem_of_app. right. apply list_elem_of_here.
      - intros r0 t0 [Hin|Hin]%elem_of_app Hm0 Ht0.
        + specialize (Hlater r0 t0 Hin Hm0 Ht0). lia.
        + apply list_elem_of_singleton in Hin as ->.
          rewrite Hrt in Ht0. injection Ht0 as <-. lia. }
    apply Permutation_singleton_r. unfold rows_of_meter.
    rewrite get_all_meters_latest_latest_rows.
    unfold latest_rows. simpl. rewrite Hcfg.
    rewrite bind_app, filter_app.
    replace (filter _ (rows t ≫= _)) with (@nil latest_row).
    + simpl. rewrite app_nil_r, Hrm, Hc.
      replace (is_latest (rows t ++ [r]) r) with true.
      * by rewrite filter_cons_True, filter_nil.
      * symmetry. apply is_latest_true. by exists id, ts.
    + symmetry. apply elem_of_nil_inv. intros x Hx.
      apply list_elem_of_filter in Hx as [Hxid Hx].
      apply list_elem_of_bind in Hx as (r0 & Hx & Hr0).
      destruct (meter_of r0) as [id0|] eqn:Hm0; [|by apply elem_of_nil in Hx].
      destruct (cfg !! id0) as [c0|]; [|by apply elem_of_nil in Hx].
      destruct (is_latest (rows t ++ [r]) r0) eqn:Hl; [|by apply elem_of_nil in Hx].
      apply list_elem_of_singleton in Hx as ->. simpl in Hxid.
      rewrite Hm0 in Hxid. injection Hxid as ->.
      apply is_latest_true in Hl as (id1 & ts1 & Hid1 & Hts1 & Hmax1).
      rewrite Hm0 in Hid1. injection Hid1 as <-.
      rewrite Hmax in Hmax1. injection Hmax1 as <-.
      specialize (Hlater r0 ts Hr0 Hm0 Hts1). lia.
  - unfold reading_rows. simpl. by rewrite Ht.
  - done.
  - intros k v Hk. destruct (filtered_data_not_id _ _ _ _ _ Hk).
    by apply stored_row_data.
Qed.

Lemma save_then_latest_is_saved_row_witness :
  let saved := save_reading demo_world tied_and_orphaned "m1"
                 {[ "Frequency"%string := VFloat (of_int 50) ]} 8000000 in
  ∃ r, rows_of_meter "m1" (get_all_meters_latest saved.2)
       = [ {| reading := r; meter_name := "Main feeder";
              meter_location := Some "Hall 2"%string |} ]
       ∧ reading_rows saved.2 = reading_rows tied_and_orphaned ++ [r]
       ∧ timestamp_of r = Some 8000000
       ∧ ∀ k v, filtered_data tied_and_orphaned "m1"
                  {[ "Frequency"%string := VFloat (of_int 50) ]} !! k = Some v →
                r !! k = stored_value demo_world k v.
Proof.
  apply (save_then_latest_is_saved_row demo_world tied_and_orphaned
           {[ "m1"%string := config_of "Main feeder" "Hall 2" ]}
           (config_of "Main feeder" "Hall 2") "m1"
           {[ "Frequency"%string := VFloat (of_int 50) ]} 8000000).
  - reflexivity.
  - reflexivity.
  - by_computation.
  - by_computation.
  - apply map_Forall_singleton. reflexivity.
  - intros r0 t0 Hin _ Ht0.
    repeat (apply elem_of_cons in Hin as [->|Hin]);
      try (vm_compute in Ht0; injection Ht0 as <-; reflexivity).
    by apply elem_of_nil in Hin.
Defined.

Lemma foldr_max_bound (l : list Z) :
  0 <= foldr Z.max 0 l ∧ ∀ i, i ∈ l → i <= foldr Z.max 0 l.
Proof.
  induction l as [|x l [IH0 IH]]; simpl.
  - split; [lia|]. intros i Hi. by apply elem_of_nil in Hi.
  - split; [lia|]. intros i [->|Hi]%elem_of_cons; [lia|].
    specialize (IH i Hi). lia.
Qed.

Lemma last_rowid_bound t :
  0 <= last_rowid t
  ∧ ∀ r i, r ∈ rows t → row_int r "id" = Some i → i <= last_rowid t.
Proof.
  unfold last_rowid.
  destruct (foldr_max_bound (omap (fun r => row_int r "id") (rows t))) as [H0 H].
  split; [done|]. intros r i Hr Hi. apply H.
  apply list_elem_of_omap. by exists r.
Qed.

(** X8: row ids are fresh.  The id [save_reading] returns is positive and
    larger than the id of every stored row; on a table with an [id] column
    it is the id of the row appended.  So if no two stored rows share an
    id, the same holds after the save, whether it succeeds or not. *)
Theorem save_reading_row_id_is_fresh (w : world) (db : database) (id : string)
    (data : gmap string value) (ts : Z) :
  NoDup (omap (fun r => row_int r "id") (reading_rows db)) →
  let saved := save_reading w db id data ts in
  NoDup (omap (fun r => row_int r "id") (reading_rows saved.2))
  ∧ ∀ rid, saved.1 = Some rid →
      0 < rid
      ∧ (∀ r i, r ∈ reading_rows db → row_int r "id" = Some i → i < rid)
      ∧ ∃ r, reading_rows saved.2 = reading_rows db ++ [r]
             ∧ row_int r "id"
               = if bool_decide ("id"%string ∈ table_info db)
                 then Some rid else None.
Proof.
  intros Hnd. simpl. rewrite save_reading_unfold.
  destruct (pac3200_readings db) as [t|] eqn:Ht; [|split; [done|intros ? [=]]].
  assert (Hrows : reading_rows db = rows t) by (unfold reading_rows; by rewrite Ht).
  assert (Hcols : table_info db = columns t) by (unfold table_info; by rewrite Ht).
  case_bool_decide as He; [split; [done|intros ? [=]]|].
  case_bool_decide as Hb; [|split; [done|intros ? [=]]].
  simpl. destruct (last_rowid_bound t) as [H0 Hle].
  set (f := filtered_data db id data).
  set (r := stored_row w t f (last_rowid t + 1) ts).
  assert (Hfid : f !! "id"%string = None).
  { destruct (f !! "id"%string) as [v|] eqn:Hv; [|done].
    apply filtered_data_not_id in Hv. by destruct Hv. }
  assert (Hrid : row_int r "id"
                 = if bool_decide ("id"%string ∈ columns t)
                   then Some (last_rowid t + 1) else None).
  { unfold r, row_int, stored_row.
    destruct (bool_decide ("timestamp"%string ∈ columns t));
      [rewrite lookup_insert_ne by done|];
      (case_bool_decide;
       [by rewrite lookup_insert_eq|by rewrite map_lookup_imap, Hfid]). }
  assert (Hrows' : reading_rows (set_readings db
             {| columns := columns t; rows := rows t ++ [r] |}) = rows t ++ [r])
    by reflexivity.
  rewrite Hrows', Hrows in *. split.
  - rewrite omap_app. simpl. rewrite Hrid.
    case_bool_decide; simpl; [|by rewrite app_nil_r].
    apply NoDup_app. split; [done|]. split; [|apply NoDup_singleton].
    intros i Hi ->%list_elem_of_singleton.
    apply list_elem_of_omap in Hi as (r0 & Hr0 & Hi).
    specialize (Hle r0 _ Hr0 Hi). lia.
  - intros rid [= <-]. split; [lia|]. split.
    + intros r0 i Hr0 Hi. specialize (Hle r0 i Hr0 Hi). lia.
    + exists r. split; [done|]. by rewrite Hcols.
Qed.

Lemma save_reading_row_id_is_fresh_witness :
  let saved := save_reading demo_world tied_and_orphaned "m1"
                 {[ "Frequency"%string := VFloat (of_int 50) ]} 8000000 in
  NoDup (omap (fun r => row_int r "id") (reading_rows saved.2))
  ∧ ∀ rid, saved.1 = Some rid →
      0 < rid
      ∧ (∀ r i, r ∈ reading_rows tied_and_orphaned →
                row_int r "id" = Some i → i < rid)
      ∧ ∃ r, reading_rows saved.2 = reading_rows tied_and_orphaned ++ [r]
             ∧ row_int r "id"
               = if bool_decide ("id"%string ∈ table_info tied_and_orphaned)
                 then Some rid else None.
Proof.
  apply (save_reading_row_id_is_fresh demo_world tied_and_orphaned "m1"
           {[ "Frequency"%string := VFloat (of_int 50) ]} 8000000).
  by_computation.
Defined.


(** * Constructing and resetting the dashboard *)

Lemma get_meter_readings_no_rows db id now hours :
  reading_rows db = [] → get_meter_readings db id now hours = [].
Proof.
  unfold reading_rows, get_meter_readings. intros Hr.
  destruct (timedelta_hours hours) as [delta|]; [|done].
  destruct (datetime_sub now delta) as [start_time|]; [|done].
  destruct (pac3200_readings db) as [t|]; [|done].
  rewrite Hr. reflexivity.
Qed.

Lemma get_all_meters_latest_no_rows db :
  reading_rows db = [] → get_all_meters_latest db = [].
Proof.
  unfold reading_rows, get_all_meters_latest. intros Hr.
  destruct (pac3200_readings db) as [t|]; [|done].
  destruct (meters_config db) as [cfg|]; [|done].
  rewrite Hr. reflexivity.
Qed.

(** X9: what a new dashboard object starts with.  Whatever the database
    file holds, the registry the constructor leaves has one meter per
    configuration row and nothing else, each built from its row and not
    connected, with no client and no last reading.  Unless initialisation
    failed (the backup name was taken, and then the database is untouched)
    the reading table is empty, so both the range query and the
    latest-per-meter query return nothing: readings stored by an earlier
    dashboard object are not seen by a new one. *)
Theorem new_dashboard_registry_and_readings (db : database) :
  let d := new_dashboard db in
  (∀ id, d.2 !! id = meter_of_config id <$> (default ∅ (meters_config db) !! id))
  ∧ (∀ id m, d.2 !! id = Some m →
       meter_id m = id ∧ connected m = false ∧ client m = None
       ∧ last_reading m = None)
  ∧ (if backup_name_taken db then d.1 = db
     else reading_rows d.1 = []
          ∧ get_all_meters_latest d.1 = []
          ∧ ∀ id now hours, get_meter_readings d.1 id now hours = []).
Proof.
  unfold new_dashboard. simpl.
  assert (Hreg : ∀ id, load_meters_config (init_database db).1 ∅ !! id
                       = meter_of_config id <$> (default ∅ (meters_config db) !! id)).
  { intros id. rewrite load_meters_config_lookup, (init_database_cases db).
    destruct (backup_name_taken db); simpl.
    - destruct (meters_config db) as [cfg|]; simpl.
      + by destruct (cfg !! id).
      + by rewrite lookup_empty.
    - by destruct (default ∅ (meters_config db) !! id). }
  split; [exact Hreg|]. split.
  - intros id m Hm. rewrite Hreg in Hm.
    destruct (default ∅ (meters_config db) !! id) as [row|]; [|discriminate Hm].
    injection Hm as <-. done.
  - rewrite (init_database_cases db).
    destruct (backup_name_taken db); simpl; [done|].
    split; [done|]. split.
    + by apply get_all_meters_latest_no_rows.
    + intros. by apply get_meter_readings_no_rows.
Qed.

(** X10: the "Reset Database" handler changes nothing unless, in one run
    of the script, its button reports a click and the checkbox under it is
    ticked.  In such a run it brings any database, with any tables, rows
    and index (the state in which initialisation alone fails included), to
    the database of a first start: an empty configuration table, an empty
    reading table with its index, no backup table; the registry and the
    selection are emptied and every meter object is left disconnected. *)
Theorem reset_database_gives_fresh_database (w : world) (button checkbox : bool)
    (db : database) (meters : gmap string PAC3200Meter)
    (selected_meters : list string) :
  let r := reset_database w button checkbox db meters selected_meters in
  if button && checkbox then
    r.1.1.1 = fresh_database
    ∧ r.1.1.2 = ∅ ∧ r.1.2 = []
    ∧ init_database r.1.1.1 = (fresh_database, true)
    ∧ (∀ id, is_Some (r.2 !! id) ↔ is_Some (meters !! id))
    ∧ (∀ id m, r.2 !! id = Some m → connected m = false)
  else r = (db, meters, selected_meters, meters).
Proof.
  unfold reset_database. destruct button, checkbox; cbn [andb]; try reflexivity.
  cbv zeta. cbn [fst snd].
  assert (Hdb : drop_meters_config (drop_readings_backup (drop_readings db))
                = empty_database).
  { unfold drop_meters_config, drop_readings_backup, drop_readings, empty_database.
    simpl. f_equal.
    destruct (idx_readings_meter_timestamp db) as [i|]; [|done].
    destruct (index_table i) eqn:Hi; simpl; [done|by rewrite Hi]. }
  rewrite Hdb. split; [done|]. split; [done|]. split; [done|].
  split; [reflexivity|]. split.
  - intros id. by rewrite lookup_fmap, fmap_is_Some.
  - intros id m. rewrite lookup_fmap.
    destruct (meters !! id); simpl; [|done]. by intros [= <-].
Qed.



(** * A batch read and its row *)

Lemma read_all_parameters_entry w m n k :
  k ∈ dict_keys registers →
  ∃ i a, registers !! i = Some (k, a)
         ∧ (read_all_parameters w m n).1.1 !! k
           = Some (of_optional (read_float32_register w m (n + i) a)).
Proof.
  intros Hin. rewrite read_all_parameters_data.
  apply list_elem_of_fmap in Hin as ([k' a] & -> & Hin).
  apply list_elem_of_lookup in Hin as [i Hi].
  exists i, a. split; [done|].
  apply read_loop_entry; [apply registers_NoDup|done].
Qed.

Lemma read_all_parameters_key w m n k v :
  (read_all_parameters w m n).1.1 !! k = Some v → k ∈ dict_keys registers.
Proof.
  intros Hk. rewrite read_all_parameters_data in Hk.
  destruct (decide (k ∈ dict_keys registers)) as [|Hn]; [done|].
  rewrite read_loop_other, lookup_empty in Hk by done. discriminate Hk.
Qed.

Lemma read_all_parameters_value w m n k v :
  (read_all_parameters w m n).1.1 !! k = Some v →
  ∃ o : option spec_float, v = of_optional o.
Proof.
  intros Hk.
  destruct (read_all_parameters_entry w m n k) as (i & a & _ & He);
    [by eapply read_all_parameters_key|].
  rewrite He in Hk. injection Hk as <-. eauto.
Qed.

Lemma read_all_parameters_bindable w m n :
  map_Forall (fun _ v => bindable v = true) (read_all_parameters w m n).1.1.
Proof.
  intros k v Hk. apply read_all_parameters_value in Hk as [o ->].
  by destruct o.
Qed.

Lemma read_all_parameters_nonempty w m n :
  (read_all_parameters w m n).1.1 ≠ ∅.
Proof.
  intros He.
  destruct (read_all_parameters_entry w m n "Frequency") as (i & a & _ & Hk);
    [by_computation|].
  rewrite He, lookup_empty in Hk. discriminate Hk.
Qed.

Lemma read_all_parameters_calls w m n :
  (read_all_parameters w m n).2 = (n + 80)%nat.
Proof.
  unfold read_all_parameters.
  pose proof (read_loop_counter w m registers n ∅) as Hc.
  rewrite registers_length in Hc.
  destruct (read_loop w m registers n ∅) as [data n']. exact Hc.
Qed.

Lemma read_all_parameters_connected w m n :
  connected (read_all_parameters w m n).1.2 = connected m.
Proof.
  unfold read_all_parameters. by destruct (read_loop w m registers n ∅).
Qed.

Lemma registers_in_schema k :
  k ∈ dict_keys registers →
  k ∈ measurement_columns
  ∧ k ≠ "id"%string ∧ k ≠ "timestamp"%string ∧ k ≠ "meter_id"%string.
Proof.
  assert (H : Forall (fun k => k ∈ measurement_columns
                ∧ k ≠ "id"%string ∧ k ≠ "timestamp"%string
                ∧ k ≠ "meter_id"%string) (dict_keys registers))
    by by_computation.
  rewrite Forall_forall in H. apply H.
Qed.

Lemma real_affinity_invalid w v : is_valid v = false → real_affinity w v = None.
Proof. by destruct v as [| |[]|]. Qed.

Lemma batch_row_lookup w db id data t rid now k v :
  table_info db = columns t →
  readings_columns ⊆ columns t →
  k ∈ dict_keys registers →
  data !! k = Some v →
  stored_row w t (filtered_data db id data) rid now !! k = real_affinity w v.
Proof.
  intros Hti Hcols Hk Hv.
  destruct (registers_in_schema k Hk) as (Hm & Hid & Hts & Hmid).
  rewrite stored_row_keeps by done.
  assert (Hcol : k ∈ table_info db).
  { rewrite Hti. apply Hcols. unfold readings_columns.
    apply elem_of_app. by right. }
  destruct (is_valid v) eqn:Hvalid.
  - assert (Hf : filtered_data db id data !! k = Some v).
    { apply filtered_data_lookup. repeat split; try done. right. done. }
    rewrite Hf. cbn [mbind option_bind]. unfold stored_value.
    by rewrite bool_decide_eq_true_2.
  - rewrite real_affinity_invalid by done.
    destruct (filtered_data db id data !! k) as [v'|] eqn:Hf; [|done].
    apply filtered_data_lookup in Hf as (_ & _ & _ & [[? _]|(_ & Hv' & Hvalid')]);
      [done|]. rewrite Hv in Hv'. injection Hv' as <-. congruence.
Qed.

Lemma save_batch w db id data now :
  readings_columns ⊆ table_info db →
  map_Forall (fun _ v => bindable v = true) data →
  (∀ k v, data !! k = Some v → k ∈ dict_keys registers) →
  is_Some (save_reading w db id data now).1
  ∧ ∃ r, reading_rows (save_reading w db id data now).2 = reading_rows db ++ [r]
         ∧ meter_of r = Some id ∧ timestamp_of r = Some now
         ∧ ∀ k v, data !! k = Some v → r !! k = real_affinity w v.
Proof.
  intros Hcols Hb Hkeys.
  destruct (pac3200_readings db) as [t|] eqn:Ht.
  2:{ exfalso. unfold table_info in Hcols. rewrite Ht in Hcols.
      assert (H : "id"%string ∈ @nil string)
        by (apply Hcols; by_computation).
      by apply elem_of_nil in H. }
  assert (Hti : table_info db = columns t) by (unfold table_info; by rewrite Ht).
  rewrite Hti in Hcols.
  assert (Hmid : "meter_id"%string ∈ columns t) by (apply Hcols; by_computation).
  assert (Hts : "timestamp"%string ∈ columns t) by (apply Hcols; by_computation).
  rewrite (save_reading_succeeds w db id data now t Ht Hmid Hb).
  cbn [fst snd].
  split; [by eexists|]. eexists. split; [|split; [|split]].
  - unfold reading_rows, set_readings. cbn [pac3200_readings rows]. by rewrite Ht.
  - apply stored_row_meter_of. by rewrite Hti.
  - by apply stored_row_timestamp_of.
  - intros k v Hk. apply batch_row_lookup; try done. by eapply Hkeys.
Qed.

(** X11: nothing a batch read delivers is lost on the way to the table.
    Every parameter name of the register map is a measurement column of
    the reading table [init_database] creates.  So on a table with those
    columns, saving the result of [read_all_parameters] always succeeds
    and appends one row of the meter, stamped with the time of the save,
    in which every parameter holds what a REAL column holds of its value:
    the float itself for a finite float other than zero and for an
    infinite one, 0.0 for a zero of either sign, and NULL for [None] and
    for NaN. *)
Theorem batch_read_is_stored_completely (w : world) (m : PAC3200Meter) (n : nat)
    (db : database) (id : string) (now : Z) :
  readings_columns ⊆ table_info db →
  let data := (read_all_parameters w m n).1.1 in
  let saved := save_reading w db id data now in
  (∀ k, k ∈ dict_keys registers → k ∈ measurement_columns)
  ∧ is_Some saved.1
  ∧ ∃ r, reading_rows saved.2 = reading_rows db ++ [r]
         ∧ meter_of r = Some id ∧ timestamp_of r = Some now
         ∧ ∀ k o, data !! k = Some (of_optional o) →
                  r !! k = match o with
                           | None | Some S754_nan => None
                           | Some (S754_zero _) => Some (VFloat (S754_zero false))
                           | Some f => Some (VFloat f)
                           end.
Proof.
  intros Hcols data saved.
  split; [intros k Hk; by apply registers_in_schema|].
  destruct (save_batch w db id data now Hcols) as (Hs & r & Hr & Hm & Hts & Hv).
  { apply read_all_parameters_bindable. }
  { intros k v. apply read_all_parameters_key. }
  split; [exact Hs|]. exists r. split; [exact Hr|]. split; [exact Hm|].
  split; [exact Hts|]. intros k o Hk. rewrite (Hv k _ Hk).
  by destruct o as [[]|].
Qed.

Lemma batch_read_is_stored_completely_witness :
  let data := (read_all_parameters demo_world m1 0).1.1 in
  let saved := save_reading demo_world fresh_database "m1" data 7000000 in
  (∀ k, k ∈ dict_keys registers → k ∈ measurement_columns)
  ∧ is_Some saved.1
  ∧ ∃ r, reading_rows saved.2 = reading_rows fresh_database ++ [r]
         ∧ meter_of r = Some "m1"%string ∧ timestamp_of r = Some 7000000
         ∧ ∀ k o, data !! k = Some (of_optional o) →
                  r !! k = match o with
                           | None | Some S754_nan => None
                           | Some (S754_zero _) => Some (VFloat (S754_zero false))
                           | Some f => Some (VFloat f)
                           end.
Proof.
  apply (batch_read_is_stored_completely demo_world m1 0 fresh_database "m1" 7000000).
  intros k Hk. exact Hk.
Defined.

(** X12: a simulated batch has no gap.  Without the Modbus library, in an
    environment whose clock, sine and normal sample are finite floats of
    plausible size, [read_all_parameters] gives every parameter of the
    register map a finite float, whether or not the meter is connected. *)
Theorem simulated_batch_is_complete (w : world) (m : PAC3200Meter) (n : nat)
    (k : string) :
  MODBUS_AVAILABLE w = false →
  plausible w →
  k ∈ dict_keys registers →
  ∃ f, (read_all_parameters w m n).1.1 !! k = Some (VFloat f)
       ∧ is_finite f = true.
Proof.
  intros Hsim Hw Hk.
  destruct (read_all_parameters_entry w m n k Hk) as (i & a & _ & He).
  pose proof (read_float32_register_finite w m (n + i) a Hw) as Hf.
  assert (Hs : is_Some (read_float32_register w m (n + i) a)).
  { unfold read_float32_register. rewrite Hsim. simpl. by eexists. }
  destruct Hs as [f Hr]. rewrite Hr in Hf, He. by exists f.
Qed.

Lemma simulated_batch_is_complete_witness :
  ∃ f, (read_all_parameters demo_world m1 0).1.1 !! "Frequency"%string
       = Some (VFloat f)
       ∧ is_finite f = true.
Proof.
  apply (simulated_batch_is_complete demo_world m1 0 "Frequency").
  - reflexivity.
  - split; intros; vm_compute; reflexivity.
  - by_computation.
Defined.


(** * The collection handlers *)

Lemma truthy_next_rowid t : truthy (Some (last_rowid t + 1)) = true.
Proof.
  destruct (last_rowid_bound t) as [H0 _]. simpl.
  apply negb_true_iff, Z.eqb_neq. lia.
Qed.

Lemma collect_meter_read w clock s id m :
  "meter_id"%string ∈ table_info (col_db s) →
  connected m || negb (MODBUS_AVAILABLE w) = true →
  let s' := collect_meter w clock s id m in
  "meter_id"%string ∈ table_info (col_db s')
  ∧ collected s' = S (collected s) ∧ failed s' = failed s
  ∧ col_calls s' = (col_calls s + 80)%nat
  ∧ col_meters s' = <[id := (read_all_parameters w m (col_calls s)).1.2]> (col_meters s)
  ∧ ∃ r, reading_rows (col_db s') = reading_rows (col_db s) ++ [r]
         ∧ meter_of r = Some id.
Proof.
  intros Hcol Hready. cbv zeta. unfold collect_meter. rewrite Hready.
  pose proof (read_all_parameters_nonempty w m (col_calls s)) as Hne.
  pose proof (read_all_parameters_bindable w m (col_calls s)) as Hb.
  pose proof (read_all_parameters_calls w m (col_calls s)) as Hn.
  destruct (read_all_parameters w m (col_calls s)) as [[data m'] n'].
  simpl in Hne, Hb, Hn. subst n'.
  rewrite bool_decide_eq_false_2 by done.
  destruct (pac3200_readings (col_db s)) as [t|] eqn:Ht.
  2:{ unfold table_info in Hcol. rewrite Ht in Hcol. by apply elem_of_nil in Hcol. }
  assert (Hcol' : "meter_id"%string ∈ columns t)
    by (unfold table_info in Hcol; by rewrite Ht in Hcol).
  rewrite (save_reading_succeeds w _ id data _ t Ht Hcol' Hb), truthy_next_rowid.
  simpl. split; [done|]. split; [done|]. split; [done|]. split; [done|].
  split; [done|]. eexists. split.
  - unfold reading_rows. simpl. by rewrite Ht.
  - by apply stored_row_meter_of.
Qed.

Lemma collect_meter_skip w clock s id m :
  connected m || negb (MODBUS_AVAILABLE w) = false →
  collect_meter w clock s id m
  = {| col_db := col_db s; col_meters := col_meters s; col_calls := col_calls s;
       collected := collected s; failed := S (failed s) |}.
Proof. intros Hready. unfold collect_meter. by rewrite Hready. Qed.

Lemma collect_all_fold w clock items s :
  "meter_id"%string ∈ table_info (col_db s) →
  let s' := foldl (fun s '(meter_id, meter) => collect_meter w clock s meter_id meter)
                  s items in
  let read := filter (fun im : string * PAC3200Meter =>
                        connected im.2 || negb (MODBUS_AVAILABLE w) = true) items in
  collected s' = (collected s + length read)%nat
  ∧ (failed s' + length read = failed s + length items)%nat
  ∧ col_calls s' = (col_calls s + 80 * length read)%nat
  ∧ ∃ new, reading_rows (col_db s') = reading_rows (col_db s) ++ new
           ∧ meter_of <$> new = (fun im => Some im.1) <$> read.
Proof.
  revert s. induction items as [|[id m] items IH]; intros s Hcol; simpl.
  - repeat split; try lia. exists []. by rewrite app_nil_r.
  - destruct (connected m || negb (MODBUS_AVAILABLE w)) eqn:Hready.
    + destruct (collect_meter_read w clock s id m Hcol Hready)
        as (Hcol' & Hc & Hf & Hn & _ & r & Hr & Hrm).
      destruct (IH _ Hcol') as (IHc & IHf & IHn & new & IHr & IHm).
      rewrite filter_cons_True by done. cbn [length].
      rewrite IHc, IHn, Hc, Hn. split; [lia|]. split; [lia|]. split; [lia|].
      exists (r :: new). rewrite IHr, Hr, <- app_assoc. split; [done|].
      rewrite !fmap_cons, Hrm, IHm. reflexivity.
    + rewrite collect_meter_skip by done.
      destruct (IH {| col_db := col_db s; col_meters := col_meters s;
                      col_calls := col_calls s; collected := collected s;
                      failed := S (failed s) |} Hcol)
        as (IHc & IHf & IHn & new & IHr & IHm).
      rewrite filter_cons_False by (simpl; congruence). simpl in *.
      split; [done|]. split; [lia|]. split; [done|]. by exists new.
Qed.

(** X13: the "Collect All" handler accounts for every meter once.  On a
    reading table with a [meter_id] column, a meter is counted as collected
    exactly when it is connected or the Modbus library is absent, whatever
    its register reads gave, and as failed otherwise; the two counters add
    up to the number of meters.  One row is stored for every collected
    meter, in the order of the loop, and none for a failed one; every
    collected meter costs 80 register reads. *)
Theorem collect_all_counts (w : world) (clock : nat → Z) (db : database)
    (meters : gmap string PAC3200Meter) (items : list (string * PAC3200Meter))
    (n : nat) :
  "meter_id"%string ∈ table_info db →
  items ≡ₚ map_to_list meters →
  let s := collect_all w clock db meters items n in
  let read := filter (fun im : string * PAC3200Meter =>
                        connected im.2 || negb (MODBUS_AVAILABLE w) = true) items in
  collected s = length read
  ∧ (collected s + failed s = size meters)%nat
  ∧ col_calls s = (n + 80 * collected s)%nat
  ∧ ∃ new, reading_rows (col_db s) = reading_rows db ++ new
           ∧ meter_of <$> new = (fun im => Some im.1) <$> read.
Proof.
  intros Hcol Hitems. simpl. unfold collect_all.
  destruct (collect_all_fold w clock items (start_collection db meters n) Hcol)
    as (Hc & Hf & Hn & new & Hr & Hm).
  simpl in *. rewrite Hc, Hn. split; [done|]. split; [|split; [done|by exists new]].
  rewrite <- length_map_to_list, <- Hitems. lia.
Qed.

Lemma collect_all_counts_witness :
  let meters : gmap string PAC3200Meter := {[ "m1"%string := m1 ]} in
  let s := collect_all demo_world (fun _ => 7000000) fresh_database meters
             [("m1"%string, m1)] 0 in
  let read := filter (fun im : string * PAC3200Meter =>
                        connected im.2 || negb (MODBUS_AVAILABLE demo_world) = true)
                     [("m1"%string, m1)] in
  collected s = length read
  ∧ (collected s + failed s = size meters)%nat
  ∧ col_calls s = (0 + 80 * collected s)%nat
  ∧ ∃ new, reading_rows (col_db s) = reading_rows fresh_database ++ new
           ∧ meter_of <$> new = (fun im => Some im.1) <$> read.
Proof.
  apply (collect_all_counts demo_world (fun _ => 7000000) fresh_database
           {[ "m1"%string := m1 ]} [("m1"%string, m1)] 0).
  - by_computation.
  - rewrite map_to_list_singleton. reflexivity.
Defined.


Lemma readable_ext w (ms1 ms2 : gmap string PAC3200Meter) id :
  connected <$> ms1 !! id = connected <$> ms2 !! id →
  readable w ms1 id = readable w ms2 id
  ∧ unreadable w ms1 id = unreadable w ms2 id.
Proof.
  unfold readable, unreadable.
  destruct (ms1 !! id), (ms2 !! id); simpl; intros [=]; [|done].
  split; congruence.
Qed.

Lemma filter_registered_split w (meters : gmap string PAC3200Meter) sel :
  (length (filter (fun id => readable w meters id = true) sel)
   + length (filter (fun id => unreadable w meters id = true) sel)
   = length (filter (fun id => is_Some (meters !! id)) sel))%nat.
Proof.
  induction sel as [|id sel IH]; [done|].
  rewrite !filter_cons. unfold readable, unreadable in *.
  destruct (meters !! id) as [m|]; simpl.
  - destruct (decide (is_Some (Some m))) as [_|Hn]; [|by destruct Hn].
    destruct (connected m || negb (MODBUS_AVAILABLE w)); simpl;
      repeat case_decide; try done; simpl; lia.
  - destruct (decide (is_Some (@None PAC3200Meter))) as [[? [=]]|_].
    repeat case_decide; try done.
Qed.

Lemma collect_selected_fold w clock meters0 sel s :
  "meter_id"%string ∈ table_info (col_db s) →
  (∀ j, connected <$> col_meters s !! j = connected <$> meters0 !! j) →
  let s' := foldl (fun s meter_id =>
                     match col_meters s !! meter_id with
                     | Some meter => collect_meter w clock s meter_id meter
                     | None => s
                     end) s sel in
  let read := filter (fun id => readable w meters0 id = true) sel in
  collected s' = (collected s + length read)%nat
  ∧ failed s'
    = (failed s + length (filter (fun id => unreadable w meters0 id = true) sel))%nat
  ∧ col_calls s' = (col_calls s + 80 * length read)%nat
  ∧ (∀ j, connected <$> col_meters s' !! j = connected <$> meters0 !! j)
  ∧ ∃ new, reading_rows (col_db s') = reading_rows (col_db s) ++ new
           ∧ meter_of <$> new = Some <$> read.
Proof.
  revert s. induction sel as [|id sel IH]; intros s Hcol Hinv; simpl.
  - repeat split; try lia; try done. exists []. by rewrite app_nil_r.
  - destruct (readable_ext w (col_meters s) meters0 id (Hinv id)) as [Hre Hun].
    unfold readable at 1 in Hre. unfold unreadable at 1 in Hun.
    destruct (col_meters s !! id) as [m|] eqn:Hm.
    + destruct (connected m || negb (MODBUS_AVAILABLE w)) eqn:Hready;
        simpl in Hre, Hun; symmetry in Hre, Hun.
      * destruct (collect_meter_read w clock s id m Hcol Hready)
          as (Hcol' & Hc & Hf & Hn & Hms & r & Hr & Hrm).
        assert (Hinv' : ∀ j, connected <$> col_meters (collect_meter w clock s id m) !! j
                             = connected <$> meters0 !! j).
        { intros j. rewrite Hms. destruct (decide (j = id)) as [->|Hne].
          - rewrite lookup_insert_eq, <- Hinv, Hm. cbn [fmap option_fmap option_map].
            by rewrite read_all_parameters_connected.
          - by rewrite lookup_insert_ne. }
        destruct (IH _ Hcol' Hinv') as (IHc & IHf & IHn & IHi & new & IHr & IHm).
        rewrite IHc, IHf, IHn, Hc, Hf, Hn.
        rewrite (filter_cons_True (fun id => readable w meters0 id = true)) by exact Hre.
        rewrite (filter_cons_False (fun id => unreadable w meters0 id = true)) by (rewrite Hun; discriminate).
        cbn [length].
        split; [lia|]. split; [lia|]. split; [lia|]. split; [done|].
        exists (r :: new). rewrite IHr, Hr, <- app_assoc. split; [done|].
        by rewrite !fmap_cons, Hrm, IHm.
      * rewrite collect_meter_skip by done.
        destruct (IH {| col_db := col_db s; col_meters := col_meters s;
                        col_calls := col_calls s; collected := collected s;
                        failed := S (failed s) |} Hcol Hinv)
          as (IHc & IHf & IHn & IHi & new & IHr & IHm).
        rewrite (filter_cons_True (fun id => unreadable w meters0 id = true)) by exact Hun.
        rewrite (filter_cons_False (fun id => readable w meters0 id = true)) by (rewrite Hre; discriminate).
        cbn [length col_db col_meters col_calls collected failed] in *.
        split; [done|]. split; [lia|]. split; [done|]. split; [done|].
        by exists new.
    + destruct (IH s Hcol Hinv) as (IHc & IHf & IHn & IHi & new & IHr & IHm).
      symmetry in Hre, Hun.
      rewrite (filter_cons_False (fun id => readable w meters0 id = true)) by (rewrite Hre; discriminate).
      rewrite (filter_cons_False (fun id => unreadable w meters0 id = true)) by (rewrite Hun; discriminate).
      split; [done|]. split; [done|]. split; [done|]. split; [done|].
      by exists new.
Qed.

(** X14: the "Collect Selected" handler passes over ids that are not in
    the registry: they are counted neither as collected nor as failed, and
    nothing is read or stored for them.  On a reading table with a
    [meter_id] column, every occurrence of a registered id in the selection
    is counted once, as collected when its meter is connected or the Modbus
    library is absent and as failed otherwise; one row is stored per
    collected occurrence, in the order of the selection, and the registry
    keeps its ids and their connection flags. *)
Theorem collect_selected_counts (w : world) (clock : nat → Z) (db : database)
    (meters : gmap string PAC3200Meter) (selected_meters : list string)
    (n : nat) :
  "meter_id"%string ∈ table_info db →
  let s := collect_selected w clock db meters selected_meters n in
  let read := filter (fun id => readable w meters id = true) selected_meters in
  collected s = length read
  ∧ failed s
    = length (filter (fun id => unreadable w meters id = true) selected_meters)
  ∧ (collected s + failed s
     = length (filter (fun id => is_Some (meters !! id)) selected_meters))%nat
  ∧ col_calls s = (n + 80 * collected s)%nat
  ∧ (∀ id, connected <$> col_meters s !! id = connected <$> meters !! id)
  ∧ ∃ new, reading_rows (col_db s) = reading_rows db ++ new
           ∧ meter_of <$> new = Some <$> read.
Proof.
  intros Hcol. simpl. unfold collect_selected.
  destruct (collect_selected_fold w clock meters selected_meters
              (start_collection db meters n) Hcol)
    as (Hc & Hf & Hn & Hi & new & Hr & Hm); [done|].
  simpl in *. rewrite Hc, Hf, Hn.
  split; [done|]. split; [done|]. split; [apply filter_registered_split|].
  split; [done|]. split; [done|]. by exists new.
Qed.

Lemma collect_selected_counts_witness :
  let meters : gmap string PAC3200Meter := {[ "m1"%string := m1 ]} in
  let sel := ["ghost"; "m1"]%string in
  let s := collect_selected demo_world (fun _ => 7000000) fresh_database meters
             sel 0 in
  let read := filter (fun id => readable demo_world meters id = true) sel in
  collected s = length read
  ∧ failed s
    = length (filter (fun id => unreadable demo_world meters id = true) sel)
  ∧ (collected s + failed s
     = length (filter (fun id => is_Some (meters !! id)) sel))%nat
  ∧ col_calls s = (0 + 80 * collected s)%nat
  ∧ (∀ id, connected <$> col_meters s !! id = connected <$> meters !! id)
  ∧ ∃ new, reading_rows (col_db s) = reading_rows fresh_database ++ new
           ∧ meter_of <$> new = Some <$> read.
Proof.
  apply (collect_selected_counts demo_world (fun _ => 7000000) fresh_database
           {[ "m1"%string := m1 ]} ["ghost"; "m1"]%string 0).
  by_computation.
Defined.


(** * Generating sample data *)

Lemma save_reading_table_info w db id data now :
  table_info (save_reading w db id data now).2 = table_info db.
Proof.
  rewrite save_reading_unfold. unfold table_info.
  destruct (pac3200_readings db) as [t|] eqn:Ht; [|cbn [snd]; by rewrite Ht].
  repeat case_bool_decide; cbn [snd]; by rewrite ?Ht.
Qed.

Lemma simulated_batch_entry w m n k :
  MODBUS_AVAILABLE w = false → plausible w → k ∈ dict_keys registers →
  ∃ f, (read_all_parameters w m n).1.1 !! k = Some (VFloat f)
       ∧ is_finite f = true.
Proof.
  intros Hsim Hw Hk.
  destruct (read_all_parameters_entry w m n k Hk) as (i & a & _ & He).
  pose proof (read_float32_register_finite w m (n + i) a Hw) as Hf.
  unfold read_float32_register in Hf, He. rewrite Hsim in Hf, He.
  cbn [negb] in Hf, He. eauto.
Qed.

Lemma is_finite_is_valid f : is_finite f = true → is_valid (VFloat f) = true.
Proof. by destruct f. Qed.

Lemma sample_once_spec w clock id db m n :
  MODBUS_AVAILABLE w = false → plausible w →
  readings_columns ⊆ table_info db →
  let s := sample_once w clock id (db, m, n) in
  s.2 = (n + 80)%nat
  ∧ table_info s.1.1 = table_info db
  ∧ ∃ r, reading_rows s.1.1 = reading_rows db ++ [r]
         ∧ meter_of r = Some id
         ∧ ∀ k, k ∈ dict_keys registers →
                ∃ f, r !! k = Some (VFloat f) ∧ is_finite f = true.
Proof.
  intros Hsim Hw Hcols. cbv zeta. unfold sample_once.
  pose proof (read_all_parameters_calls w m n) as Hn.
  pose proof (read_all_parameters_bindable w m n) as Hb.
  pose proof (read_all_parameters_key w m n) as Hkeys.
  pose proof (fun k => simulated_batch_entry w m n k Hsim Hw) as Hdata.
  destruct (read_all_parameters w m n) as [[data m'] n'].
  cbn [fst snd] in *. split; [done|].
  split; [apply save_reading_table_info|].
  destruct (save_batch w db id data (clock n') Hcols Hb Hkeys)
    as (_ & r & Hr & Hm & _ & Hv).
  exists r. split; [done|]. split; [done|].
  intros k Hk. destruct (Hdata k Hk) as (f & Hf & Hfin).
  rewrite (Hv k _ Hf). cbn [real_affinity].
  destruct f as [s| | |s m0 e]; try discriminate Hfin;
    eexists; (split; reflexivity).
Qed.

Lemma sample_rounds_spec w clock id rounds db m n :
  MODBUS_AVAILABLE w = false → plausible w →
  readings_columns ⊆ table_info db →
  let s := Nat.iter rounds (sample_once w clock id) (db, m, n) in
  s.2 = (n + 80 * rounds)%nat
  ∧ table_info s.1.1 = table_info db
  ∧ ∃ new, reading_rows s.1.1 = reading_rows db ++ new
           ∧ meter_of <$> new = replicate rounds (Some id)
           ∧ ∀ r k, r ∈ new → k ∈ dict_keys registers →
                    ∃ f, r !! k = Some (VFloat f) ∧ is_finite f = true.
Proof.
  intros Hsim Hw Hcols. cbv zeta. induction rounds as [|rounds IH].
  - cbn [Nat.iter nat_rect fst snd]. split; [lia|]. split; [done|].
    exists []. rewrite app_nil_r. split; [done|]. split; [done|].
    intros r k Hr. by apply elem_of_nil in Hr.
  - rewrite Nat.iter_succ.
    destruct IH as (IHn & IHc & new & IHr & IHm & IHv).
    destruct (Nat.iter rounds (sample_once w clock id) (db, m, n))
      as [[db1 m1] n1].
    cbn [fst snd] in IHn, IHc, IHr. rewrite <- IHc in Hcols.
    destruct (sample_once_spec w clock id db1 m1 n1 Hsim Hw Hcols)
      as (Hn & Hc & r & Hr & Hm & Hv).
    rewrite Hn, Hc, Hr, IHn, IHc, IHr. split; [lia|]. split; [done|].
    exists (new ++ [r]). rewrite app_assoc. split; [done|]. split.
    + rewrite fmap_app, IHm. cbn [fmap list_fmap]. rewrite Hm.
      change (S rounds) with (1 + rounds)%nat.
      by rewrite Nat.add_comm, replicate_add.
    + intros r0 k [Hr0|Hr0]%elem_of_app Hk; [by eapply IHv|].
      apply list_elem_of_singleton in Hr0 as ->. by apply Hv.
Qed.

(** X15: the "Generate Sample Data" handler, which exists only without
    the Modbus library, stores ten rows for every meter, in the order of
    the loop, at the cost of 800 simulated register reads per meter.  On a
    reading table with the columns [init_database] creates, in an
    environment whose clock, sine and normal sample are finite floats of
    plausible size, every row it stores holds a finite value for every
    parameter of the register map; the rows that were there stay. *)
Theorem generate_sample_data_rows (w : world) (clock : nat → Z) (db : database)
    (meters : gmap string PAC3200Meter) (items : list (string * PAC3200Meter))
    (n : nat) :
  MODBUS_AVAILABLE w = false →
  plausible w →
  readings_columns ⊆ table_info db →
  let s := generate_sample_data w clock db meters items n in
  s.2 = (n + 800 * length items)%nat
  ∧ ∃ new, reading_rows s.1.1 = reading_rows db ++ new
           ∧ meter_of <$> new
             = (items ≫= fun im => replicate 10 (Some im.1))
           ∧ ∀ r k, r ∈ new → k ∈ dict_keys registers →
                    ∃ f, r !! k = Some (VFloat f) ∧ is_finite f = true.
Proof.
  intros Hsim Hw. cbv zeta. unfold generate_sample_data.
  revert db meters n. induction items as [|[id m] items IH];
    intros db meters n Hcols.
  - cbn [foldl length fst snd]. split; [lia|]. exists [].
    rewrite app_nil_r. split; [done|]. split; [done|].
    intros r k Hr. by apply elem_of_nil in Hr.
  - cbn [foldl].
    destruct (sample_rounds_spec w clock id 10 db m n Hsim Hw Hcols)
      as (Hn & Hc & new & Hr & Hm & Hv).
    destruct (Nat.iter 10 (sample_once w clock id) (db, m, n))
      as [[db1 m1] n1].
    cbn [fst snd] in Hn, Hc, Hr. rewrite <- Hc in Hcols.
    destruct (IH db1 (<[id := m1]> meters) n1 Hcols)
      as (IHn & new' & IHr & IHm & IHv).
    rewrite IHn, IHr, Hn, Hr. cbn [length]. split; [lia|].
    exists (new ++ new'). rewrite app_assoc. split; [done|]. split.
    + rewrite fmap_app, Hm, IHm. reflexivity.
    + intros r k [Hr0|Hr0]%elem_of_app Hk; [by eapply Hv|by eapply IHv].
Qed.

Lemma generate_sample_data_rows_witness :
  let s := generate_sample_data demo_world (fun _ => 7000000) fresh_database
             {[ "m1"%string := m1 ]} [("m1"%string, m1)] 0 in
  s.2 = (0 + 800 * length [("m1"%string, m1)])%nat
  ∧ ∃ new, reading_rows s.1.1 = reading_rows fresh_database ++ new
           ∧ meter_of <$> new
             = ([("m1"%string, m1)] ≫= fun im => replicate 10 (Some im.1))
           ∧ ∀ r k, r ∈ new → k ∈ dict_keys registers →
                    ∃ f, r !! k = Some (VFloat f) ∧ is_finite f = true.
Proof.
  apply (generate_sample_data_rows demo_world (fun _ => 7000000) fresh_database
           {[ "m1"%string := m1 ]} [("m1"%string, m1)] 0).
  - reflexivity.
  - split; intros; vm_compute; reflexivity.
  - intros k Hk. exact Hk.
Defined.

(** * The selection *)

Lemma list_remove_first_not_in x lst :
  x ∉ lst → list_remove_first x lst = lst.
Proof.
  induction lst as [|y lst IH]; [done|]. intros Hx. simpl.
  apply not_elem_of_cons in Hx as [Hne Hx].
  destruct (String.eqb_spec y x) as [->|_]; [done|]. by rewrite IH.
Qed.

Lemma elem_of_list_remove_first x lst j :
  NoDup lst →
  j ∈ list_remove_first x lst ↔ j ∈ lst ∧ j ≠ x.
Proof.
  induction lst as [|y lst IH]; intros Hnd; simpl.
  - rewrite elem_of_nil. tauto.
  - apply NoDup_cons in Hnd as [Hy Hnd].
    destruct (String.eqb_spec y x) as [->|Hne].
    + rewrite elem_of_cons. split.
      * intros Hj. split; [by right|]. intros ->. done.
      * intros [[->|Hj] Hne]; done.
    + rewrite !elem_of_cons, IH by done. split.
      * intros [->|[Hj Hjx]]; [by split; [left|]|by split; [right|]].
      * intros [[->|Hj] Hjx]; [by left|by right].
Qed.

Lemma NoDup_list_remove_first x lst :
  NoDup lst → NoDup (list_remove_first x lst).
Proof.
  induction lst as [|y lst IH]; intros Hnd; simpl; [done|].
  apply NoDup_cons in Hnd as [Hy Hnd].
  destruct (String.eqb_spec y x) as [->|Hne]; [done|].
  apply NoDup_cons. split; [|by apply IH].
  rewrite elem_of_list_remove_first by done. tauto.
Qed.

(** X16: the selection checkbox keeps the selection a list without
    repetition in which the meter is present exactly when its box is
    ticked; the membership of every other id is untouched. *)
Theorem update_selection_follows_checkbox (selected : bool) (id : string)
    (selected_meters : list string) :
  NoDup selected_meters →
  let selection := update_selection selected id selected_meters in
  NoDup selection
  ∧ (id ∈ selection ↔ selected = true)
  ∧ (∀ j, j ≠ id → j ∈ selection ↔ j ∈ selected_meters).
Proof.
  intros Hnd. simpl. unfold update_selection.
  destruct selected; simpl; case_bool_decide as Hin; simpl.
  - split; [done|]. split; [tauto|tauto].
  - split.
    + apply NoDup_app. split; [done|]. split; [|apply NoDup_singleton].
      intros x Hx ->%list_elem_of_singleton. done.
    + split.
      * rewrite elem_of_app, list_elem_of_singleton. tauto.
      * intros j Hj. rewrite elem_of_app, list_elem_of_singleton. tauto.
  - split; [by apply NoDup_list_remove_first|]. split.
    + rewrite elem_of_list_remove_first by done. split; [tauto|discriminate].
    + intros j Hj. rewrite elem_of_list_remove_first by done. tauto.
  - split; [done|]. split; [|tauto]. split; [tauto|discriminate].
Qed.

Lemma update_selection_follows_checkbox_witness :
  let selection := update_selection false "m1" ["m2"; "m1"; "m3"]%string in
  NoDup selection
  ∧ ("m1"%string ∈ selection ↔ false = true)
  ∧ (∀ j, j ≠ "m1"%string → j ∈ selection ↔ j ∈ ["m2"; "m1"; "m3"]%string).
Proof.
  apply (update_selection_follows_checkbox false "m1" ["m2"; "m1"; "m3"]%string).
  by_computation.
Defined.

(** X17: the "Remove" button keeps the selection within the registry only
    when [remove_meter] succeeds.  Starting from a selection without
    repetition whose ids are all registered: if the configuration table
    exists, the id is gone from the registry and from the selection, and
    the selection still holds registered ids only; if the table is missing,
    the id is gone from the registry all the same but stays in the
    selection. *)
Theorem remove_button_selection (w : world) (db : database)
    (meters : gmap string PAC3200Meter) (selected_meters : list string)
    (id : string) :
  NoDup selected_meters →
  (∀ j, j ∈ selected_meters → is_Some (meters !! j)) →
  let r := remove_button w db meters selected_meters id in
  r.1.2 !! id = None
  ∧ (∀ j, j ≠ id → r.1.2 !! j = meters !! j)
  ∧ if bool_decide (is_Some (meters_config db))
    then NoDup r.2 ∧ (id ∉ r.2)
         ∧ (∀ j, j ≠ id → j ∈ r.2 ↔ j ∈ selected_meters)
         ∧ (∀ j, j ∈ r.2 → is_Some (r.1.2 !! j))
    else r.2 = selected_meters ∧ r.1.1 = db.
Proof.
  intros Hnd Hreg. simpl. unfold remove_button, remove_meter.
  destruct (meters_config db) as [cfg|] eqn:Hcfg; simpl.
  - rewrite lookup_delete_eq. split; [done|].
    split; [by intros j Hj; rewrite lookup_delete_ne|].
    assert (Hsel : ∀ j, j ∈ (if bool_decide (id ∈ selected_meters)
                             then list_remove_first id selected_meters
                             else selected_meters)
                        ↔ j ∈ selected_meters ∧ j ≠ id).
    { intros j. case_bool_decide as Hin.
      - by apply elem_of_list_remove_first.
      - split; [|tauto]. intros Hj. split; [done|]. by intros ->. }
    split; [case_bool_decide; [by apply NoDup_list_remove_first|done]|].
    split; [rewrite Hsel; tauto|]. split.
    + intros j Hj. rewrite Hsel. tauto.
    + intros j [Hj Hne]%Hsel. rewrite lookup_delete_ne by done. by apply Hreg.
  - rewrite lookup_delete_eq. split; [done|].
    split; [by intros j Hj; rewrite lookup_delete_ne|].
    done.
Qed.

Lemma remove_button_selection_witness :
  let r := remove_button demo_world empty_database {[ "m1"%string := m1 ]}
             ["m1"%string] "m1" in
  r.1.2 !! "m1"%string = None
  ∧ (∀ j, j ≠ "m1"%string →
          r.1.2 !! j = ({[ "m1"%string := m1 ]} : gmap string PAC3200Meter) !! j)
  ∧ if bool_decide (is_Some (meters_config empty_database))
    then NoDup r.2 ∧ ("m1"%string ∉ r.2)
         ∧ (∀ j, j ≠ "m1"%string → j ∈ r.2 ↔ j ∈ ["m1"%string])
         ∧ (∀ j, j ∈ r.2 → is_Some (r.1.2 !! j))
    else r.2 = ["m1"%string] ∧ r.1.1 = empty_database.
Proof.
  apply (remove_button_selection demo_world empty_database
           {[ "m1"%string := m1 ]} ["m1"%string] "m1").
  - by_computation.
  - intros j ->%list_elem_of_singleton. rewrite lookup_singleton_eq. by eexists.
Defined.

(** * Adding and removing meters *)

(** X18: adding a meter under an id that is already configured replaces
    it.  When the second port and unit id fit 64 bits, adding the id twice
    leaves the database and the registry exactly as adding it once with
    the second set of values would: one configuration row and one meter
    object for the id, and nothing of the first values. *)
Theorem add_meter_twice_is_add_meter_once (db : database)
    (meters : gmap string PAC3200Meter) (id : string)
    (name1 host1 : string) (port1 unit1 : Z) (location1 description1 : string)
    (now1 : Z)
    (name2 host2 : string) (port2 unit2 : Z) (location2 description2 : string)
    (now2 : Z) :
  is_int64 port2 = true →
  is_int64 unit2 = true →
  let first := add_meter db meters id name1 host1 port1 unit1
                 location1 description1 now1 in
  add_meter first.1.1 first.1.2 id name2 host2 port2 unit2
    location2 description2 now2
  = add_meter db meters id name2 host2 port2 unit2 location2 description2 now2.
Proof.
  intros Hp Hu. simpl. unfold add_meter. rewrite Hp, Hu.
  destruct (meters_config db) as [cfg|] eqn:Hcfg; simpl.
  - destruct (is_int64 port1 && is_int64 unit1); simpl.
    + unfold set_meters_config. simpl. by rewrite !insert_insert_eq.
    + by rewrite Hcfg.
  - by rewrite Hcfg.
Qed.

Lemma add_meter_twice_is_add_meter_once_witness :
  let first := add_meter fresh_database ∅ "m1" "Main feeder" "192.168.0.101"
                 502 1 "Hall 2" "" 1000000 in
  add_meter first.1.1 first.1.2 "m1" "Spare feeder" "192.168.0.102" 503 2
    "Hall 3" "moved" 2000000
  = add_meter fresh_database ∅ "m1" "Spare feeder" "192.168.0.102" 503 2
      "Hall 3" "moved" 2000000.
Proof.
  apply (add_meter_twice_is_add_meter_once fresh_database ∅ "m1"
           "Main feeder" "192.168.0.101" 502 1 "Hall 2" "" 1000000
           "Spare feeder" "192.168.0.102" 503 2 "Hall 3" "moved" 2000000);
    reflexivity.
Defined.

(** X19: removing a meter undoes adding it.  If the configuration table
    exists and the id is neither configured nor registered, then adding the
    meter (with a port and unit id that fit 64 bits) and removing it again
    both succeed and leave the database and the registry exactly as they
    were; the object removed is the one that was added, never connected. *)
Theorem remove_meter_undoes_add_meter (w : world) (db : database)
    (cfg : gmap string config_row) (meters : gmap string PAC3200Meter)
    (id name host : string) (port unit_id : Z) (location description : string)
    (now : Z) :
  meters_config db = Some cfg →
  cfg !! id = None →
  meters !! id = None →
  is_int64 port = true →
  is_int64 unit_id = true →
  let added := add_meter db meters id name host port unit_id
                 location description now in
  let removed := remove_meter w added.1.1 added.1.2 id in
  added.2 = true
  ∧ removed
    = (db, meters,
       Some (new_meter id name host port unit_id location description), true).
Proof.
  intros Hcfg Hid Hm Hp Hu. simpl. unfold add_meter, remove_meter.
  rewrite Hcfg, Hp, Hu. simpl. split; [done|].
  rewrite lookup_insert_eq, !delete_insert_id by done. simpl.
  f_equal. f_equal; [f_equal|].
  - destruct db. unfold set_meters_config. simpl in *. by rewrite Hcfg.
  - unfold disconnect, new_meter. simpl. by destruct (MODBUS_AVAILABLE w).
Qed.

Lemma remove_meter_undoes_add_meter_witness :
  let added := add_meter fresh_database ∅ "m1" "Main feeder" "192.168.0.101"
                 502 1 "Hall 2" "" 1000000 in
  let removed := remove_meter live_world added.1.1 added.1.2 "m1" in
  added.2 = true
  ∧ removed
    = (fresh_database, ∅,
       Some (new_meter "m1" "Main feeder" "192.168.0.101" 502 1 "Hall 2" ""),
       true).
Proof.
  apply (remove_meter_undoes_add_meter live_world fresh_database ∅ ∅ "m1"
           "Main feeder" "192.168.0.101" 502 1 "Hall 2" "" 1000000);
    reflexivity.
Defined.


(** * The range of a live value *)

Lemma float_of_bits32_magnitude bits :
  is_finite (float_of_bits32 bits) = true →
  magnitude_le 128 (float_of_bits32 bits) = true.
Proof.
  unfold float_of_bits32.
  change 255 with (Z.ones 8). change 8388607 with (Z.ones 23).
  rewrite !Z.land_ones by lia.
  pose proof (Z.mod_pos_bound (Z.shiftr bits 23) (2 ^ 8) ltac:(lia)) as He.
  pose proof (Z.mod_pos_bound bits (2 ^ 23) ltac:(lia)) as Hm.
  set (e := Z.shiftr bits 23 mod 2 ^ 8) in *.
  set (m := bits mod 2 ^ 23) in *.
  change (Z.ones 8) with 255.
  destruct (e =? 255) eqn:He255.
  { by destruct (m =? 0). }
  apply Z.eqb_neq in He255.
  destruct (e =? 0).
  - destruct m as [|p|p] eqn:Hp; try done. intros _. unfold magnitude_le.
    apply Z.leb_le.
    pose proof (Zdigits2_le_of_lt (Z.pos p) 23 ltac:(lia) ltac:(lia) ltac:(lia)).
    lia.
  - destruct (m + 8388608) as [|p|p] eqn:Hp; try done. intros _.
    unfold magnitude_le. apply Z.leb_le.
    assert (Hlt : Z.pos p < 2 ^ 24) by lia.
    pose proof (Zdigits2_le_of_lt (Z.pos p) 24 ltac:(lia) ltac:(lia) Hlt).
    assert (e < 255) by lia. lia.
Qed.

Lemma decode_32bit_float_bits regs v :
  decode_32bit_float regs = Some v → ∃ bits, v = float_of_bits32 bits.
Proof.
  unfold decode_32bit_float. destruct (forallb is_uint16 regs); [|done].
  destruct regs as [|hi [|lo regs]]; try done. intros [= <-]. eauto.
Qed.

(** X20: under the live protocol every value [read_float32_register]
    returns is a binary32 number: it is finite and its magnitude is below
    [2^128], whatever registers the device sends. *)
Theorem live_read_is_binary32 (w : world) (m : PAC3200Meter) (n : nat)
    (register_address : Z) (v : spec_float) :
  MODBUS_AVAILABLE w = true →
  read_float32_register w m n register_address = Some v →
  is_finite v = true ∧ magnitude_le 128 v = true.
Proof.
  intros Hlive. unfold read_float32_register. rewrite Hlive. cbn [negb].
  destruct (client m) as [c|]; [|done].
  destruct (negb (socket c && is_socket_open w n)); [done|].
  destruct (read_holding_registers w n register_address 2 (unit_id m))
    as [| |regs]; try done.
  destruct (decode_32bit_float regs) as [v0|] eqn:Hdec; [|done].
  destruct (np_isnan v0 || np_isinf v0) eqn:Hbad; [done|].
  intros [= <-].
  assert (Hfin : is_finite v0 = true)
    by (rewrite is_finite_not_nan_inf, Hbad; reflexivity).
  split; [done|].
  apply decode_32bit_float_bits in Hdec as [bits ->].
  by apply float_of_bits32_magnitude.
Qed.

Lemma live_read_is_binary32_witness :
  MODBUS_AVAILABLE live_world = true
  ∧ ∃ v, read_float32_register live_world
           (connect live_world ConnectAccepted m1 0).2 1 55 = Some v
         ∧ is_finite v = true ∧ magnitude_le 128 v = true.
Proof.
  split; [reflexivity|]. eexists. split; [reflexivity|].
  apply (live_read_is_binary32 live_world
           (connect live_world ConnectAccepted m1 0).2 1 55);
    reflexivity.
Defined.


(** * The sign of a simulated value *)

Lemma binary_round_aux_nonnegative mx ex lx :
  is_finite (binary_round_aux prec emax false mx ex lx) = true →
  nonnegative (binary_round_aux prec emax false mx ex lx) = true.
Proof.
  unfold binary_round_aux.
  destruct (shr_fexp prec emax mx ex lx) as [mrs e'].
  destruct (shr_fexp prec emax _ e' _) as [mrs' e''].
  destruct (shr_m mrs') as [|p|p]; try done.
  by destruct (e'' <=? emax - prec).
Qed.

Lemma fmul_nonnegative x y :
  nonnegative x = true → nonnegative y = true →
  is_finite (fmul x y) = true → nonnegative (fmul x y) = true.
Proof.
  destruct x as [sx| | |sx mx ex], y as [sy| | |sy my ey]; try done.
  cbn [nonnegative]. intros ->%negb_true_iff ->%negb_true_iff.
  apply binary_round_aux_nonnegative.
Qed.

Lemma fadd_nonnegative x y :
  nonnegative x = true → nonnegative y = true →
  is_finite (fadd x y) = true → nonnegative (fadd x y) = true.
Proof.
  destruct x as [sx| | |sx mx ex], y as [sy| | |sy my ey];
    try discriminate; unfold fadd, SFadd.
  - intros _ _ _. by destruct sx, sy.
  - intros _ Hy _. exact Hy.
  - intros Hx _ _. exact Hx.
  - cbn [nonnegative]. intros ->%negb_true_iff ->%negb_true_iff.
    cbn [cond_Zopp].
    destruct (shl_align mx ex (Z.min ex ey)) as [m1 e1].
    destruct (shl_align my ey (Z.min ex ey)) as [m2 e2].
    cbn [fst]. change (Z.pos m1 + Z.pos m2) with (Z.pos (m1 + m2)).
    cbn [binary_normalize]. unfold binary_round.
    destruct (shl_align (m1 + m2) _ _) as [mz ez].
    apply binary_round_aux_nonnegative.
Qed.

Lemma from_abs_variation_value w m n a :
  from_abs_variation a = true →
  let variation :=
    fadd (fmul (np_sin w (fadd (fdiv (time_time w n) (of_int 10))
                               (fdiv (of_int (hash w (meter_id m) mod 10))
                                     (literal 10 1))))
               (literal 1 10))
         (np_random_normal w n) in
  _generate_simulated_value w m n a
  = if py_in a [43; 45; 47; 49; 51; 53]
    then fadd (literal 25 10) (fmul (fabs variation) (of_int 2))
    else fmul (fabs variation) (of_int 100).
Proof.
  unfold from_abs_variation, py_in.
  rewrite !existsb_app, negb_true_iff, !orb_false_iff.
  intros (H1 & H2 & H3 & H4 & H5 & H6).
  unfold _generate_simulated_value, py_in. cbv zeta.
  rewrite H1, H2, H3, H4, H5, H6. reflexivity.
Qed.

(** X21: the simulated values that are built from [abs(variation)] are
    never negative.  In an environment whose clock, sine and normal sample
    are finite floats of plausible size, the simulated value of a THD
    register and of every register outside the seven lists of
    [_generate_simulated_value] (the maxima, the minima and the
    unbalances of the register map among them) is a finite float that is not
    negative. *)
Theorem simulated_value_from_abs_is_nonnegative (w : world) (m : PAC3200Meter)
    (n : nat) (register_address : Z) :
  plausible w →
  from_abs_variation register_address = true →
  nonnegative (_generate_simulated_value w m n register_address) = true.
Proof.
  intros Hw Ha.
  pose proof (simulated_value_finite w m n register_address Hw) as Hfin.
  rewrite (from_abs_variation_value w m n register_address Ha) in *.
  cbv zeta in *.
  pose proof (meter_offset_magnitude (hash w (meter_id m))) as Hoff.
  pose proof (variation_magnitude w n _ Hw Hoff) as Hvar.
  set (variation := fadd _ (np_random_normal w n)) in *.
  assert (Habs : nonnegative (fabs variation) = true).
  { apply magnitude_le_finite in Hvar. by destruct variation. }
  pose proof (magnitude_le_fabs _ _ Hvar) as Hmag.
  destruct (py_in register_address [43; 45; 47; 49; 51; 53]).
  - apply fadd_nonnegative; [by vm_compute| |done].
    apply fmul_nonnegative; [done|by vm_compute|].
    apply (magnitude_le_finite 940).
    apply (fmul_bound 910 20); [done|by vm_compute|lia..].
  - by apply fmul_nonnegative; [|vm_compute|].
Qed.

Lemma simulated_value_from_abs_is_nonnegative_witness :
  nonnegative (_generate_simulated_value demo_world m1 0 75) = true.
Proof.
  apply (simulated_value_from_abs_is_nonnegative demo_world m1 0 75).
  - split; intros; vm_compute; reflexivity.
  - reflexivity.
Defined.


(** * The order of the query results *)

Lemma string_compare_trans s1 s2 s3 :
  String.compare s1 s2 ≠ Gt → String.compare s2 s3 ≠ Gt →
  String.compare s1 s3 ≠ Gt.
Proof.
  revert s2 s3. induction s1 as [|c1 s1 IH]; intros [|c2 s2] [|c3 s3];
    simpl; try done.
  unfold Ascii.compare.
  destruct (N.compare_spec (Ascii.N_of_ascii c1) (Ascii.N_of_ascii c2)) as [H12|H12|H12];
    [|intros _|done];
    (destruct (N.compare_spec (Ascii.N_of_ascii c2) (Ascii.N_of_ascii c3)) as [H23|H23|H23];
     [| |done]).
  - rewrite H12, H23, N.compare_refl. apply IH.
  - intros _ _. rewrite H12. by apply N.compare_lt_iff in H23 as ->.
  - intros _. rewrite <- H23. by apply N.compare_lt_iff in H12 as ->.
  - intros _.
    assert (H13 : (Ascii.N_of_ascii c1 < Ascii.N_of_ascii c3)%N) by lia.
    by apply N.compare_lt_iff in H13 as ->.
Qed.

Lemma name_le_trans : Transitive name_le.
Proof.
  intros x y z. unfold name_le, String.leb. intros Hxy Hyz.
  pose proof (string_compare_trans (meter_name x) (meter_name y) (meter_name z)) as H.
  destruct (String.compare (meter_name x) (meter_name y)); try done;
    destruct (String.compare (meter_name y) (meter_name z)); try done;
    destruct (String.compare (meter_name x) (meter_name z)); try done;
    by destruct H.
Qed.

Lemma name_le_total : Total name_le.
Proof. intros x y. apply String.leb_total. Qed.

Lemma newer_trans : Transitive newer.
Proof. intros x y z. unfold newer. lia. Qed.

Lemma newer_total : Total newer.
Proof. intros x y. unfold newer. lia. Qed.

Lemma StronglySorted_fmap {A B} (R : relation A) (S : relation B) (f : A → B) l :
  (∀ x y, R x y → S (f x) (f y)) →
  StronglySorted R l → StronglySorted S (f <$> l).
Proof.
  intros HRS. induction 1 as [|x l Hl IH Hx]; simpl; constructor; [done|].
  apply Forall_fmap. eapply Forall_impl; [exact Hx|]. intros y. apply HRS.
Qed.

Lemma StronglySorted_strict (l : list Z) :
  StronglySorted (fun x y => y <= x) l → NoDup l →
  StronglySorted (fun x y => y < x) l.
Proof.
  induction 1 as [|x l Hl IH Hx]; intros Hnd; constructor.
  - apply IH. by apply NoDup_cons in Hnd as [_ ?].
  - apply NoDup_cons in Hnd as [Hnotin _].
    rewrite Forall_forall in *. intros y Hy. specialize (Hx y Hy).
    assert (y ≠ x) by (intros ->; done). lia.
Qed.

(** X22: the rows of [get_all_meters_latest] come ordered by meter name
    (ORDER BY m.name): each row's name is at most, in the byte order of
    strings, the name of every row after it. *)
Theorem get_all_meters_latest_ordered_by_name (db : database) :
  StronglySorted name_le (get_all_meters_latest db)
  ∧ ∀ i j x y, (i < j)%nat →
      get_all_meters_latest db !! i = Some x →
      get_all_meters_latest db !! j = Some y →
      String.leb (meter_name x) (meter_name y) = true.
Proof.
  assert (Hs : StronglySorted name_le (get_all_meters_latest db)).
  { unfold get_all_meters_latest.
    destruct (pac3200_readings db) as [t|]; [|constructor].
    destruct (meters_config db) as [cfg|]; [|constructor].
    apply StronglySorted_merge_sort; [apply name_le_trans|apply name_le_total]. }
  split; [done|]. intros i j x y Hij Hx Hy.
  revert i j Hij Hx Hy.
  induction Hs as [|z l Hl IH Hz]; intros i j Hij Hx Hy; [done|].
  destruct j as [|j]; [lia|]. simpl in Hy.
  destruct i as [|i]; simpl in Hx.
  - injection Hx as ->. rewrite Forall_forall in Hz. apply Hz.
    by eapply list_elem_of_lookup_2.
  - apply (IH i j); [lia|done..].
Qed.

(** X23: the rows of [get_aggregated_data] come newest first with no
    timestamp twice (GROUP BY timestamp ORDER BY timestamp DESC): the
    timestamps are strictly decreasing along the result, whatever the
    values aggregated and whatever the engine reads a text as. *)
Theorem get_aggregated_data_newest_first (w : world) (db : database)
    (now hours : Z) :
  StronglySorted (fun t t' => t' < t)
    (agg_timestamp <$> get_aggregated_data w db now hours).
Proof.
  apply StronglySorted_strict; [|apply get_aggregated_data_NoDup].
  unfold get_aggregated_data.
  destruct (timedelta_hours hours) as [delta|]; [|constructor].
  destruct (datetime_sub now delta) as [start_time|]; [|constructor].
  destruct (pac3200_readings db) as [t|]; [|constructor].
  destruct (forallb _ aggregated_columns); [|constructor].
  destruct (mapM _ _) as [k|] eqn:Hk; [|constructor].
  change (default [] (Some k)) with k.
  rewrite (mapM_aggregate_timestamps _ _ _ Hk).
  apply (StronglySorted_fmap newer); [by intros x y|].
  apply StronglySorted_merge_sort; [apply newer_trans|apply newer_total].
Qed.

